(** * ChipConfigData: the legacy chip.json converter

    A shallow embedding of [packages/controller/src/converter/ChipConfigData.ts]
    and the properties its specification states about it.

    Conventions of the embedding.
    - JavaScript strings are [string]s: sequences of code units below 256.
      Within that range the line terminators of the regular expression
      metacharacter [.] are LF and CR, and the white space skipped by
      [parseInt] is TAB, LF, VT, FF, CR, SP and NBSP.
    - JavaScript numbers that the code only ever uses as integers (fabric
      indices, key-set slots) are exact integers.  The source agrees with
      this for safe integers, those of magnitude below 2^53; beyond them
      [parseInt] rounds and a template literal drops digits, which the
      model does not follow.  Every property that depends on how a number
      is parsed or printed is stated for safe integers ([Js.safe_N],
      [Js.safe_jsnum]).
    - A JavaScript [Map] (and the plain object [save] fills) is an
      insertion-ordered association list: [set] on a present key replaces
      the value in place, on an absent key appends.  An assignment to the
      plain object under the name [__proto__] creates no property
      ([Js.object_set]).  That a plain object lists integer-like property
      names first is left out; the properties below speak of the value
      under a key, not of the order of keys.
    - The parsed file has the type the code asserts for it
      ([ChipConfigFile]): the values of [sdk-config] are strings.  The
      value of [repl-config] is any JSON value.
    - A call that may throw returns a [result]; code that mutates [this]
      and may throw lives in the monad [M], whose state survives a throw
      exactly as the mutated object does.
    - Collaborators that are not part of the converter (Node's Buffer, file
      system and JSON, the TLV schemas, the certificate library) are
      interfaces: type classes whose fields are the calls the code makes. *)

From Stdlib Require Import String Ascii List Bool NArith ZArith Lia.
From Stdlib Require Import Sorted Permutation DecimalString.
Import ListNotations.
Open Scope string_scope.

Set Implicit Arguments.

(** ** Thrown values and results *)

(** What a [catch (e)] clause can see: an [Error] with its [message], or any
    other value, of which the code only uses [String(e)]. *)
Inductive thrown : Type :=
| JsError (message : string)
| JsValue (text : string).

Inductive result (A : Type) : Type :=
| Ok (a : A)
| Throw (e : thrown).
Arguments Ok {A} a.
Arguments Throw {A} e.

Definition bytes := list Byte.byte.

(** ** Keys of a [Map] *)

(** Key equality as [Map] uses it (SameValueZero). *)
Class KeyEq (K : Type) := keqb : K -> K -> bool.

#[export] Instance string_KeyEq : KeyEq string := String.eqb.

#[export] Instance N_KeyEq : KeyEq N := N.eqb.

(** The result of [parseInt]: [NaN] or an integer.  As a [Map] key, [NaN]
    equals itself and -0 is +0, which is plain equality here. *)
Inductive jsnum : Type :=
| NaN
| Int (z : Z).

Definition jsnum_eqb (a b : jsnum) : bool :=
  match a, b with
  | NaN, NaN => true
  | Int x, Int y => Z.eqb x y
  | _, _ => false
  end.

#[export] Instance jsnum_KeyEq : KeyEq jsnum := jsnum_eqb.

(** The test decides equality of keys. *)
Class KeyEqLaws (K : Type) `{KeyEq K} : Prop :=
  keqb_eq : forall x y : K, keqb x y = true <-> x = y.
Arguments KeyEqLaws K {_}.

(** ** Insertion-ordered maps *)

Module JsMap.
Section Ops.
Context {K V : Type} `{KeyEq K}.

Definition t := list (K * V).

Definition empty : t := [].

Fixpoint get (m : t) (k : K) : option V :=
  match m with
  | [] => None
  | (k', v) :: m' => if keqb k' k then Some v else get m' k
  end.

Fixpoint set (m : t) (k : K) (v : V) : t :=
  match m with
  | [] => [(k, v)]
  | (k', v') :: m' =>
      if keqb k' k then (k', v) :: m' else (k', v') :: set m' k v
  end.

Definition keys (m : t) : list K := map fst m.

Definition has (m : t) (k : K) : bool :=
  match get m k with Some _ => true | None => false end.

End Ops.
Arguments t : clear implicits.
End JsMap.

(** ** Strings and numbers as the code uses them *)

Module Js.

(** [s.slice(n)] for [0 <= n]. *)
Fixpoint slice (n : nat) (s : string) : string :=
  match n, s with
  | O, _ => s
  | S n', String _ r => slice n' r
  | S _, EmptyString => EmptyString
  end.

Definition startsWith (s p : string) : bool := String.prefix p s.

Definition code (c : ascii) : N := N_of_ascii c.

Definition in_range (lo hi : N) (c : ascii) : bool :=
  (lo <=? code c)%N && (code c <=? hi)%N.

(** Value of a character of the class [[0-9a-fA-F]]. *)
Definition hex_digit (c : ascii) : option N :=
  if in_range 48 57 c then Some (code c - 48)%N
  else if in_range 97 102 c then Some (code c - 87)%N
  else if in_range 65 70 c then Some (code c - 55)%N
  else None.

Definition dec_digit (c : ascii) : option N :=
  if in_range 48 57 c then Some (code c - 48)%N else None.

Definition is_hex (c : ascii) : bool :=
  match hex_digit c with Some _ => true | None => false end.

(** Line terminators, which the metacharacter [.] refuses (no [s] flag). *)
Definition is_line_terminator (c : ascii) : bool :=
  (code c =? 10)%N || (code c =? 13)%N.

(** White space that [parseInt] skips in front of the number. *)
Definition is_white_space (c : ascii) : bool :=
  in_range 9 13 c || (code c =? 32)%N || (code c =? 160)%N.

(** Does [(.+)$] match the whole of [s]? *)
Fixpoint all_dot (s : string) : bool :=
  match s with
  | EmptyString => true
  | String c r => negb (is_line_terminator c) && all_dot r
  end.

Definition dot_plus (s : string) : bool :=
  match s with
  | EmptyString => false
  | String _ _ => all_dot s
  end.

(** The longest prefix in [[0-9a-fA-F]*] and what follows it. *)
Fixpoint span_hex (s : string) : string * string :=
  match s with
  | EmptyString => (EmptyString, EmptyString)
  | String c r =>
      if is_hex c
      then let (h, t) := span_hex r in (String c h, t)
      else (EmptyString, s)
  end.

(** Is [s] in [[0-9a-fA-F]*]? *)
Fixpoint all_hex (s : string) : bool :=
  match s with
  | EmptyString => true
  | String c r => is_hex c && all_hex r
  end.

(** [key.match(/^f\/([0-9a-fA-F]+)\/(.+)$/)]: the two groups, or [None] for
    [null].  A slash is no hex digit, so group 1 can only be the longest hex
    prefix after [f/], and backtracking finds no other match. *)
Definition match_fabric_key (key : string) : option (string * string) :=
  match key with
  | String "f" (String "/" r) =>
      match span_hex r with
      | (String c h, String "/" sub) =>
          if dot_plus sub then Some (String c h, sub) else None
      | _ => None
      end
  | _ => None
  end.

(** [parseInt(s, 16)] on the digits the expression above has matched: no
    white space, sign or [0x] prefix can occur there.  The result is the
    integer the digits stand for; [parseInt] returns that integer when it
    is below 2^53, and the nearest number otherwise ([safe_N] below). *)
Fixpoint parseInt16_from (acc : N) (s : string) : N :=
  match s with
  | EmptyString => acc
  | String c r =>
      match hex_digit c with
      | Some d => parseInt16_from (16 * acc + d)%N r
      | None => acc
      end
  end.

Definition parseInt16 (s : string) : N := parseInt16_from 0 s.

Fixpoint skip_white_space (s : string) : string :=
  match s with
  | String c r => if is_white_space c then skip_white_space r else s
  | EmptyString => EmptyString
  end.

(** The decimal digits at the front of [s]: [None] when there is none. *)
Fixpoint digits10 (acc : option N) (s : string) : option N :=
  match s with
  | EmptyString => acc
  | String c r =>
      match dec_digit c with
      | Some d =>
          digits10 (Some (10 * match acc with Some a => a | None => 0 end + d)%N) r
      | None => acc
      end
  end.

(** [parseInt(s, 10)] on any string: white space, a sign, then digits up to
    the first other character; [NaN] without a digit.  The result is the
    integer the digits stand for; [parseInt] returns that integer when its
    magnitude is below 2^53, and a number near it otherwise ([safe_jsnum]
    below). *)
Definition parseInt10 (s : string) : jsnum :=
  let s1 := skip_white_space s in
  let '(neg, s2) :=
    match s1 with
    | String "-" r => (true, r)
    | String "+" r => (false, r)
    | _ => (false, s1)
    end in
  match digits10 None s2 with
  | None => NaN
  | Some n => Int (if neg then - Z.of_N n else Z.of_N n)
  end.

(** A number inside a template literal: all the decimal digits of the
    integer, which is what the code prints for an integer of magnitude
    below 2^53 (larger numbers lose digits, and from 10^21 on are printed
    with an exponent). *)
Definition N_toString (n : N) : string :=
  NilZero.string_of_uint (N.to_uint n).

Definition jsnum_toString (x : jsnum) : string :=
  match x with
  | NaN => "NaN"
  | Int z => NilZero.string_of_int (Z.to_int z)
  end.

(** The range in which the numbers of this model are the numbers of the
    code: a JavaScript number holds every integer of magnitude below 2^53
    exactly ([Number.isSafeInteger]), [parseInt] returns it and a template
    literal prints it digit for digit.  Outside it [parseInt] rounds, so
    that the result is never inside it, and the functions above do not
    follow; what depends on them is stated for numbers in this range. *)
Definition safe_N (n : N) : bool := (n <? 2 ^ 53)%N.

Definition safe_jsnum (x : jsnum) : bool :=
  match x with
  | NaN => true
  | Int z => (Z.abs z <? 2 ^ 53)%Z
  end.

(** [obj[key] = value] for a string [value] on an object made by [{}].  The
    name [__proto__] is an accessor of [Object.prototype] whose setter
    ignores a string, so that assignment creates no property; under every
    other name the object gets, or keeps, an own property. *)
Definition object_set (o : JsMap.t string string) (key value : string)
  : JsMap.t string string :=
  if key =? "__proto__" then o else JsMap.set o key value.

End Js.

(** ** Data model: [TlvSchemas] and [types] *)

(** Modelled from the spec: the record types of [TlvSchemas.ts], which the
    converter imports; only the fields the converter or its tests read (a key
    entry also carries metadata, which no code here looks at).  The decoders
    themselves are the interface [TlvSchemas] below. *)
Module Tlv.

Record FabricMetadata := { vendorId : N; label : string }.

Record GroupKeyEntry := { key : bytes }.

Record GroupKeySet := {
  policy : N;
  keyCount : N;
  keys : list GroupKeyEntry;
  groupKeySetId : N
}.

Record FabricIndexList := { nextFabricIndex : N; fabricIndices : list N }.

Record LastKnownGoodTime := { epochSeconds : N }.

Record SessionResumptionDetails := {
  resumptionId : bytes;
  sharedSecret : bytes;
  cat : bytes
}.

Record SessionResumptionEntry := { fabricIndex : N; peerNodeId : N }.

Definition SessionResumptionIndex := list SessionResumptionEntry.

End Tlv.

(** The [decode] method of each schema: it returns the record or throws. *)
Class TlvSchemas := {
  TlvFabricMetadata_decode : bytes -> result Tlv.FabricMetadata;
  TlvGroupKeySet_decode : bytes -> result Tlv.GroupKeySet;
  TlvFabricIndexList_decode : bytes -> result Tlv.FabricIndexList;
  TlvLastKnownGoodTime_decode : bytes -> result Tlv.LastKnownGoodTime;
  TlvSessionResumptionDetails_decode :
    bytes -> result Tlv.SessionResumptionDetails;
  TlvSessionResumptionEntry_decode : bytes -> result Tlv.SessionResumptionEntry;
  TlvSessionResumptionIndex_decode : bytes -> result Tlv.SessionResumptionIndex
}.

(** Modelled from the spec: [DecodedEntry] of [types.ts]. *)
Record DecodedEntry := { raw : bytes; base64 : string }.

Module Fabric.

(** Modelled from the spec: [FabricData] of [types.ts]. *)
Record FabricData := {
  index : N;
  noc : option DecodedEntry;
  icac : option DecodedEntry;
  rcac : option DecodedEntry;
  metadata : option DecodedEntry;
  metadataDecoded : option Tlv.FabricMetadata;
  keys : JsMap.t jsnum DecodedEntry;
  keysDecoded : JsMap.t jsnum Tlv.GroupKeySet;
  sessions : JsMap.t string DecodedEntry;
  sessionsDecoded : JsMap.t string Tlv.SessionResumptionDetails;
  resumptions : JsMap.t string DecodedEntry;
  resumptionsDecoded : JsMap.t string Tlv.SessionResumptionEntry;
  other : JsMap.t string DecodedEntry
}.

(** Assignments to one field of a fabric object. *)
Definition set_noc (e : DecodedEntry) (f : FabricData) : FabricData :=
  Build_FabricData (index f) (Some e) (icac f) (rcac f) (metadata f)
    (metadataDecoded f) (keys f) (keysDecoded f) (sessions f)
    (sessionsDecoded f) (resumptions f) (resumptionsDecoded f) (other f).

Definition set_icac (e : DecodedEntry) (f : FabricData) : FabricData :=
  Build_FabricData (index f) (noc f) (Some e) (rcac f) (metadata f)
    (metadataDecoded f) (keys f) (keysDecoded f) (sessions f)
    (sessionsDecoded f) (resumptions f) (resumptionsDecoded f) (other f).

Definition set_rcac (e : DecodedEntry) (f : FabricData) : FabricData :=
  Build_FabricData (index f) (noc f) (icac f) (Some e) (metadata f)
    (metadataDecoded f) (keys f) (keysDecoded f) (sessions f)
    (sessionsDecoded f) (resumptions f) (resumptionsDecoded f) (other f).

Definition set_metadata (e : DecodedEntry) (f : FabricData) : FabricData :=
  Build_FabricData (index f) (noc f) (icac f) (rcac f) (Some e)
    (metadataDecoded f) (keys f) (keysDecoded f) (sessions f)
    (sessionsDecoded f) (resumptions f) (resumptionsDecoded f) (other f).

Definition set_metadataDecoded (d : Tlv.FabricMetadata) (f : FabricData)
  : FabricData :=
  Build_FabricData (index f) (noc f) (icac f) (rcac f) (metadata f)
    (Some d) (keys f) (keysDecoded f) (sessions f)
    (sessionsDecoded f) (resumptions f) (resumptionsDecoded f) (other f).

Definition keys_set (i : jsnum) (e : DecodedEntry) (f : FabricData)
  : FabricData :=
  Build_FabricData (index f) (noc f) (icac f) (rcac f) (metadata f)
    (metadataDecoded f) (JsMap.set (keys f) i e) (keysDecoded f) (sessions f)
    (sessionsDecoded f) (resumptions f) (resumptionsDecoded f) (other f).

Definition keysDecoded_set (i : jsnum) (d : Tlv.GroupKeySet) (f : FabricData)
  : FabricData :=
  Build_FabricData (index f) (noc f) (icac f) (rcac f) (metadata f)
    (metadataDecoded f) (keys f) (JsMap.set (keysDecoded f) i d) (sessions f)
    (sessionsDecoded f) (resumptions f) (resumptionsDecoded f) (other f).

Definition sessions_set (n : string) (e : DecodedEntry) (f : FabricData)
  : FabricData :=
  Build_FabricData (index f) (noc f) (icac f) (rcac f) (metadata f)
    (metadataDecoded f) (keys f) (keysDecoded f) (JsMap.set (sessions f) n e)
    (sessionsDecoded f) (resumptions f) (resumptionsDecoded f) (other f).

Definition sessionsDecoded_set (n : string) (d : Tlv.SessionResumptionDetails)
  (f : FabricData) : FabricData :=
  Build_FabricData (index f) (noc f) (icac f) (rcac f) (metadata f)
    (metadataDecoded f) (keys f) (keysDecoded f) (sessions f)
    (JsMap.set (sessionsDecoded f) n d) (resumptions f) (resumptionsDecoded f)
    (other f).

Definition resumptions_set (r : string) (e : DecodedEntry) (f : FabricData)
  : FabricData :=
  Build_FabricData (index f) (noc f) (icac f) (rcac f) (metadata f)
    (metadataDecoded f) (keys f) (keysDecoded f) (sessions f)
    (sessionsDecoded f) (JsMap.set (resumptions f) r e) (resumptionsDecoded f)
    (other f).

Definition resumptionsDecoded_set (r : string) (d : Tlv.SessionResumptionEntry)
  (f : FabricData) : FabricData :=
  Build_FabricData (index f) (noc f) (icac f) (rcac f) (metadata f)
    (metadataDecoded f) (keys f) (keysDecoded f) (sessions f)
    (sessionsDecoded f) (resumptions f) (JsMap.set (resumptionsDecoded f) r d)
    (other f).

Definition other_set (k : string) (e : DecodedEntry) (f : FabricData)
  : FabricData :=
  Build_FabricData (index f) (noc f) (icac f) (rcac f) (metadata f)
    (metadataDecoded f) (keys f) (keysDecoded f) (sessions f)
    (sessionsDecoded f) (resumptions f) (resumptionsDecoded f)
    (JsMap.set (other f) k e).

End Fabric.

(** Modelled from the spec: [GlobalData] of [types.ts]. *)
Record GlobalData := {
  fabricIndexList : option DecodedEntry;
  fabricIndexListDecoded : option Tlv.FabricIndexList;
  lastKnownGoodTime : option DecodedEntry;
  lastKnownGoodTimeDecoded : option Tlv.LastKnownGoodTime
}.

(** Modelled from the spec: [SessionData] of [types.ts]. *)
Record SessionData := {
  resumptionIndex : option DecodedEntry;
  resumptionIndexDecoded : option Tlv.SessionResumptionIndex
}.

(** Opaque JSON: the converter never looks inside an element or a member
    of the value of [repl-config], so its text stands for it. *)
Record json := { json_text : string }.

(** A JSON value other than [null], as far as the converter looks at the
    value of [repl-config]: what kind of value it is and which keys
    [Object.keys] finds on it. *)
Inductive json_value : Type :=
| JBoolean (b : bool)
| JNumber (text : string)
| JString (s : string)
| JArray (items : list json)
| JObject (members : JsMap.t string json).

(** [Object.keys(v).length]: the indices of a string or an array, the
    members of an object, nothing on a number or a boolean. *)
Definition Object_keys_length (v : json_value) : nat :=
  match v with
  | JBoolean _ | JNumber _ => 0
  | JString s => String.length s
  | JArray items => length items
  | JObject members => length (JsMap.keys members)
  end.

(** Modelled from the spec: [ChipConfigFile] of [types.ts], the parsed
    file.  A member that is absent (or [null]) is [None]; the entries of
    [sdk-config] come in the order of [Object.entries]; [repl-config] is
    any JSON value. *)
Record ChipConfigFile := {
  sdk_config : option (JsMap.t string string);
  repl_config : option json_value
}.

(** [JSON.parse] makes an object with distinct keys. *)
Definition well_formed (file : ChipConfigFile) : Prop :=
  match sdk_config file with
  | Some entries => NoDup (JsMap.keys entries)
  | None => True
  end.

(** What [JSON.parse] can return where the code expects a [ChipConfigFile]:
    the JSON text [null] parses, and has no members to read. *)
Inductive parsed : Type :=
| ParsedNull
| ParsedFile (file : ChipConfigFile).

(** Node's [Buffer], [fs/promises] and [JSON].  Of [writeFile] only the
    outcome of the call is modelled, not what it leaves on disk: the file
    [save] writes is the text of the object [save_output] below. *)
Class Runtime := {
  Buffer_from_base64 : string -> bytes;
  readFile : string -> result string;
  writeFile : string -> string -> result unit;
  JSON_parse : string -> result parsed;
  JSON_stringify : ChipConfigFile -> string
}.

(** ** The state of a [ChipConfigData] object *)

Record ChipConfigData := {
  fabrics : JsMap.t N Fabric.FabricData;
  sessions : SessionData;
  globals : GlobalData;
  ignored : JsMap.t string string;
  generic : JsMap.t string string;
  replConfig : json_value
}.

(** [new ChipConfigData()]. *)
Definition new_ChipConfigData : ChipConfigData :=
  {| fabrics := JsMap.empty;
     sessions := {| resumptionIndex := None; resumptionIndexDecoded := None |};
     globals := {| fabricIndexList := None; fabricIndexListDecoded := None;
                   lastKnownGoodTime := None;
                   lastKnownGoodTimeDecoded := None |};
     ignored := JsMap.empty;
     generic := JsMap.empty;
     replConfig := JObject JsMap.empty |}.

Definition with_fabrics (m : JsMap.t N Fabric.FabricData) (st : ChipConfigData)
  : ChipConfigData :=
  {| fabrics := m; sessions := sessions st; globals := globals st;
     ignored := ignored st; generic := generic st;
     replConfig := replConfig st |}.

Definition with_sessions (s : SessionData) (st : ChipConfigData)
  : ChipConfigData :=
  {| fabrics := fabrics st; sessions := s; globals := globals st;
     ignored := ignored st; generic := generic st;
     replConfig := replConfig st |}.

Definition with_globals (g : GlobalData) (st : ChipConfigData)
  : ChipConfigData :=
  {| fabrics := fabrics st; sessions := sessions st; globals := g;
     ignored := ignored st; generic := generic st;
     replConfig := replConfig st |}.

Definition with_ignored (m : JsMap.t string string) (st : ChipConfigData)
  : ChipConfigData :=
  {| fabrics := fabrics st; sessions := sessions st; globals := globals st;
     ignored := m; generic := generic st; replConfig := replConfig st |}.

Definition with_generic (m : JsMap.t string string) (st : ChipConfigData)
  : ChipConfigData :=
  {| fabrics := fabrics st; sessions := sessions st; globals := globals st;
     ignored := ignored st; generic := m; replConfig := replConfig st |}.

Definition with_replConfig (r : json_value) (st : ChipConfigData)
  : ChipConfigData :=
  {| fabrics := fabrics st; sessions := sessions st; globals := globals st;
     ignored := ignored st; generic := generic st; replConfig := r |}.

Definition set_fabricIndexList (e : DecodedEntry) (g : GlobalData) : GlobalData :=
  {| fabricIndexList := Some e;
     fabricIndexListDecoded := fabricIndexListDecoded g;
     lastKnownGoodTime := lastKnownGoodTime g;
     lastKnownGoodTimeDecoded := lastKnownGoodTimeDecoded g |}.

Definition set_fabricIndexListDecoded (d : Tlv.FabricIndexList) (g : GlobalData)
  : GlobalData :=
  {| fabricIndexList := fabricIndexList g;
     fabricIndexListDecoded := Some d;
     lastKnownGoodTime := lastKnownGoodTime g;
     lastKnownGoodTimeDecoded := lastKnownGoodTimeDecoded g |}.

Definition set_lastKnownGoodTime (e : DecodedEntry) (g : GlobalData)
  : GlobalData :=
  {| fabricIndexList := fabricIndexList g;
     fabricIndexListDecoded := fabricIndexListDecoded g;
     lastKnownGoodTime := Some e;
     lastKnownGoodTimeDecoded := lastKnownGoodTimeDecoded g |}.

Definition set_lastKnownGoodTimeDecoded (d : Tlv.LastKnownGoodTime)
  (g : GlobalData) : GlobalData :=
  {| fabricIndexList := fabricIndexList g;
     fabricIndexListDecoded := fabricIndexListDecoded g;
     lastKnownGoodTime := lastKnownGoodTime g;
     lastKnownGoodTimeDecoded := Some d |}.

Definition set_resumptionIndex (e : DecodedEntry) (s : SessionData)
  : SessionData :=
  {| resumptionIndex := Some e;
     resumptionIndexDecoded := resumptionIndexDecoded s |}.

Definition set_resumptionIndexDecoded (d : Tlv.SessionResumptionIndex)
  (s : SessionData) : SessionData :=
  {| resumptionIndex := resumptionIndex s; resumptionIndexDecoded := Some d |}.

(** ** Mutation and exceptions *)

(** A computation on [this]: it returns or throws, and leaves a state behind
    either way. *)
Definition M (A : Type) : Type := ChipConfigData -> result A * ChipConfigData.

Definition ret {A} (a : A) : M A := fun st => (Ok a, st).

Definition bind {A B} (m : M A) (k : A -> M B) : M B :=
  fun st =>
    match m st with
    | (Ok a, st') => k a st'
    | (Throw e, st') => (Throw e, st')
    end.

(** A call into a collaborator, which has no access to [this]. *)
Definition lift {A} (r : result A) : M A := fun st => (r, st).

Definition modify (f : ChipConfigData -> ChipConfigData) : M unit :=
  fun st => (Ok tt, f st).

Definition gets {A} (f : ChipConfigData -> A) : M A :=
  fun st => (Ok (f st), st).

(** [try { body } catch (e) { handler }]: the handler starts from the state
    the body had reached when it threw. *)
Definition try_catch {A} (body : M A) (handler : thrown -> M A) : M A :=
  fun st =>
    match body st with
    | (Ok a, st') => (Ok a, st')
    | (Throw e, st') => handler e st'
    end.

Notation "x <- m ;; k" := (bind m (fun x => k))
  (at level 61, m at next level, right associativity).
Notation "m ;; k" := (bind m (fun _ => k))
  (at level 61, right associativity).

(** [for (const x of xs) body]. *)
Fixpoint for_of {A} (xs : list A) (body : A -> M unit) : M unit :=
  match xs with
  | [] => ret tt
  | x :: xs' => body x ;; for_of xs' body
  end.

(** ** The converter: loading *)

Section Converter.
Context {runtime : Runtime} {schemas : TlvSchemas}.

(** Each regular expression of the list is anchored at both ends and has no
    flag, so [pattern.test(key)] compares [key] with one or two literals. *)
Definition IGNORED_KEY_PATTERNS : list (string -> bool) :=
  [ fun key => (key =? "g/fs/c") || (key =? "g/fs/n");
    fun key => key =? "g/gdc";
    fun key => key =? "g/gcc";
    fun key => key =? "g/gfl";
    fun key => key =? "g/icdfl" ].

Definition decodeEntry (base64 : string) : DecodedEntry :=
  {| raw := Buffer_from_base64 base64; base64 := base64 |}.

Definition isIgnoredKey (key : string) : bool :=
  existsb (fun pattern => pattern key) IGNORED_KEY_PATTERNS.

(** The object a fresh fabric index gets. *)
Definition new_FabricData (index : N) : Fabric.FabricData :=
  {| Fabric.index := index;
     Fabric.noc := None; Fabric.icac := None; Fabric.rcac := None;
     Fabric.metadata := None; Fabric.metadataDecoded := None;
     Fabric.keys := JsMap.empty; Fabric.keysDecoded := JsMap.empty;
     Fabric.sessions := JsMap.empty; Fabric.sessionsDecoded := JsMap.empty;
     Fabric.resumptions := JsMap.empty;
     Fabric.resumptionsDecoded := JsMap.empty;
     Fabric.other := JsMap.empty |}.

(** A reference to a fabric object is the key under which [this.fabrics]
    holds it: the objects are created by [getOrCreateFabric] alone and never
    leave the map while keys are parsed. *)
Definition fabric_ref := N.

Definition getOrCreateFabric (index : N) : M fabric_ref :=
  fabric <- gets (fun st => JsMap.get (fabrics st) index) ;;
  match fabric with
  | Some _ => ret index
  | None =>
      modify (fun st =>
        with_fabrics (JsMap.set (fabrics st) index (new_FabricData index)) st) ;;
      ret index
  end.

(** An assignment through the reference [fabric]. *)
Definition mutate (fabric : fabric_ref)
  (assign : Fabric.FabricData -> Fabric.FabricData) : M unit :=
  modify (fun st =>
    match JsMap.get (fabrics st) fabric with
    | Some f => with_fabrics (JsMap.set (fabrics st) fabric (assign f)) st
    | None => st
    end).

Definition parseFabricKey (key value : string) : M unit :=
  match Js.match_fabric_key key with
  | None => ret tt
  | Some (match1, subKey) =>
      let fabricIndex := Js.parseInt16 match1 in
      fabric <- getOrCreateFabric fabricIndex ;;
      let entry := decodeEntry value in
      if subKey =? "n" then mutate fabric (Fabric.set_noc entry)
      else if subKey =? "i" then mutate fabric (Fabric.set_icac entry)
      else if subKey =? "r" then mutate fabric (Fabric.set_rcac entry)
      else if subKey =? "m" then
        mutate fabric (Fabric.set_metadata entry) ;;
        try_catch
          (decoded <- lift (TlvFabricMetadata_decode (raw entry)) ;;
           mutate fabric (Fabric.set_metadataDecoded decoded))
          (fun _ => ret tt)
      else if Js.startsWith subKey "k/" then
        let keyIndex := Js.parseInt10 (Js.slice 2 subKey) in
        mutate fabric (Fabric.keys_set keyIndex entry) ;;
        try_catch
          (decoded <- lift (TlvGroupKeySet_decode (raw entry)) ;;
           mutate fabric (Fabric.keysDecoded_set keyIndex decoded))
          (fun _ => ret tt)
      else if Js.startsWith subKey "s/" then
        let nodeHex := Js.slice 2 subKey in
        mutate fabric (Fabric.sessions_set nodeHex entry) ;;
        try_catch
          (decoded <- lift (TlvSessionResumptionDetails_decode (raw entry)) ;;
           mutate fabric (Fabric.sessionsDecoded_set nodeHex decoded))
          (fun _ => ret tt)
      else mutate fabric (Fabric.other_set subKey entry)
  end.

Definition parseGlobalKey (key value : string) : M unit :=
  let entry := decodeEntry value in
  if key =? "g/fidx" then
    modify (fun st => with_globals (set_fabricIndexList entry (globals st)) st) ;;
    try_catch
      (decoded <- lift (TlvFabricIndexList_decode (raw entry)) ;;
       modify (fun st =>
         with_globals (set_fabricIndexListDecoded decoded (globals st)) st))
      (fun _ => ret tt)
  else if key =? "g/lkgt" then
    modify (fun st => with_globals (set_lastKnownGoodTime entry (globals st)) st) ;;
    try_catch
      (decoded <- lift (TlvLastKnownGoodTime_decode (raw entry)) ;;
       modify (fun st =>
         with_globals (set_lastKnownGoodTimeDecoded decoded (globals st)) st))
      (fun _ => ret tt)
  else if key =? "g/sri" then
    modify (fun st => with_sessions (set_resumptionIndex entry (sessions st)) st) ;;
    try_catch
      (decoded <- lift (TlvSessionResumptionIndex_decode (raw entry)) ;;
       modify (fun st =>
         with_sessions (set_resumptionIndexDecoded decoded (sessions st)) st))
      (fun _ => ret tt)
  else if Js.startsWith key "g/s/" then
    let resumptionId := Js.slice 4 key in
    try_catch
      (decoded <- lift (TlvSessionResumptionEntry_decode (raw entry)) ;;
       fabric <- getOrCreateFabric (Tlv.fabricIndex decoded) ;;
       mutate fabric (Fabric.resumptions_set resumptionId entry) ;;
       mutate fabric (Fabric.resumptionsDecoded_set resumptionId decoded))
      (fun _ =>
         modify (fun st => with_generic (JsMap.set (generic st) key value) st))
  else ret tt.

(** The body of the loop over [Object.entries(sdkConfig)]. *)
Definition load_entry (kv : string * string) : M unit :=
  let '(key, value) := kv in
  if isIgnoredKey key then
    modify (fun st => with_ignored (JsMap.set (ignored st) key value) st)
  else if Js.startsWith key "f/" then parseFabricKey key value
  else if Js.startsWith key "g/" then parseGlobalKey key value
  else modify (fun st => with_generic (JsMap.set (generic st) key value) st).

(** "Clear existing data": the assignments between [JSON.parse] and the
    reading of [repl-config]. *)
Definition clear (st : ChipConfigData) : ChipConfigData :=
  {| fabrics := JsMap.empty;
     sessions := {| resumptionIndex := None; resumptionIndexDecoded := None |};
     globals := {| fabricIndexList := None; fabricIndexListDecoded := None;
                   lastKnownGoodTime := None;
                   lastKnownGoodTimeDecoded := None |};
     ignored := JsMap.empty;
     generic := JsMap.empty;
     replConfig := replConfig st |}.

(** Reading a member of [data]: a [TypeError] when [data] is [null]. *)
Definition members (data : parsed) : M ChipConfigFile :=
  match data with
  | ParsedFile file => ret file
  | ParsedNull =>
      lift (Throw (JsError "Cannot read properties of null"))
  end.

(** [load] from the point where [data] is known. *)
Definition load_parsed (data : parsed) : M unit :=
  modify clear ;;
  file <- members data ;;
  modify (with_replConfig
            (match repl_config file with
             | Some r => r
             | None => JObject JsMap.empty
             end)) ;;
  let sdkConfig :=
    match sdk_config file with Some o => o | None => JsMap.empty end in
  for_of sdkConfig load_entry.

Definition load (filePath : string) : M unit :=
  content <- lift (readFile filePath) ;;
  data <- lift (JSON_parse content) ;;
  load_parsed data.

(** ** The converter: saving *)

(** [sdkConfig[key] = value] on each entry of a [Map], in its order. *)
Definition assign_all {K V} (name : K -> string) (value : V -> string)
  (m : JsMap.t K V) (sdkConfig : JsMap.t string string)
  : JsMap.t string string :=
  fold_left (fun o kv => Js.object_set o (name (fst kv)) (value (snd kv)))
            m sdkConfig.

Definition assign_if (key : string) (entry : option DecodedEntry)
  (sdkConfig : JsMap.t string string) : JsMap.t string string :=
  match entry with
  | Some e => Js.object_set sdkConfig key (base64 e)
  | None => sdkConfig
  end.

(** The body of the loop over [this.fabrics]. *)
Definition save_fabric (sdkConfig : JsMap.t string string)
  (kv : N * Fabric.FabricData) : JsMap.t string string :=
  let '(fabricIndex, fabric) := kv in
  let prefix := "f/" ++ Js.N_toString fabricIndex in
  let o := assign_if (prefix ++ "/n") (Fabric.noc fabric) sdkConfig in
  let o := assign_if (prefix ++ "/i") (Fabric.icac fabric) o in
  let o := assign_if (prefix ++ "/r") (Fabric.rcac fabric) o in
  let o := assign_if (prefix ++ "/m") (Fabric.metadata fabric) o in
  let o := assign_all (fun keyIndex => prefix ++ "/k/" ++ Js.jsnum_toString keyIndex)
                      base64 (Fabric.keys fabric) o in
  let o := assign_all (fun nodeHex => prefix ++ "/s/" ++ nodeHex)
                      base64 (Fabric.sessions fabric) o in
  let o := assign_all (fun resumptionId => "g/s/" ++ resumptionId)
                      base64 (Fabric.resumptions fabric) o in
  assign_all (fun subKey => prefix ++ "/" ++ subKey)
             base64 (Fabric.other fabric) o.

(** The object [sdkConfig] that [save] builds. *)
Definition save_sdkConfig (st : ChipConfigData) : JsMap.t string string :=
  let o := assign_if "g/fidx" (fabricIndexList (globals st)) JsMap.empty in
  let o := assign_if "g/lkgt" (lastKnownGoodTime (globals st)) o in
  let o := assign_if "g/sri" (resumptionIndex (sessions st)) o in
  let o := fold_left save_fabric (fabrics st) o in
  let o := assign_all (fun key => key) (fun value => value) (ignored st) o in
  assign_all (fun key => key) (fun value => value) (generic st) o.

(** The object [output] that [save] serializes. *)
Definition save_output (st : ChipConfigData) : ChipConfigFile :=
  {| sdk_config := Some (save_sdkConfig st);
     repl_config :=
       if (0 <? Object_keys_length (replConfig st))%nat
       then Some (replConfig st) else None |}.

Definition save (filePath : string) : M unit :=
  output <- gets save_output ;;
  lift (writeFile filePath (JSON_stringify output)).

(** ** Queries *)

(** Ascending numeric order, as [sort((a, b) => a - b)] leaves an array of
    integers. *)
Fixpoint insert_sorted (x : N) (l : list N) : list N :=
  match l with
  | [] => [x]
  | y :: l' => if (x <=? y)%N then x :: l else y :: insert_sorted x l'
  end.

Definition sort_numeric (l : list N) : list N :=
  fold_right insert_sorted [] l.

Definition getFabricIndices (st : ChipConfigData) : list N :=
  sort_numeric (JsMap.keys (fabrics st)).

Definition getFabric (st : ChipConfigData) (index : N)
  : option Fabric.FabricData :=
  JsMap.get (fabrics st) index.

End Converter.

(** ** Certificates *)

(** The certificate classes of [@matter/protocol], as far as the converter
    uses them.  [fromTlv] and [verify] return or throw; the members of
    [cert.subject] may be undefined.  The crypto provider that [verify] takes
    is made afresh by every call of [verifyCertificateChain] and is left
    out. *)
Class CertLib := {
  Rcac : Type;
  Icac : Type;
  Noc : Type;
  Rcac_fromTlv : bytes -> result Rcac;
  Icac_fromTlv : bytes -> result Icac;
  Noc_fromTlv : bytes -> result Noc;
  Rcac_verify : Rcac -> result unit;
  Icac_verify : Icac -> Rcac -> result unit;
  Noc_verify : Noc -> Rcac -> option Icac -> result unit;
  Rcac_subject_rcacId : Rcac -> option N;
  Rcac_ellipticCurvePublicKey : Rcac -> bytes;
  Noc_subject_nodeId : Noc -> option N;
  Noc_subject_fabricId : Noc -> option N
}.

(** The calls into the certificate library, to tell which steps ran. *)
Inductive CertCall : Type :=
| DecodeRcac
| DecodeIcac
| DecodeNoc
| VerifyRcac
| VerifyIcac
| VerifyNoc.

(** A value with the calls made to compute it, oldest first. *)
Definition Traced (A : Type) : Type := list CertCall * A.

Definition traced_ret {A} (a : A) : Traced A := ([], a).

Definition traced_bind {A B} (m : Traced A) (k : A -> Traced B) : Traced B :=
  let '(t1, a) := m in
  let '(t2, b) := k a in
  ((t1 ++ t2)%list, b).

Definition call {A} (c : CertCall) (a : A) : Traced A := ([c], a).

Notation "x <~ m ;; k" := (traced_bind m (fun x => k))
  (at level 61, m at next level, right associativity).

Record CertificateVerificationResult := {
  valid : bool;
  rcacValid : option bool;
  icacValid : option bool;
  nocValid : option bool;
  error : option string
}.

Definition set_valid (b : bool) (r : CertificateVerificationResult) :=
  {| valid := b; rcacValid := rcacValid r; icacValid := icacValid r;
     nocValid := nocValid r; error := error r |}.

Definition set_rcacValid (b : bool) (r : CertificateVerificationResult) :=
  {| valid := valid r; rcacValid := Some b; icacValid := icacValid r;
     nocValid := nocValid r; error := error r |}.

Definition set_icacValid (b : bool) (r : CertificateVerificationResult) :=
  {| valid := valid r; rcacValid := rcacValid r; icacValid := Some b;
     nocValid := nocValid r; error := error r |}.

Definition set_nocValid (b : bool) (r : CertificateVerificationResult) :=
  {| valid := valid r; rcacValid := rcacValid r; icacValid := icacValid r;
     nocValid := Some b; error := error r |}.

(** [{ ...result, error: message }]. *)
Definition with_error (message : string) (r : CertificateVerificationResult) :=
  {| valid := valid r; rcacValid := rcacValid r; icacValid := icacValid r;
     nocValid := nocValid r; error := Some message |}.

(** [e instanceof Error ? e.message : String(e)]. *)
Definition error_text (e : thrown) : string :=
  match e with
  | JsError message => message
  | JsValue text => text
  end.

Module FabricConfig.

Record FabricConfigData := {
  fabricIndex : N;
  fabricId : N;
  nodeId : N;
  rootNodeId : N;
  rootVendorId : N;
  rootCert : bytes;
  rootPublicKey : bytes;
  identityProtectionKey : bytes;
  intermediateCACert : option bytes;
  operationalCert : bytes;
  label : string
}.

End FabricConfig.

Section Certificates.
Context {certs : CertLib}.

(** [try { return X.fromTlv(raw) } catch { return undefined }]. *)
Definition decode_or_undefined {C} (c : CertCall) (fromTlv : bytes -> result C)
  (entry : option DecodedEntry) : Traced (option C) :=
  match entry with
  | None => traced_ret None
  | Some e =>
      r <~ call c (fromTlv (raw e)) ;;
      match r with
      | Ok cert => traced_ret (Some cert)
      | Throw _ => traced_ret None
      end
  end.

(** [fabric?.x]: undefined without the fabric. *)
Definition optional_chain (st : ChipConfigData) (fabricIndex : N)
  (field : Fabric.FabricData -> option DecodedEntry) : option DecodedEntry :=
  match JsMap.get (fabrics st) fabricIndex with
  | Some fabric => field fabric
  | None => None
  end.

Definition getRcac (st : ChipConfigData) (fabricIndex : N)
  : Traced (option Rcac) :=
  decode_or_undefined DecodeRcac Rcac_fromTlv
    (optional_chain st fabricIndex Fabric.rcac).

Definition getIcac (st : ChipConfigData) (fabricIndex : N)
  : Traced (option Icac) :=
  decode_or_undefined DecodeIcac Icac_fromTlv
    (optional_chain st fabricIndex Fabric.icac).

Definition getNoc (st : ChipConfigData) (fabricIndex : N)
  : Traced (option Noc) :=
  decode_or_undefined DecodeNoc Noc_fromTlv
    (optional_chain st fabricIndex Fabric.noc).

Definition verifyCertificateChain (st : ChipConfigData) (fabricIndex : N)
  : Traced CertificateVerificationResult :=
  let result :=
    {| valid := false; rcacValid := None; icacValid := None;
       nocValid := None; error := None |} in
  rcac <~ getRcac st fabricIndex ;;
  match rcac with
  | None => traced_ret (with_error "RCAC not found or invalid" result)
  | Some rcac =>
  icac <~ getIcac st fabricIndex ;;
  noc <~ getNoc st fabricIndex ;;
  match noc with
  | None => traced_ret (with_error "NOC not found or invalid" result)
  | Some noc =>
  r <~ call VerifyRcac (Rcac_verify rcac) ;;
  match r with
  | Throw e =>
      let result := set_rcacValid false result in
      traced_ret
        (with_error ("RCAC verification failed: " ++ error_text e) result)
  | Ok _ =>
  let result := set_rcacValid true result in
  step <~
    match icac with
    | Some icac =>
        r <~ call VerifyIcac (Icac_verify icac rcac) ;;
        match r with
        | Throw e =>
            let result := set_icacValid false result in
            traced_ret (inl
              (with_error ("ICAC verification failed: " ++ error_text e) result))
        | Ok _ => traced_ret (inr (set_icacValid true result))
        end
    | None => traced_ret (inr result)
    end ;;
  match step with
  | inl returned => traced_ret returned
  | inr result =>
  r <~ call VerifyNoc (Noc_verify noc rcac icac) ;;
  match r with
  | Throw e =>
      let result := set_nocValid false result in
      traced_ret
        (with_error ("NOC verification failed: " ++ error_text e) result)
  | Ok _ =>
  let result := set_nocValid true result in
  traced_ret (set_valid true result)
  end end end end end.

(** [ipkKeySet.keys.find(k => k.key.byteLength === 16)]. *)
Definition find_ipk (keys : list Tlv.GroupKeyEntry) : option Tlv.GroupKeyEntry :=
  find (fun k => (length (Tlv.key k) =? 16)%nat) keys.

Definition getFabricConfig (st : ChipConfigData) (fabricIndex : N)
  : option FabricConfig.FabricConfigData :=
  match JsMap.get (fabrics st) fabricIndex with
  | None => None
  | Some fabric =>
  let rcac := snd (getRcac st fabricIndex) in
  let noc := snd (getNoc st fabricIndex) in
  match rcac, noc with
  | Some rcac, Some noc =>
  match Fabric.rcac fabric, Fabric.noc fabric with
  | Some fabric_rcac, Some fabric_noc =>
  match Noc_subject_nodeId noc, Noc_subject_fabricId noc with
  | Some nodeId, Some fabricId =>
  match Rcac_subject_rcacId rcac with
  | None => None
  | Some rcacId =>
  match Fabric.metadataDecoded fabric with
  | None => None
  | Some metadataDecoded =>
  let vendorId := Tlv.vendorId metadataDecoded in
  let label := Tlv.label metadataDecoded in
  match JsMap.get (Fabric.keysDecoded fabric) (Int 0) with
  | None => None
  | Some ipkKeySet =>
  if (length (Tlv.keys ipkKeySet) =? 0)%nat then None else
  match find_ipk (Tlv.keys ipkKeySet) with
  | None => None
  | Some ipkEntry =>
      Some {| FabricConfig.fabricIndex := fabricIndex;
              FabricConfig.fabricId := fabricId;
              FabricConfig.nodeId := nodeId;
              FabricConfig.rootNodeId := rcacId;
              FabricConfig.rootVendorId := vendorId;
              FabricConfig.rootCert := raw fabric_rcac;
              FabricConfig.rootPublicKey := Rcac_ellipticCurvePublicKey rcac;
              FabricConfig.identityProtectionKey := Tlv.key ipkEntry;
              FabricConfig.intermediateCACert :=
                option_map raw (Fabric.icac fabric);
              FabricConfig.operationalCert := raw fabric_noc;
              FabricConfig.label := label |}
  end end end end
  | _, _ => None
  end
  | _, _ => None
  end
  | _, _ => None
  end end.

End Certificates.

(** ** A runtime to compute with

    Instances of the three interfaces, small but concrete, for the examples
    below: standard base64, the TLV layout of the two records the examples
    use, and certificates whose first byte tells how they behave. *)

Module Sample.

Definition base64_value (c : ascii) : option N :=
  if Js.in_range 65 90 c then Some (Js.code c - 65)%N
  else if Js.in_range 97 122 c then Some (Js.code c - 71)%N
  else if Js.in_range 48 57 c then Some (Js.code c + 4)%N
  else if (Js.code c =? 43)%N then Some 62%N
  else if (Js.code c =? 47)%N then Some 63%N
  else None.

Fixpoint sextets (s : string) : list N :=
  match s with
  | EmptyString => []
  | String c r =>
      if (Js.code c =? 61)%N then []
      else match base64_value c with
           | Some v => v :: sextets r
           | None => sextets r
           end
  end.

Definition byte_of (n : N) : Byte.byte :=
  match Byte.of_N (n mod 256) with Some b => b | None => Byte.x00 end.

Fixpoint pack (l : list N) : bytes :=
  match l with
  | a :: b :: c :: d :: r =>
      byte_of (a * 4 + b / 16) :: byte_of (b * 16 + c / 4)
        :: byte_of (c * 64 + d) :: pack r
  | [a; b; c] => [byte_of (a * 4 + b / 16); byte_of (b * 16 + c / 4)]
  | [a; b] => [byte_of (a * 4 + b / 16)]
  | _ => []
  end.

Definition decode_base64 (s : string) : bytes := pack (sextets s).

Definition malformed {A} : result A := Throw (JsError "Unexpected TLV element").

(** Structure, context tag 1 as uint8, context tag 2 as uint8, end. *)
Definition decode_SessionResumptionEntry (b : bytes)
  : result Tlv.SessionResumptionEntry :=
  match map Byte.to_N b with
  | [21; 36; 1; f; 36; 2; p; 24]%N =>
      Ok {| Tlv.fabricIndex := f; Tlv.peerNodeId := p |}
  | _ => malformed
  end.

(** Structure, context tag 0 as uint16, context tag 1 as an empty string,
    end. *)
Definition decode_FabricMetadata (b : bytes) : result Tlv.FabricMetadata :=
  match map Byte.to_N b with
  | [21; 37; 0; lo; hi; 44; 1; 0; 24]%N =>
      Ok {| Tlv.vendorId := lo + 256 * hi; Tlv.label := "" |}
  | _ => malformed
  end.

(** A key set of one structure byte per key length: [n] stands for an entry
    with a key of [n] zero bytes. *)
Definition decode_GroupKeySet (b : bytes) : result Tlv.GroupKeySet :=
  match map Byte.to_N b with
  | 21%N :: lens =>
      Ok {| Tlv.policy := 0; Tlv.keyCount := 1;
            Tlv.keys :=
              map (fun n => {| Tlv.key := repeat Byte.x00 (N.to_nat n) |}) lens;
            Tlv.groupKeySetId := 65535 |}
  | _ => malformed
  end.

#[export] Instance schemas : TlvSchemas := {|
  TlvFabricMetadata_decode := decode_FabricMetadata;
  TlvGroupKeySet_decode := decode_GroupKeySet;
  TlvFabricIndexList_decode := fun _ => malformed;
  TlvLastKnownGoodTime_decode := fun _ => malformed;
  TlvSessionResumptionDetails_decode := fun _ => malformed;
  TlvSessionResumptionEntry_decode := decode_SessionResumptionEntry;
  TlvSessionResumptionIndex_decode := fun _ => malformed
|}.

(** A disk with two files: [chip.json] holds [file], [broken.json] holds
    text that is no JSON; nothing else can be read. *)
Definition runtime_with (file : parsed) : Runtime := {|
  Buffer_from_base64 := decode_base64;
  readFile := fun path =>
    if path =? "chip.json" then Ok "<chip.json>"
    else if path =? "broken.json" then Ok "{ sdk-config"
    else Throw (JsError "ENOENT: no such file or directory");
  writeFile := fun _ _ => Ok tt;
  JSON_parse := fun content =>
    if content =? "<chip.json>" then Ok file
    else Throw (JsError "Unexpected token s in JSON at position 2");
  JSON_stringify := fun _ => "<chip.json>"
|}.

#[export] Instance runtime : Runtime := runtime_with ParsedNull.

(** Certificates are their bytes.  Byte 0: 1 decodes and verifies, 2 decodes
    and fails verification, anything else does not decode.  Byte 1, when
    there is one, is the identifier in the subject. *)
Definition fromTlv (b : bytes) : result bytes :=
  match b with
  | Byte.x01 :: _ | Byte.x02 :: _ => Ok b
  | _ => Throw (JsError "Invalid certificate")
  end.

Definition verify (c : bytes) : result unit :=
  match c with
  | Byte.x01 :: _ => Ok tt
  | _ => Throw (JsError "Invalid signature")
  end.

Definition subject_id (c : bytes) : option N :=
  match c with
  | _ :: id :: _ => Some (Byte.to_N id)
  | _ => None
  end.

#[export] Instance certs : CertLib := {|
  Rcac := bytes; Icac := bytes; Noc := bytes;
  Rcac_fromTlv := fromTlv; Icac_fromTlv := fromTlv; Noc_fromTlv := fromTlv;
  Rcac_verify := verify;
  Icac_verify := fun icac _ => verify icac;
  Noc_verify := fun noc _ _ => verify noc;
  Rcac_subject_rcacId := subject_id;
  Rcac_ellipticCurvePublicKey := fun c => skipn 2 c;
  Noc_subject_nodeId := subject_id;
  Noc_subject_fabricId := subject_id
|}.

(** The files of the examples, as [JSON.parse] returns them. *)
Definition file_of (entries : JsMap.t string string) : parsed :=
  ParsedFile {| sdk_config := Some entries; repl_config := None |}.

Definition hex_indices : JsMap.t string string :=
  [("f/3/n", "dGVzdA=="); ("f/1/n", "dGVzdA==");
   ("f/A/n", "dGVzdA=="); ("f/2/n", "dGVzdA==")].

(** One resumption entry that decodes (fabric 1, peer node 112) and one
    whose payload is no TLV. *)
Definition resumption_entries : JsMap.t string string :=
  [("g/s/resumption1", "FSQBASQCcBg="); ("g/s/bad", "aW52YWxpZA==")].

(** A resumption entry whose payload is no TLV, and fabric metadata whose
    payload is none either. *)
Definition bad_resumption : JsMap.t string string :=
  [("g/s/bad", "aW52YWxpZA==")].

Definition bad_metadata : JsMap.t string string :=
  [("f/1/m", "aW52YWxpZA==")].

(** A file with one key under fabric index [A], and a file with a global
    key of no known tag and a fabric key whose index is not hexadecimal. *)
Definition hex_fabric (value : string) : ChipConfigFile :=
  {| sdk_config := Some [("f/A/n", value)]; repl_config := None |}.

Definition unknown_keys (value : string) : ChipConfigFile :=
  {| sdk_config := Some [("g/xyz", value); ("f/zz/n", value)];
     repl_config := None |}.

(** Two keys for the metadata of fabric 1: the first payload decodes
    (vendor 4939, empty label), the second is no TLV. *)
Definition aliased_metadata : JsMap.t string string :=
  [("f/1/m", "FSUASxMsAQAY"); ("f/01/m", "aW52YWxpZA==")].

(** A state holding one fabric, index 1, with the given certificates. *)
Definition entry_of (b : bytes) : DecodedEntry := {| raw := b; base64 := "" |}.

Definition fabric_with (noc icac rcac : option bytes) : Fabric.FabricData :=
  {| Fabric.index := 1;
     Fabric.noc := option_map entry_of noc;
     Fabric.icac := option_map entry_of icac;
     Fabric.rcac := option_map entry_of rcac;
     Fabric.metadata := None; Fabric.metadataDecoded := None;
     Fabric.keys := JsMap.empty; Fabric.keysDecoded := JsMap.empty;
     Fabric.sessions := JsMap.empty; Fabric.sessionsDecoded := JsMap.empty;
     Fabric.resumptions := JsMap.empty;
     Fabric.resumptionsDecoded := JsMap.empty;
     Fabric.other := JsMap.empty |}.

Definition state_with (noc icac rcac : option bytes) : ChipConfigData :=
  with_fabrics [(1%N, fabric_with noc icac rcac)] new_ChipConfigData.

End Sample.

(** ** The slot a key addresses

    The routing of [parseFabricKey], read as a function: which field of
    which fabric a key writes.  Two keys of one file can share a slot
    ([f/1/m] and [f/01/m] both address the metadata of fabric 1). *)

Inductive field : Type :=
| FNoc
| FIcac
| FRcac
| FMetadata
| FKey (keyIndex : jsnum)
| FSession (nodeHex : string)
| FOther (subKey : string).

Definition field_of (subKey : string) : field :=
  if subKey =? "n" then FNoc
  else if subKey =? "i" then FIcac
  else if subKey =? "r" then FRcac
  else if subKey =? "m" then FMetadata
  else if Js.startsWith subKey "k/" then FKey (Js.parseInt10 (Js.slice 2 subKey))
  else if Js.startsWith subKey "s/" then FSession (Js.slice 2 subKey)
  else FOther subKey.

Definition fabric_slot (key : string) : option (N * field) :=
  match Js.match_fabric_key key with
  | Some (match1, subKey) => Some (Js.parseInt16 match1, field_of subKey)
  | None => None
  end.

(** The entry a fabric holds in a field, and whether the decoded companion
    of that field is set. *)
Definition stored (fabric : Fabric.FabricData) (fd : field)
  : option DecodedEntry :=
  match fd with
  | FNoc => Fabric.noc fabric
  | FIcac => Fabric.icac fabric
  | FRcac => Fabric.rcac fabric
  | FMetadata => Fabric.metadata fabric
  | FKey i => JsMap.get (Fabric.keys fabric) i
  | FSession n => JsMap.get (Fabric.sessions fabric) n
  | FOther k => JsMap.get (Fabric.other fabric) k
  end.

Definition decoded_is_set (fabric : Fabric.FabricData) (fd : field) : bool :=
  match fd with
  | FMetadata =>
      match Fabric.metadataDecoded fabric with Some _ => true | None => false end
  | FKey i => JsMap.has (Fabric.keysDecoded fabric) i
  | FSession n => JsMap.has (Fabric.sessionsDecoded fabric) n
  | _ => false
  end.

(** Does the decoder that [parseFabricKey] applies to a field throw on these
    bytes?  Certificates and other sub-keys are not decoded at all. *)
Definition decode_throws {schemas : TlvSchemas} (fd : field) (b : bytes) : bool :=
  match fd with
  | FMetadata =>
      match TlvFabricMetadata_decode b with Ok _ => false | Throw _ => true end
  | FKey _ =>
      match TlvGroupKeySet_decode b with Ok _ => false | Throw _ => true end
  | FSession _ =>
      match TlvSessionResumptionDetails_decode b with
      | Ok _ => false
      | Throw _ => true
      end
  | _ => false
  end.

(** ** The loop body as a state transformer

    What one key does to the state, without the monad; the properties of
    [load] are proved on these after showing that [load_entry] computes
    them and never throws. *)

Section Transformers.
Context {runtime : Runtime} {schemas : TlvSchemas}.

Definition fabric_or_new (st : ChipConfigData) (idx : N) : Fabric.FabricData :=
  match JsMap.get (fabrics st) idx with
  | Some fabric => fabric
  | None => new_FabricData idx
  end.

Definition put_fabric (idx : N) (fabric : Fabric.FabricData)
  (st : ChipConfigData) : ChipConfigData :=
  with_fabrics (JsMap.set (fabrics st) idx fabric) st.

Definition write_field (fd : field) (entry : DecodedEntry)
  (fabric : Fabric.FabricData) : Fabric.FabricData :=
  match fd with
  | FNoc => Fabric.set_noc entry fabric
  | FIcac => Fabric.set_icac entry fabric
  | FRcac => Fabric.set_rcac entry fabric
  | FMetadata =>
      let fabric := Fabric.set_metadata entry fabric in
      match TlvFabricMetadata_decode (raw entry) with
      | Ok decoded => Fabric.set_metadataDecoded decoded fabric
      | Throw _ => fabric
      end
  | FKey keyIndex =>
      let fabric := Fabric.keys_set keyIndex entry fabric in
      match TlvGroupKeySet_decode (raw entry) with
      | Ok decoded => Fabric.keysDecoded_set keyIndex decoded fabric
      | Throw _ => fabric
      end
  | FSession nodeHex =>
      let fabric := Fabric.sessions_set nodeHex entry fabric in
      match TlvSessionResumptionDetails_decode (raw entry) with
      | Ok decoded => Fabric.sessionsDecoded_set nodeHex decoded fabric
      | Throw _ => fabric
      end
  | FOther subKey => Fabric.other_set subKey entry fabric
  end.

Definition fabric_key_effect (key value : string) (st : ChipConfigData)
  : ChipConfigData :=
  match fabric_slot key with
  | None => st
  | Some (idx, fd) =>
      put_fabric idx (write_field fd (decodeEntry value) (fabric_or_new st idx)) st
  end.

Definition global_key_effect (key value : string) (st : ChipConfigData)
  : ChipConfigData :=
  let entry := decodeEntry value in
  if key =? "g/fidx" then
    let g := set_fabricIndexList entry (globals st) in
    with_globals
      match TlvFabricIndexList_decode (raw entry) with
      | Ok decoded => set_fabricIndexListDecoded decoded g
      | Throw _ => g
      end st
  else if key =? "g/lkgt" then
    let g := set_lastKnownGoodTime entry (globals st) in
    with_globals
      match TlvLastKnownGoodTime_decode (raw entry) with
      | Ok decoded => set_lastKnownGoodTimeDecoded decoded g
      | Throw _ => g
      end st
  else if key =? "g/sri" then
    let s := set_resumptionIndex entry (sessions st) in
    with_sessions
      match TlvSessionResumptionIndex_decode (raw entry) with
      | Ok decoded => set_resumptionIndexDecoded decoded s
      | Throw _ => s
      end st
  else if Js.startsWith key "g/s/" then
    let resumptionId := Js.slice 4 key in
    match TlvSessionResumptionEntry_decode (raw entry) with
    | Ok decoded =>
        let idx := Tlv.fabricIndex decoded in
        put_fabric idx
          (Fabric.resumptionsDecoded_set resumptionId decoded
             (Fabric.resumptions_set resumptionId entry (fabric_or_new st idx)))
          st
    | Throw _ => with_generic (JsMap.set (generic st) key value) st
    end
  else st.

Definition entry_effect (kv : string * string) (st : ChipConfigData)
  : ChipConfigData :=
  let '(key, value) := kv in
  if isIgnoredKey key then with_ignored (JsMap.set (ignored st) key value) st
  else if Js.startsWith key "f/" then fabric_key_effect key value st
  else if Js.startsWith key "g/" then global_key_effect key value st
  else with_generic (JsMap.set (generic st) key value) st.

Definition entries_effect (entries : JsMap.t string string)
  (st : ChipConfigData) : ChipConfigData :=
  fold_left (fun st kv => entry_effect kv st) entries st.

End Transformers.

(** The fabric that an entry of the file brings into being, if any: the one
    its key names, or for [g/s/<id>] the one its payload names. *)
Definition owner {runtime : Runtime} {schemas : TlvSchemas}
  (kv : string * string) : option N :=
  let '(key, value) := kv in
  if isIgnoredKey key then None
  else if Js.startsWith key "f/" then option_map fst (fabric_slot key)
  else if Js.startsWith key "g/" then
    if (key =? "g/fidx") || (key =? "g/lkgt") || (key =? "g/sri") then None
    else if Js.startsWith key "g/s/" then
      match TlvSessionResumptionEntry_decode (raw (decodeEntry value)) with
      | Ok decoded => Some (Tlv.fabricIndex decoded)
      | Throw _ => None
      end
    else None
  else None.

(** Fabric [idx] holds [e] and [d] under the resumption identifier [rid]. *)
Definition holds_resumption (idx : N) (rid : string) (e : DecodedEntry)
  (d : Tlv.SessionResumptionEntry) (st : ChipConfigData) : Prop :=
  exists fabric,
    JsMap.get (fabrics st) idx = Some fabric /\
    JsMap.get (Fabric.resumptions fabric) rid = Some e /\
    JsMap.get (Fabric.resumptionsDecoded fabric) rid = Some d.

(** What a slot holds: the entry and whether its decoded companion is set.
    A fabric that does not exist yet holds nothing. *)
Definition slot_view (idx : N) (fd : field) (st : ChipConfigData)
  : option DecodedEntry * bool :=
  let fabric := fabric_or_new st idx in
  (stored fabric fd, decoded_is_set fabric fd).

(** Some [DecodedEntry] of the state is [e]. *)
Definition entry_stored (st : ChipConfigData) (e : DecodedEntry) : Prop :=
  fabricIndexList (globals st) = Some e \/
  lastKnownGoodTime (globals st) = Some e \/
  resumptionIndex (sessions st) = Some e \/
  exists idx fabric,
    JsMap.get (fabrics st) idx = Some fabric /\
    ((exists fd, stored fabric fd = Some e) \/
     (exists rid, JsMap.get (Fabric.resumptions fabric) rid = Some e)).

(** The decoder applied to the payload of a fabric-scoped key, respectively
    of a global key, throws. *)
Definition fabric_payload_malformed {schemas : TlvSchemas}
  (key : string) (b : bytes) : Prop :=
  exists idx fd, fabric_slot key = Some (idx, fd) /\ decode_throws fd b = true.

Definition global_payload_malformed {schemas : TlvSchemas}
  (key : string) (b : bytes) : Prop :=
  (key = "g/fidx" /\ exists err, TlvFabricIndexList_decode b = Throw err) \/
  (key = "g/lkgt" /\ exists err, TlvLastKnownGoodTime_decode b = Throw err) \/
  (key = "g/sri" /\ exists err, TlvSessionResumptionIndex_decode b = Throw err) \/
  (exists rid, key = "g/s/" ++ rid /\
               exists err, TlvSessionResumptionEntry_decode b = Throw err).

(** ** Statements of the specification that the code does not meet *)

(** C3 as the specification states it: once the stored RCAC decodes and its
    self-verification fails, the result is the RCAC verification failure,
    whatever the state of the NOC. *)
Definition rcac_failure_short_circuits : Prop :=
  forall (certs : CertLib) (st : ChipConfigData) (idx : N) e rcac err,
    optional_chain st idx Fabric.rcac = Some e ->
    Rcac_fromTlv (raw e) = Ok rcac ->
    Rcac_verify rcac = Throw err ->
    let r := snd (verifyCertificateChain st idx) in
    valid r = false /\ rcacValid r = Some false /\
    error r = Some ("RCAC verification failed: " ++ error_text err).

(** C4 as the specification states it, for a fabric that gets as far as the
    ICAC step (RCAC and NOC decode, the RCAC verifies): ICAC bytes that fail
    to decode, or that decode and fail verification against the RCAC, make
    the result an ICAC verification failure. *)
Definition icac_failure_is_reported : Prop :=
  forall (certs : CertLib) (st : ChipConfigData) (idx : N) e rcac noc,
    snd (getRcac st idx) = Some rcac ->
    snd (getNoc st idx) = Some noc ->
    Rcac_verify rcac = Ok tt ->
    optional_chain st idx Fabric.icac = Some e ->
    (exists err, Icac_fromTlv (raw e) = Throw err) \/
    (exists icac err, Icac_fromTlv (raw e) = Ok icac /\
                      Icac_verify icac rcac = Throw err) ->
    let r := snd (verifyCertificateChain st idx) in
    valid r = false /\ icacValid r = Some false /\
    exists cause, error r = Some ("ICAC verification failed: " ++ cause).

(** C7 as the specification states it, in its part on what is stored: for
    every fabric-scoped or global key of a loaded file whose payload is
    malformed, [load] returns and the state holds the raw bytes together with
    the original base64 string. *)
Definition malformed_payload_keeps_raw : Prop :=
  forall (runtime : Runtime) (schemas : TlvSchemas)
         (filePath content : string) (file : ChipConfigFile)
         (entries : JsMap.t string string) (st : ChipConfigData)
         (key value : string),
    readFile filePath = Ok content ->
    JSON_parse content = Ok (ParsedFile file) ->
    sdk_config file = Some entries ->
    well_formed file ->
    In (key, value) entries ->
    fabric_payload_malformed key (Buffer_from_base64 value) \/
    global_payload_malformed key (Buffer_from_base64 value) ->
    exists st',
      load filePath st = (Ok tt, st') /\ entry_stored st' (decodeEntry value).

From Stdlib Require DecimalN DecimalZ DecimalPos.

(** ** The verdict of the verifier as a function of what the library answers *)

Section Verdict.
Context {certs : CertLib}.

(** The result of [verifyCertificateChain] once the three getters have
    answered: the same steps, without the record of calls. *)
Definition verdict (rcac : option Rcac) (icac : option Icac) (noc : option Noc)
  : CertificateVerificationResult :=
  let result :=
    {| valid := false; rcacValid := None; icacValid := None;
       nocValid := None; error := None |} in
  match rcac with
  | None => with_error "RCAC not found or invalid" result
  | Some rcac =>
  match noc with
  | None => with_error "NOC not found or invalid" result
  | Some noc =>
  match Rcac_verify rcac with
  | Throw e =>
      with_error ("RCAC verification failed: " ++ error_text e)
        (set_rcacValid false result)
  | Ok _ =>
  let result := set_rcacValid true result in
  match
    match icac with
    | Some icac =>
        match Icac_verify icac rcac with
        | Throw e =>
            inl (with_error ("ICAC verification failed: " ++ error_text e)
                   (set_icacValid false result))
        | Ok _ => inr (set_icacValid true result)
        end
    | None => inr result
    end
  with
  | inl returned => returned
  | inr result =>
  match Noc_verify noc rcac icac with
  | Throw e =>
      with_error ("NOC verification failed: " ++ error_text e)
        (set_nocValid false result)
  | Ok _ => set_valid true (set_nocValid true result)
  end end end end end.

End Verdict.

(** The place of a call in the order of the algorithm. *)
Definition call_rank (c : CertCall) : nat :=
  match c with
  | DecodeRcac => 0
  | DecodeIcac => 1
  | DecodeNoc => 2
  | VerifyRcac => 3
  | VerifyIcac => 4
  | VerifyNoc => 5
  end.

Definition before (a b : CertCall) : Prop := (call_rank a < call_rank b)%nat.

(** ** Every place that holds a value of the file

    The routing of [load], read as a function from an entry of the file to
    the place that stores its value, and the way back that [save] takes:
    the key under which it writes the value of a place. *)

Inductive slot : Type :=
| InFabric (idx : N) (fd : field)
| InResumptions (idx : N) (resumptionId : string)
| InFabricIndexList
| InLastKnownGoodTime
| InResumptionIndex
| InIgnored (key : string)
| InGeneric (key : string).

Definition jsnum_eq_dec (a b : jsnum) : {a = b} + {a <> b}.
Proof. decide equality. apply Z.eq_dec. Defined.

Definition field_eq_dec (a b : field) : {a = b} + {a <> b}.
Proof.
  decide equality; try apply string_dec. apply jsnum_eq_dec.
Defined.

Definition slot_eq_dec (a b : slot) : {a = b} + {a <> b}.
Proof.
  decide equality; try apply string_dec; try apply N.eq_dec.
  apply field_eq_dec.
Defined.

Definition routed_to (s : slot) (r : option slot) : bool :=
  match r with
  | Some s' => if slot_eq_dec s' s then true else false
  | None => false
  end.

Section Routing.
Context {runtime : Runtime} {schemas : TlvSchemas}.

(** Where [load] puts an entry: the branches of the loop body, of
    [parseFabricKey] and of [parseGlobalKey]; [None] where they have no
    branch for the key. *)
Definition route (kv : string * string) : option slot :=
  let '(key, value) := kv in
  if isIgnoredKey key then Some (InIgnored key)
  else if Js.startsWith key "f/" then
    match fabric_slot key with
    | Some (idx, fd) => Some (InFabric idx fd)
    | None => None
    end
  else if Js.startsWith key "g/" then
    if key =? "g/fidx" then Some InFabricIndexList
    else if key =? "g/lkgt" then Some InLastKnownGoodTime
    else if key =? "g/sri" then Some InResumptionIndex
    else if Js.startsWith key "g/s/" then
      match TlvSessionResumptionEntry_decode (raw (decodeEntry value)) with
      | Ok decoded =>
          Some (InResumptions (Tlv.fabricIndex decoded) (Js.slice 4 key))
      | Throw _ => Some (InGeneric key)
      end
    else None
  else Some (InGeneric key).

(** The value of the last entry routed to a place. *)
Definition last_routed (s : slot) (entries : JsMap.t string string)
  : option string :=
  fold_left (fun acc kv => if routed_to s (route kv) then Some (snd kv) else acc)
            entries None.

End Routing.

(** The base64 string a place holds. *)
Definition read (st : ChipConfigData) (s : slot) : option string :=
  match s with
  | InFabric idx fd =>
      match JsMap.get (fabrics st) idx with
      | Some fabric => option_map base64 (stored fabric fd)
      | None => None
      end
  | InResumptions idx resumptionId =>
      match JsMap.get (fabrics st) idx with
      | Some fabric =>
          option_map base64 (JsMap.get (Fabric.resumptions fabric) resumptionId)
      | None => None
      end
  | InFabricIndexList => option_map base64 (fabricIndexList (globals st))
  | InLastKnownGoodTime => option_map base64 (lastKnownGoodTime (globals st))
  | InResumptionIndex => option_map base64 (resumptionIndex (sessions st))
  | InIgnored key => JsMap.get (ignored st) key
  | InGeneric key => JsMap.get (generic st) key
  end.

(** The key under which [save] writes the value of a place. *)
Definition field_name (fd : field) : string :=
  match fd with
  | FNoc => "n"
  | FIcac => "i"
  | FRcac => "r"
  | FMetadata => "m"
  | FKey keyIndex => "k/" ++ Js.jsnum_toString keyIndex
  | FSession nodeHex => "s/" ++ nodeHex
  | FOther subKey => subKey
  end.

Definition saved_key (s : slot) : string :=
  match s with
  | InFabric idx fd => "f/" ++ Js.N_toString idx ++ "/" ++ field_name fd
  | InResumptions _ resumptionId => "g/s/" ++ resumptionId
  | InFabricIndexList => "g/fidx"
  | InLastKnownGoodTime => "g/lkgt"
  | InResumptionIndex => "g/sri"
  | InIgnored key => key
  | InGeneric key => key
  end.

(** The assignments [save] makes to [sdkConfig], in their order. *)
Definition emit (key : string) (entry : option DecodedEntry)
  : list (string * string) :=
  match entry with
  | Some e => [(key, base64 e)]
  | None => []
  end.

Definition emit_all {K} (name : K -> string) (m : JsMap.t K DecodedEntry)
  : list (string * string) :=
  map (fun kv => (name (fst kv), base64 (snd kv))) m.

Definition fabric_emitted (kv : N * Fabric.FabricData)
  : list (string * string) :=
  let '(fabricIndex, fabric) := kv in
  let prefix := "f/" ++ Js.N_toString fabricIndex in
  concat
    [ emit (prefix ++ "/n") (Fabric.noc fabric);
      emit (prefix ++ "/i") (Fabric.icac fabric);
      emit (prefix ++ "/r") (Fabric.rcac fabric);
      emit (prefix ++ "/m") (Fabric.metadata fabric);
      emit_all (fun keyIndex => prefix ++ "/k/" ++ Js.jsnum_toString keyIndex)
               (Fabric.keys fabric);
      emit_all (fun nodeHex => prefix ++ "/s/" ++ nodeHex)
               (Fabric.sessions fabric);
      emit_all (fun resumptionId => "g/s/" ++ resumptionId)
               (Fabric.resumptions fabric);
      emit_all (fun subKey => prefix ++ "/" ++ subKey) (Fabric.other fabric) ].

Definition emitted (st : ChipConfigData) : list (string * string) :=
  concat
    [ emit "g/fidx" (fabricIndexList (globals st));
      emit "g/lkgt" (lastKnownGoodTime (globals st));
      emit "g/sri" (resumptionIndex (sessions st));
      flat_map fabric_emitted (fabrics st);
      ignored st;
      generic st ].

Definition assign (o : JsMap.t string string) (kv : string * string)
  : JsMap.t string string :=
  Js.object_set o (fst kv) (snd kv).

(** Every [Map] of the state has distinct keys, as a [Map] does. *)
Definition maps_of_fabric (fabric : Fabric.FabricData) : Prop :=
  NoDup (JsMap.keys (Fabric.keys fabric)) /\
  NoDup (JsMap.keys (Fabric.sessions fabric)) /\
  NoDup (JsMap.keys (Fabric.resumptions fabric)) /\
  NoDup (JsMap.keys (Fabric.other fabric)).

Definition maps_of_state (st : ChipConfigData) : Prop :=
  NoDup (JsMap.keys (fabrics st)) /\
  (forall idx fabric, In (idx, fabric) (fabrics st) -> maps_of_fabric fabric) /\
  NoDup (JsMap.keys (ignored st)) /\
  NoDup (JsMap.keys (generic st)).

(** The places whose numbers are in the range where the model's numbers are
    those of the code: the index of the fabric and the index of a key set
    are safe integers. *)
Definition field_in_range (fd : field) : bool :=
  match fd with
  | FKey keyIndex => Js.safe_jsnum keyIndex
  | _ => true
  end.

Definition slot_in_range (s : slot) : bool :=
  match s with
  | InFabric idx fd => Js.safe_N idx && field_in_range fd
  | InResumptions idx _ => Js.safe_N idx
  | _ => true
  end.

(** Every place of the state that holds a value is in range. *)
Definition places_in_range (st : ChipConfigData) : Prop :=
  forall s v, read st s = Some v -> slot_in_range s = true.

(** An entry of the file whose numbers are in range. *)
Definition entry_in_range {runtime : Runtime} {schemas : TlvSchemas}
  (kv : string * string) : bool :=
  match route kv with
  | Some s => slot_in_range s
  | None => true
  end.

(** An entry of the file that [load] stores in a place and [save] writes
    back under the key it came with: its numbers are in range, the key of
    the place is the key of the entry, and the key is not the one name that
    an assignment to a plain object does not create. *)
Definition canonical {runtime : Runtime} {schemas : TlvSchemas}
  (kv : string * string) : bool :=
  match route kv with
  | Some s =>
      slot_in_range s && (saved_key s =? fst kv) &&
      negb (fst kv =? "__proto__")
  | None => false
  end.

(** Where a character stands in an alphabet, counted from 0. *)
Fixpoint position (c : ascii) (alphabet : string) : option N :=
  match alphabet with
  | EmptyString => None
  | String d rest =>
      if Ascii.eqb c d then Some 0%N else option_map N.succ (position c rest)
  end.

(** The value of a hexadecimal digit is its position among the sixteen
    digits, in lower or in upper case. *)
Definition hexadecimal_digit (c : ascii) : option N :=
  match position c "0123456789abcdef" with
  | Some n => Some n
  | None => position c "0123456789ABCDEF"
  end.

(** The number that a string of hexadecimal digits stands for, by the place
    value of its digits: the reading of "hexadecimal" that [Js.parseInt16]
    is compared with. *)
Fixpoint hexadecimal_value (s : string) : option N :=
  match s with
  | EmptyString => Some 0%N
  | String c r =>
      match hexadecimal_digit c, hexadecimal_value r with
      | Some d, Some v => Some (d * 16 ^ N.of_nat (String.length r) + v)%N
      | _, _ => None
      end
  end.

(** The state [load] makes of a parsed file, whatever the state before. *)
Definition loaded {runtime : Runtime} {schemas : TlvSchemas}
  (file : ChipConfigFile) (st : ChipConfigData) : ChipConfigData :=
  snd (load_parsed (ParsedFile file) st).

(** The data of the round-trip test of [ChipConfigDataTest]. *)
Module TestData.

Definition round_trip : JsMap.t string string :=
  [ ("g/fidx", "RmFicmljSW5kZXg=");
    ("g/lkgt", "TGFzdEtub3duR29vZFRpbWU=");
    ("g/sri", "U2Vzc2lvblJlc3VtcHRpb24=");
    ("g/s/resumption1", "FSQBASQCcBg=");
    ("f/1/n", "SGVsbG8gTk9D");
    ("f/1/i", "SGVsbG8gSUNBQw==");
    ("f/1/r", "SGVsbG8gUkNBQw==");
    ("f/1/m", "TWV0YWRhdGE=");
    ("f/1/k/0", "SVBL");
    ("f/1/s/0000000000000070", "U2Vzc2lvbjcw");
    ("g/gdc", "Y291bnRlcg==");
    ("ExampleKey", "ZXhhbXBsZQ==") ].

Definition round_trip_file : ChipConfigFile :=
  {| sdk_config := Some round_trip;
     repl_config := Some (JObject [("test", {| json_text := "value" |})]) |}.

End TestData.

(** The number a string of decimal digits stands for when it is read in
    base [b], from the accumulator [acc] on: [parseInt] in base 16 and the
    decimal value of the digits are both of this form. *)
Fixpoint uint_in (b acc : N) (d : Decimal.uint) : N :=
  match d with
  | Decimal.Nil => acc
  | Decimal.D0 d => uint_in b (b * acc) d
  | Decimal.D1 d => uint_in b (b * acc + 1) d
  | Decimal.D2 d => uint_in b (b * acc + 2) d
  | Decimal.D3 d => uint_in b (b * acc + 3) d
  | Decimal.D4 d => uint_in b (b * acc + 4) d
  | Decimal.D5 d => uint_in b (b * acc + 5) d
  | Decimal.D6 d => uint_in b (b * acc + 6) d
  | Decimal.D7 d => uint_in b (b * acc + 7) d
  | Decimal.D8 d => uint_in b (b * acc + 8) d
  | Decimal.D9 d => uint_in b (b * acc + 9) d
  end.

(** A state whose fabric 1 has certificates that decode, decoded metadata
    and the given entries in the decoded key set 0. *)
Definition configured_state (keys : list Tlv.GroupKeyEntry) : ChipConfigData :=
  with_fabrics
    [(1%N, Fabric.set_metadataDecoded
             {| Tlv.vendorId := 4939; Tlv.label := "" |}
             (Fabric.keysDecoded_set (Int 0)
                {| Tlv.policy := 0; Tlv.keyCount := 1;
                   Tlv.keys := keys;
                   Tlv.groupKeySetId := 65535 |}
                (Sample.fabric_with (Some [Byte.x01; Byte.x07])
                                    None
                                    (Some [Byte.x02; Byte.x09]))))]
    new_ChipConfigData.

(** Every decoded value of the model stands beside the entry it was decoded
    from: a decoded companion is set only where the raw entry is. *)
Definition fabric_backed (fabric : Fabric.FabricData) : Prop :=
  (forall fd, decoded_is_set fabric fd = true -> stored fabric fd <> None) /\
  (forall rid, JsMap.has (Fabric.resumptionsDecoded fabric) rid = true ->
               JsMap.has (Fabric.resumptions fabric) rid = true).

Definition decoded_backed (st : ChipConfigData) : Prop :=
  (forall i fabric, getFabric st i = Some fabric -> fabric_backed fabric) /\
  (fabricIndexListDecoded (globals st) <> None ->
   fabricIndexList (globals st) <> None) /\
  (lastKnownGoodTimeDecoded (globals st) <> None ->
   lastKnownGoodTime (globals st) <> None) /\
  (resumptionIndexDecoded (sessions st) <> None ->
   resumptionIndex (sessions st) <> None).

(** Every decoded resumption entry is filed in the fabric it names. *)
Definition resumptions_owned (st : ChipConfigData) : Prop :=
  forall i fabric rid decoded,
    getFabric st i = Some fabric ->
    JsMap.get (Fabric.resumptionsDecoded fabric) rid = Some decoded ->
    Tlv.fabricIndex decoded = i.

(** A disk with the file [chip.json], which holds [first], and the file
    [saved.json], which holds [second]. *)
Definition two_files (first second : parsed) : Runtime := {|
  Buffer_from_base64 := Sample.decode_base64;
  readFile := fun path =>
    if path =? "chip.json" then Ok "<chip.json>"
    else if path =? "saved.json" then Ok "<saved.json>"
    else Throw (JsError "ENOENT: no such file or directory");
  writeFile := fun _ _ => Ok tt;
  JSON_parse := fun content =>
    if content =? "<chip.json>" then Ok first
    else if content =? "<saved.json>" then Ok second
    else Throw (JsError "Unexpected token in JSON");
  JSON_stringify := fun _ => "<saved.json>"
|}.

(** No fabric holds a resumption entry, raw or decoded, under [rid]. *)
Definition no_resumption (rid : string) (st : ChipConfigData) : Prop :=
  forall idx fabric,
    getFabric st idx = Some fabric ->
    JsMap.get (Fabric.resumptions fabric) rid = None /\
    JsMap.get (Fabric.resumptionsDecoded fabric) rid = None.


(** What [save] builds of the data of the round-trip test, as a file. *)
Module SavedData.

Definition saved_file : ChipConfigFile :=
  save_output
    (snd (load_parsed (runtime := Sample.runtime) (schemas := Sample.schemas)
            (ParsedFile TestData.round_trip_file) new_ChipConfigData)).

End SavedData.

(** * Properties *)

(** ** Certificate chain verification *)

Section VerifierFacts.
Context {certs : CertLib}.

Lemma getRcac_value st idx :
  snd (getRcac st idx) =
  match optional_chain st idx Fabric.rcac with
  | Some e => match Rcac_fromTlv (raw e) with Ok c => Some c | Throw _ => None end
  | None => None
  end.
Proof.
  unfold getRcac, decode_or_undefined.
  destruct (optional_chain st idx Fabric.rcac); simpl; auto.
  destruct (Rcac_fromTlv (raw d)); reflexivity.
Qed.

Lemma getIcac_value st idx :
  snd (getIcac st idx) =
  match optional_chain st idx Fabric.icac with
  | Some e => match Icac_fromTlv (raw e) with Ok c => Some c | Throw _ => None end
  | None => None
  end.
Proof.
  unfold getIcac, decode_or_undefined.
  destruct (optional_chain st idx Fabric.icac); simpl; auto.
  destruct (Icac_fromTlv (raw d)); reflexivity.
Qed.

Lemma getNoc_value st idx :
  snd (getNoc st idx) =
  match optional_chain st idx Fabric.noc with
  | Some e => match Noc_fromTlv (raw e) with Ok c => Some c | Throw _ => None end
  | None => None
  end.
Proof.
  unfold getNoc, decode_or_undefined.
  destruct (optional_chain st idx Fabric.noc); simpl; auto.
  destruct (Noc_fromTlv (raw d)); reflexivity.
Qed.

(** A getter only ever makes its own decoding call. *)
Lemma decode_or_undefined_calls {C} c (fromTlv : bytes -> result C) entry x :
  In x (fst (decode_or_undefined c fromTlv entry)) -> x = c.
Proof.
  unfold decode_or_undefined. destruct entry as [e|]; simpl; [|tauto].
  destruct (fromTlv (raw e)); simpl; intuition.
Qed.

End VerifierFacts.

(** Refutes the membership of a call in a trace made of literal calls and
    of the traces [Hi], [Hn] speak about. *)
Ltac no_such_call Hi Hn :=
  simpl; rewrite ?in_app_iff; simpl;
  intuition (try discriminate);
  match goal with
  | Hc : In _ _ |- _ =>
      first [apply Hi in Hc | apply Hn in Hc]; discriminate
  end.

(** C8. A fabric index whose RCAC is missing (no such fabric, or no RCAC
    stored for it) or whose RCAC bytes do not decode gets the result
    [{valid: false, error: "RCAC not found or invalid"}] and nothing else:
    the only call into the certificate library is the decoding of the RCAC
    itself, so no verification ran and neither ICAC nor NOC was looked at. *)
Theorem verify_rcac_not_found {certs : CertLib} (st : ChipConfigData) (idx : N) :
  optional_chain st idx Fabric.rcac = None \/
  (exists e err, optional_chain st idx Fabric.rcac = Some e /\
                 Rcac_fromTlv (raw e) = Throw err) ->
  snd (verifyCertificateChain st idx) =
    {| valid := false; rcacValid := None; icacValid := None;
       nocValid := None; error := Some "RCAC not found or invalid" |} /\
  forall c, In c (fst (verifyCertificateChain st idx)) -> c = DecodeRcac.
Proof.
  intro Hmissing.
  assert (Hnone : snd (getRcac st idx) = None).
  { rewrite getRcac_value.
    destruct Hmissing as [-> | (e & err & -> & ->)]; reflexivity. }
  unfold verifyCertificateChain, traced_bind.
  pose proof (decode_or_undefined_calls DecodeRcac Rcac_fromTlv
                (optional_chain st idx Fabric.rcac)) as Hcalls.
  fold (getRcac st idx) in Hcalls.
  destruct (getRcac st idx) as [t r]; simpl in *; subst r; simpl.
  split; [reflexivity|].
  intros c Hc. rewrite app_nil_r in Hc. auto.
Qed.

Lemma verify_rcac_not_found_witness :
  optional_chain (Sample.state_with None None (Some [Byte.x00])) 1
    Fabric.rcac = Some (Sample.entry_of [Byte.x00]) /\
  snd (verifyCertificateChain (certs := Sample.certs)
         (Sample.state_with None None (Some [Byte.x00])) 1) =
    {| valid := false; rcacValid := None; icacValid := None;
       nocValid := None; error := Some "RCAC not found or invalid" |}.
Proof.
  split; [reflexivity|].
  apply (@verify_rcac_not_found Sample.certs
           (Sample.state_with None None (Some [Byte.x00])) 1).
  right. exists (Sample.entry_of [Byte.x00]), (JsError "Invalid certificate").
  split; reflexivity.
Defined.

(** C3, counterexample.  Fabric 1 holds an RCAC that decodes and fails its
    self-verification, and no NOC: the code has fetched all three
    certificates before it verifies any, so it answers "NOC not found or
    invalid" with [rcacValid] unset, and never calls [verify]. *)
Lemma rcac_failure_short_circuits_counterexample :
  verifyCertificateChain (certs := Sample.certs)
    (Sample.state_with None None (Some [Byte.x02])) 1 =
    ([DecodeRcac],
     {| valid := false; rcacValid := None; icacValid := None;
        nocValid := None; error := Some "NOC not found or invalid" |}) /\
  ~ rcac_failure_short_circuits.
Proof.
  split; [reflexivity|].
  intro Hclaim.
  specialize (Hclaim Sample.certs
                (Sample.state_with None None (Some [Byte.x02])) 1%N
                (Sample.entry_of [Byte.x02]) [Byte.x02]
                (JsError "Invalid signature") eq_refl eq_refl eq_refl).
  destruct Hclaim as (_ & Hrcac & _). discriminate Hrcac.
Qed.

(** C3, amended.  Take a fabric whose stored RCAC decodes and fails its
    self-verification.  If its NOC decodes too, the result is
    [{valid: false, rcacValid: false, error: "RCAC verification failed:
    <cause>"}] and neither ICAC nor NOC is verified.  If its NOC is missing or
    does not decode, the result is [{valid: false, error: "NOC not found or
    invalid"}] and nothing is verified at all: the certificates are all
    decoded before the first verification. *)
Theorem verify_rcac_failure {certs : CertLib} (st : ChipConfigData) (idx : N)
  e rcac err :
  optional_chain st idx Fabric.rcac = Some e ->
  Rcac_fromTlv (raw e) = Ok rcac ->
  Rcac_verify rcac = Throw err ->
  let out := verifyCertificateChain st idx in
  (forall noc, snd (getNoc st idx) = Some noc ->
     snd out =
       {| valid := false; rcacValid := Some false; icacValid := None;
          nocValid := None;
          error := Some ("RCAC verification failed: " ++ error_text err) |} /\
     ~ In VerifyIcac (fst out) /\ ~ In VerifyNoc (fst out)) /\
  (snd (getNoc st idx) = None ->
     snd out =
       {| valid := false; rcacValid := None; icacValid := None;
          nocValid := None; error := Some "NOC not found or invalid" |} /\
     ~ In VerifyRcac (fst out) /\ ~ In VerifyIcac (fst out) /\
     ~ In VerifyNoc (fst out)).
Proof.
  intros He Hdec Hver out. subst out.
  pose proof (decode_or_undefined_calls DecodeIcac Icac_fromTlv
                (optional_chain st idx Fabric.icac)) as Hi.
  pose proof (decode_or_undefined_calls DecodeNoc Noc_fromTlv
                (optional_chain st idx Fabric.noc)) as Hn.
  fold (getIcac st idx) in Hi. fold (getNoc st idx) in Hn.
  unfold verifyCertificateChain, traced_bind, getRcac, decode_or_undefined.
  rewrite He. unfold call, traced_bind, traced_ret. rewrite Hdec.
  destruct (getIcac st idx) as [ti icac], (getNoc st idx) as [tn noc].
  simpl in *.
  split.
  - intros noc' ->. rewrite Hver. simpl. split; [reflexivity|].
    split; no_such_call Hi Hn.
  - intros ->. simpl. split; [reflexivity|].
    repeat split; no_such_call Hi Hn.
Qed.

Lemma verify_rcac_failure_witness :
  snd (verifyCertificateChain (certs := Sample.certs)
         (Sample.state_with (Some [Byte.x01]) None (Some [Byte.x02])) 1) =
    {| valid := false; rcacValid := Some false; icacValid := None;
       nocValid := None;
       error := Some "RCAC verification failed: Invalid signature" |}.
Proof.
  destruct (@verify_rcac_failure Sample.certs
              (Sample.state_with (Some [Byte.x01]) None (Some [Byte.x02])) 1%N
              (Sample.entry_of [Byte.x02]) [Byte.x02]
              (JsError "Invalid signature") eq_refl eq_refl eq_refl)
    as [Hnoc _].
  destruct (Hnoc [Byte.x01] eq_refl) as [Hresult _].
  exact Hresult.
Defined.

(** C4, counterexample.  Fabric 1 holds good RCAC and NOC and ICAC bytes
    that do not decode: [getIcac] turns the decoding error into [undefined],
    which is also what it returns without ICAC bytes, so the ICAC step is
    skipped and the chain is reported valid with [icacValid] unset. *)
Lemma icac_failure_is_reported_counterexample :
  verifyCertificateChain (certs := Sample.certs)
    (Sample.state_with (Some [Byte.x01]) (Some [Byte.x00]) (Some [Byte.x01])) 1 =
    ([DecodeRcac; DecodeIcac; DecodeNoc; VerifyRcac; VerifyNoc],
     {| valid := true; rcacValid := Some true; icacValid := None;
        nocValid := Some true; error := None |}) /\
  ~ icac_failure_is_reported.
Proof.
  split; [reflexivity|].
  intro Hclaim.
  assert (Hbad : (exists err, @Icac_fromTlv Sample.certs
                     (raw (Sample.entry_of [Byte.x00])) = Throw err) \/
                 (exists icac err,
                     @Icac_fromTlv Sample.certs
                       (raw (Sample.entry_of [Byte.x00])) = Ok icac /\
                     @Icac_verify Sample.certs icac [Byte.x01] = Throw err)).
  { left. eexists. reflexivity. }
  specialize (Hclaim Sample.certs
                (Sample.state_with (Some [Byte.x01]) (Some [Byte.x00])
                                   (Some [Byte.x01])) 1%N
                (Sample.entry_of [Byte.x00]) [Byte.x01] [Byte.x01]
                eq_refl eq_refl eq_refl eq_refl Hbad).
  destruct Hclaim as (Hvalid & _). discriminate Hvalid.
Qed.

(** C4, amended.  Take a fabric whose RCAC and NOC decode and whose RCAC
    verifies.  If its ICAC bytes decode and the ICAC fails verification
    against the RCAC, the result is [{valid: false, rcacValid: true,
    icacValid: false, error: "ICAC verification failed: <cause>"}] and the
    NOC is not verified.  If its ICAC bytes are absent or do not decode, the
    ICAC step is skipped without being a failure: [verify] is not called on
    an ICAC, [icacValid] stays unset, and the chain is valid exactly when the
    NOC verifies against the RCAC alone. *)
Theorem verify_icac_failure {certs : CertLib} (st : ChipConfigData) (idx : N)
  rcac noc :
  snd (getRcac st idx) = Some rcac ->
  snd (getNoc st idx) = Some noc ->
  Rcac_verify rcac = Ok tt ->
  (forall e icac err,
     optional_chain st idx Fabric.icac = Some e ->
     Icac_fromTlv (raw e) = Ok icac ->
     Icac_verify icac rcac = Throw err ->
     snd (verifyCertificateChain st idx) =
       {| valid := false; rcacValid := Some true; icacValid := Some false;
          nocValid := None;
          error := Some ("ICAC verification failed: " ++ error_text err) |} /\
     ~ In VerifyNoc (fst (verifyCertificateChain st idx))) /\
  (optional_chain st idx Fabric.icac = None \/
   (exists e err, optional_chain st idx Fabric.icac = Some e /\
                  Icac_fromTlv (raw e) = Throw err) ->
     ~ In VerifyIcac (fst (verifyCertificateChain st idx)) /\
     icacValid (snd (verifyCertificateChain st idx)) = None /\
     (valid (snd (verifyCertificateChain st idx)) = true <->
      Noc_verify noc rcac None = Ok tt)).
Proof.
  intros Hrcac Hnoc Hver.
  pose proof (decode_or_undefined_calls DecodeRcac Rcac_fromTlv
                (optional_chain st idx Fabric.rcac)) as Hr.
  pose proof (decode_or_undefined_calls DecodeIcac Icac_fromTlv
                (optional_chain st idx Fabric.icac)) as Hi.
  pose proof (decode_or_undefined_calls DecodeNoc Noc_fromTlv
                (optional_chain st idx Fabric.noc)) as Hn.
  fold (getRcac st idx) in Hr. fold (getIcac st idx) in Hi.
  fold (getNoc st idx) in Hn.
  pose proof (getIcac_value st idx) as Hicac.
  unfold verifyCertificateChain, traced_bind, call, traced_ret.
  destruct (getRcac st idx) as [tr rcac'], (getIcac st idx) as [ti icac'],
           (getNoc st idx) as [tn noc'].
  simpl in *. subst rcac' noc'. rewrite Hver.
  split.
  - intros e icac err He Hdec Hfail.
    rewrite He, Hdec in Hicac. subst icac'. rewrite Hfail. simpl.
    split; [reflexivity|].
    assert (Hrn : forall c, In c tr \/ In c tn -> c = DecodeRcac \/ c = DecodeNoc)
      by (intros c [Hc|Hc]; auto).
    rewrite ?in_app_iff; simpl. rewrite ?in_app_iff; simpl.
    intuition (try discriminate);
      match goal with
      | Hc : In _ _ |- _ =>
          first [apply Hr in Hc | apply Hi in Hc | apply Hn in Hc]; discriminate
      end.
  - intro Habsent.
    assert (icac' = None) as ->.
    { rewrite Hicac.
      destruct Habsent as [-> | (e & err & -> & ->)]; reflexivity. }
    destruct (Noc_verify noc rcac None) as [[]|err] eqn:Hnv; simpl.
    + split; [|split; [reflexivity | tauto]].
      rewrite ?in_app_iff; simpl. rewrite ?in_app_iff; simpl.
      intuition (try discriminate);
        match goal with
        | Hc : In _ _ |- _ =>
            first [apply Hr in Hc | apply Hi in Hc | apply Hn in Hc];
            discriminate
        end.
    + split; [|split; [reflexivity | split; discriminate]].
      rewrite ?in_app_iff; simpl. rewrite ?in_app_iff; simpl.
      intuition (try discriminate);
        match goal with
        | Hc : In _ _ |- _ =>
            first [apply Hr in Hc | apply Hi in Hc | apply Hn in Hc];
            discriminate
        end.
Qed.

Lemma verify_icac_failure_witness :
  snd (verifyCertificateChain (certs := Sample.certs)
         (Sample.state_with (Some [Byte.x01]) (Some [Byte.x02])
                            (Some [Byte.x01])) 1) =
    {| valid := false; rcacValid := Some true; icacValid := Some false;
       nocValid := None;
       error := Some "ICAC verification failed: Invalid signature" |}.
Proof.
  destruct (@verify_icac_failure Sample.certs
              (Sample.state_with (Some [Byte.x01]) (Some [Byte.x02])
                                 (Some [Byte.x01])) 1%N
              [Byte.x01] [Byte.x01] eq_refl eq_refl eq_refl)
    as [Hfail _].
  destruct (Hfail (Sample.entry_of [Byte.x02]) [Byte.x02]
                  (JsError "Invalid signature") eq_refl eq_refl eq_refl)
    as [Hresult _].
  exact Hresult.
Defined.

(** ** The projection [getFabricConfig] *)

Lemma find_ipk_Some keys ipk :
  find_ipk keys = Some ipk -> In ipk keys /\ length (Tlv.key ipk) = 16%nat.
Proof.
  unfold find_ipk. intro Hfind. apply find_some in Hfind as [Hin Hlen].
  split; [assumption|]. now apply Nat.eqb_eq.
Qed.

Lemma find_ipk_exists keys ipk :
  In ipk keys -> length (Tlv.key ipk) = 16%nat ->
  exists first, find_ipk keys = Some first.
Proof.
  unfold find_ipk. intros Hin Hlen.
  destruct (find _ keys) as [k|] eqn:Hfind; [now exists k|].
  apply (find_none _ _ Hfind) in Hin. apply Nat.eqb_neq in Hin. contradiction.
Qed.

(** C9. [getFabricConfig] is all-or-nothing.  When it returns a record, the
    fabric exists, its RCAC and NOC decode, the NOC subject carries the node
    and fabric identifiers and the RCAC subject the root identifier, the
    metadata was decoded, key-set slot 0 was decoded and has an entry with a
    key of exactly 16 bytes, and every field of the record is filled from
    these (the intermediate certificate being the ICAC bytes when the fabric
    has them).  Conversely, when all the prerequisites hold it returns a
    record; so a missing prerequisite gives [undefined]. *)
Theorem getFabricConfig_all_or_nothing {certs : CertLib}
  (st : ChipConfigData) (idx : N) :
  (forall cfg, getFabricConfig st idx = Some cfg ->
     exists fabric rcacE nocE rcac noc md ks ipk,
       getFabric st idx = Some fabric /\
       Fabric.rcac fabric = Some rcacE /\ Rcac_fromTlv (raw rcacE) = Ok rcac /\
       Fabric.noc fabric = Some nocE /\ Noc_fromTlv (raw nocE) = Ok noc /\
       Noc_subject_nodeId noc = Some (FabricConfig.nodeId cfg) /\
       Noc_subject_fabricId noc = Some (FabricConfig.fabricId cfg) /\
       Rcac_subject_rcacId rcac = Some (FabricConfig.rootNodeId cfg) /\
       Fabric.metadataDecoded fabric = Some md /\
       FabricConfig.rootVendorId cfg = Tlv.vendorId md /\
       FabricConfig.label cfg = Tlv.label md /\
       JsMap.get (Fabric.keysDecoded fabric) (Int 0) = Some ks /\
       In ipk (Tlv.keys ks) /\ length (Tlv.key ipk) = 16%nat /\
       FabricConfig.identityProtectionKey cfg = Tlv.key ipk /\
       FabricConfig.fabricIndex cfg = idx /\
       FabricConfig.rootCert cfg = raw rcacE /\
       FabricConfig.rootPublicKey cfg = Rcac_ellipticCurvePublicKey rcac /\
       FabricConfig.operationalCert cfg = raw nocE /\
       FabricConfig.intermediateCACert cfg =
         option_map raw (Fabric.icac fabric)) /\
  (forall fabric rcacE nocE rcac noc nodeId fabricId rcacId md ks ipk,
     getFabric st idx = Some fabric ->
     Fabric.rcac fabric = Some rcacE -> Rcac_fromTlv (raw rcacE) = Ok rcac ->
     Fabric.noc fabric = Some nocE -> Noc_fromTlv (raw nocE) = Ok noc ->
     Noc_subject_nodeId noc = Some nodeId ->
     Noc_subject_fabricId noc = Some fabricId ->
     Rcac_subject_rcacId rcac = Some rcacId ->
     Fabric.metadataDecoded fabric = Some md ->
     JsMap.get (Fabric.keysDecoded fabric) (Int 0) = Some ks ->
     In ipk (Tlv.keys ks) -> length (Tlv.key ipk) = 16%nat ->
     exists cfg, getFabricConfig st idx = Some cfg).
Proof.
  unfold getFabricConfig, getFabric.
  rewrite getRcac_value, getNoc_value. unfold optional_chain.
  split.
  - intros cfg Hcfg.
    destruct (JsMap.get (fabrics st) idx) as [fabric|]; [|discriminate].
    destruct (Fabric.rcac fabric) as [rcacE|] eqn:HrcacE; [|discriminate].
    destruct (Rcac_fromTlv (raw rcacE)) as [rcac|] eqn:Hrcac; [|discriminate].
    destruct (Fabric.noc fabric) as [nocE|] eqn:HnocE; [|discriminate].
    destruct (Noc_fromTlv (raw nocE)) as [noc|] eqn:Hnoc; [|discriminate].
    destruct (Noc_subject_nodeId noc) as [nodeId|] eqn:Hnode; [|discriminate].
    destruct (Noc_subject_fabricId noc) as [fabricId|] eqn:Hfabric;
      [|discriminate].
    destruct (Rcac_subject_rcacId rcac) as [rcacId|] eqn:Hroot; [|discriminate].
    destruct (Fabric.metadataDecoded fabric) as [md|] eqn:Hmd; [|discriminate].
    destruct (JsMap.get (Fabric.keysDecoded fabric) (Int 0)) as [ks|] eqn:Hks;
      [|discriminate].
    destruct (length (Tlv.keys ks) =? 0)%nat; [discriminate|].
    destruct (find_ipk (Tlv.keys ks)) as [ipk|] eqn:Hipk; [|discriminate].
    apply find_ipk_Some in Hipk as [Hin Hlen].
    injection Hcfg as <-. simpl.
    exists fabric, rcacE, nocE, rcac, noc, md, ks, ipk.
    repeat split; auto.
  - intros fabric rcacE nocE rcac noc nodeId fabricId rcacId md ks ipk
      -> -> -> -> -> -> -> -> -> -> Hin Hlen.
    destruct (find_ipk_exists _ _ Hin Hlen) as [first ->].
    destruct (Tlv.keys ks) as [|k ks']; [destruct Hin|]. simpl.
    eexists. reflexivity.
Qed.

Lemma getFabricConfig_all_or_nothing_witness :
  exists cfg,
    getFabricConfig (certs := Sample.certs)
      (with_fabrics
         [(1%N, Fabric.set_metadataDecoded
                  {| Tlv.vendorId := 4939; Tlv.label := "" |}
                  (Fabric.keysDecoded_set (Int 0)
                     {| Tlv.policy := 0; Tlv.keyCount := 1;
                        Tlv.keys := [ {| Tlv.key := repeat Byte.x00 16 |} ];
                        Tlv.groupKeySetId := 65535 |}
                     (Sample.fabric_with (Some [Byte.x01; Byte.x07])
                                         None
                                         (Some [Byte.x01; Byte.x09]))))]
         new_ChipConfigData) 1 = Some cfg.
Proof.
  destruct (@getFabricConfig_all_or_nothing Sample.certs
              (with_fabrics
                 [(1%N, Fabric.set_metadataDecoded
                          {| Tlv.vendorId := 4939; Tlv.label := "" |}
                          (Fabric.keysDecoded_set (Int 0)
                             {| Tlv.policy := 0; Tlv.keyCount := 1;
                                Tlv.keys :=
                                  [ {| Tlv.key := repeat Byte.x00 16 |} ];
                                Tlv.groupKeySetId := 65535 |}
                             (Sample.fabric_with (Some [Byte.x01; Byte.x07])
                                                 None
                                                 (Some [Byte.x01; Byte.x09]))))]
                 new_ChipConfigData) 1%N) as [_ Hsome].
  eapply Hsome with (ipk := {| Tlv.key := repeat Byte.x00 16 |});
    try reflexivity.
  left. reflexivity.
Defined.

(** ** Loading *)

(** C10. [load] is atomic with respect to hard failures.  When the file
    cannot be read, or its content is not valid JSON, [load] throws that
    error and the in-memory model is exactly what it was; and whenever a
    call of [load] leaves the model different from what it was, the file had
    been read and parsed successfully. *)
Theorem load_atomic {runtime : Runtime} {schemas : TlvSchemas}
  (filePath : string) (st : ChipConfigData) :
  (forall err, readFile filePath = Throw err ->
     load filePath st = (Throw err, st)) /\
  (forall content err,
     readFile filePath = Ok content -> JSON_parse content = Throw err ->
     load filePath st = (Throw err, st)) /\
  (forall r st', load filePath st = (r, st') -> st' <> st ->
     exists content data,
       readFile filePath = Ok content /\ JSON_parse content = Ok data).
Proof.
  unfold load, bind, lift.
  repeat split.
  - intros err ->. reflexivity.
  - intros content err -> ->. reflexivity.
  - intros r st' Hload Hneq.
    destruct (readFile filePath) as [content|err] eqn:Hread;
      [|injection Hload as _ <-; contradiction].
    destruct (JSON_parse content) as [data|err] eqn:Hparse;
      [|injection Hload as _ <-; contradiction].
    exists content, data. split; [reflexivity | assumption].
Qed.

Lemma load_atomic_witness :
  load (runtime := Sample.runtime) (schemas := Sample.schemas) "broken.json"
       (Sample.state_with (Some [Byte.x01]) None (Some [Byte.x01])) =
    (Throw (JsError "Unexpected token s in JSON at position 2"),
     Sample.state_with (Some [Byte.x01]) None (Some [Byte.x01])).
Proof.
  apply (@load_atomic Sample.runtime Sample.schemas "broken.json"
           (Sample.state_with (Some [Byte.x01]) None (Some [Byte.x01])))
    with (content := "{ sdk-config"); reflexivity.
Defined.

(** ** Maps *)

#[export] Instance string_KeyEqLaws : KeyEqLaws string.
Proof. exact String.eqb_eq. Qed.

#[export] Instance N_KeyEqLaws : KeyEqLaws N.
Proof. exact N.eqb_eq. Qed.

#[export] Instance jsnum_KeyEqLaws : KeyEqLaws jsnum.
Proof.
  intros [|x] [|y]; unfold keqb, jsnum_KeyEq; simpl;
    try (split; congruence).
  rewrite Z.eqb_eq. split; congruence.
Qed.

Lemma keqb_spec {K} `{KeyEqLaws K} (x y : K) : reflect (x = y) (keqb x y).
Proof. apply iff_reflect. symmetry. apply keqb_eq. Qed.

Module JsMapFacts.
Section Facts.
Context {K V : Type} `{KeyEqLaws K}.
Implicit Types (m : JsMap.t K V) (k : K) (v : V).

Lemma keqb_refl k : keqb k k = true.
Proof. destruct (keqb_spec k k); congruence. Qed.

Lemma keqb_neq k k' : k <> k' -> keqb k k' = false.
Proof. intro; destruct (keqb_spec k k'); congruence. Qed.

Lemma get_set_eq m k v : JsMap.get (JsMap.set m k v) k = Some v.
Proof.
  induction m as [|[k' v'] m IH]; simpl.
  - now rewrite keqb_refl.
  - destruct (keqb k' k) eqn:E; simpl; rewrite E; auto.
Qed.

Lemma get_set_ne m k k' v :
  k <> k' -> JsMap.get (JsMap.set m k v) k' = JsMap.get m k'.
Proof.
  intro Hne. induction m as [|[k0 v0] m IH]; simpl.
  - now rewrite keqb_neq.
  - destruct (keqb_spec k0 k) as [->|Hk]; simpl.
    + now rewrite keqb_neq.
    + now rewrite IH.
Qed.

Lemma has_set_eq m k v : JsMap.has (JsMap.set m k v) k = true.
Proof. unfold JsMap.has. now rewrite get_set_eq. Qed.

Lemma has_set_ne m k k' v :
  k <> k' -> JsMap.has (JsMap.set m k v) k' = JsMap.has m k'.
Proof. intro. unfold JsMap.has. now rewrite get_set_ne. Qed.

Lemma set_set m k v v' :
  JsMap.set (JsMap.set m k v) k v' = JsMap.set m k v'.
Proof.
  induction m as [|[k0 v0] m IH]; simpl.
  - now rewrite keqb_refl.
  - destruct (keqb k0 k) eqn:E; simpl; rewrite E; [reflexivity|].
    now rewrite IH.
Qed.

Lemma get_None_keys m k : JsMap.get m k = None <-> ~ In k (JsMap.keys m).
Proof.
  induction m as [|[k' v'] m IH]; simpl.
  - tauto.
  - destruct (keqb_spec k' k) as [->|Hk].
    + split; [discriminate | intros []; now left].
    + rewrite IH; tauto.
Qed.

Lemma keys_set m k v :
  JsMap.keys (JsMap.set m k v) =
  if JsMap.has m k then JsMap.keys m else (JsMap.keys m ++ [k])%list.
Proof.
  unfold JsMap.has. induction m as [|[k' v'] m IH]; simpl; auto.
  destruct (keqb k' k) eqn:E; simpl; auto.
  rewrite IH. now destruct (JsMap.get m k).
Qed.

Lemma in_keys_set m k v k' :
  In k' (JsMap.keys (JsMap.set m k v)) <-> k' = k \/ In k' (JsMap.keys m).
Proof.
  rewrite keys_set. unfold JsMap.has.
  destruct (JsMap.get m k) eqn:E.
  - split; auto. intros [->|]; auto.
    destruct (in_dec (fun x y => reflect_dec _ _ (keqb_spec x y))
                     k (JsMap.keys m)) as [Hin|Hout]; auto.
    apply get_None_keys in Hout. congruence.
  - rewrite in_app_iff; simpl. intuition.
Qed.

Lemma NoDup_keys_set m k v :
  NoDup (JsMap.keys m) -> NoDup (JsMap.keys (JsMap.set m k v)).
Proof.
  intro Hnd. rewrite keys_set. unfold JsMap.has.
  destruct (JsMap.get m k) eqn:E; auto.
  apply get_None_keys in E.
  apply NoDup_app; auto.
  - constructor; [tauto | constructor].
  - intros x Hx [<-|[]]. auto.
Qed.

End Facts.
End JsMapFacts.

(** ** Strings *)

Lemma startsWith_slice s p :
  Js.startsWith s p = true -> s = p ++ Js.slice (String.length p) s.
Proof.
  unfold Js.startsWith. revert s.
  induction p as [|c p IH]; intros s; [reflexivity|].
  destruct s as [|c' s]; simpl; [discriminate|].
  destruct (ascii_dec c c') as [->|]; [|discriminate].
  intro Hp. f_equal. auto.
Qed.

Lemma startsWith_append p s : Js.startsWith (p ++ s) p = true.
Proof.
  unfold Js.startsWith. induction p as [|c p IH]; simpl.
  - now destruct s.
  - destruct (ascii_dec c c); [assumption | congruence].
Qed.

Lemma slice_append p s : Js.slice (String.length p) (p ++ s) = s.
Proof. induction p; simpl; auto. Qed.

(** ** The loop body computes its state transformer and never throws *)

Section Refinement.
Context {runtime : Runtime} {schemas : TlvSchemas}.

Lemma put_put idx f f' st :
  put_fabric idx f' (put_fabric idx f st) = put_fabric idx f' st.
Proof.
  unfold put_fabric, with_fabrics; simpl. now rewrite JsMapFacts.set_set.
Qed.

Lemma get_put_eq idx f st :
  JsMap.get (fabrics (put_fabric idx f st)) idx = Some f.
Proof. simpl. apply JsMapFacts.get_set_eq. Qed.

Lemma get_put_ne idx idx' f st :
  idx <> idx' ->
  JsMap.get (fabrics (put_fabric idx f st)) idx' = JsMap.get (fabrics st) idx'.
Proof. intro. simpl. now apply JsMapFacts.get_set_ne. Qed.

Lemma getOrCreateFabric_run idx st :
  exists st1,
    getOrCreateFabric idx st = (Ok idx, st1) /\
    JsMap.get (fabrics st1) idx = Some (fabric_or_new st idx) /\
    forall f, put_fabric idx f st1 = put_fabric idx f st.
Proof.
  unfold getOrCreateFabric, fabric_or_new, bind, gets, modify, ret.
  destruct (JsMap.get (fabrics st) idx) as [f|] eqn:Hget.
  - exists st. auto.
  - exists (put_fabric idx (new_FabricData idx) st).
    split; [reflexivity|]. split; [apply get_put_eq|].
    intro f. apply put_put.
Qed.

Lemma mutate_run idx g f st :
  JsMap.get (fabrics st) idx = Some f ->
  mutate idx g st = (Ok tt, put_fabric idx (g f) st).
Proof. unfold mutate, modify. now intros ->. Qed.

(** One or two assignments through the reference [getOrCreateFabric] has
    returned. *)
Lemma create_then_mutate idx g st :
  (fabric <- getOrCreateFabric idx ;; mutate fabric g) st =
  (Ok tt, put_fabric idx (g (fabric_or_new st idx)) st).
Proof.
  unfold bind.
  destruct (getOrCreateFabric_run idx st) as (st1 & -> & Hget & Hput).
  rewrite (mutate_run _ _ _ Hget). now rewrite Hput.
Qed.

Lemma create_then_mutate_decode {D} idx g1 (decoded : result D) g2 st :
  (fabric <- getOrCreateFabric idx ;;
   mutate fabric g1 ;;
   try_catch (d <- lift decoded ;; mutate fabric (g2 d)) (fun _ => ret tt)) st =
  (Ok tt,
   put_fabric idx
     (match decoded with
      | Ok d => g2 d (g1 (fabric_or_new st idx))
      | Throw _ => g1 (fabric_or_new st idx)
      end) st).
Proof.
  unfold bind, try_catch, lift, ret.
  destruct (getOrCreateFabric_run idx st) as (st1 & -> & Hget & Hput).
  rewrite (mutate_run _ _ _ Hget). rewrite Hput.
  destruct decoded as [d|e]; [|reflexivity].
  rewrite (mutate_run _ _ _ (get_put_eq _ _ _)). now rewrite put_put.
Qed.

Lemma parseFabricKey_run key value st :
  parseFabricKey key value st = (Ok tt, fabric_key_effect key value st).
Proof.
  unfold parseFabricKey, fabric_key_effect, fabric_slot.
  destruct (Js.match_fabric_key key) as [[match1 subKey]|]; [|reflexivity].
  unfold field_of.
  destruct (subKey =? "n"); [apply create_then_mutate|].
  destruct (subKey =? "i"); [apply create_then_mutate|].
  destruct (subKey =? "r"); [apply create_then_mutate|].
  destruct (subKey =? "m").
  { rewrite create_then_mutate_decode. simpl.
    now destruct (TlvFabricMetadata_decode _). }
  destruct (Js.startsWith subKey "k/").
  { rewrite create_then_mutate_decode. simpl.
    now destruct (TlvGroupKeySet_decode _). }
  destruct (Js.startsWith subKey "s/").
  { rewrite create_then_mutate_decode. simpl.
    now destruct (TlvSessionResumptionDetails_decode _). }
  apply create_then_mutate.
Qed.

Lemma parseGlobalKey_run key value st :
  parseGlobalKey key value st = (Ok tt, global_key_effect key value st).
Proof.
  unfold parseGlobalKey, global_key_effect.
  destruct (key =? "g/fidx").
  { unfold bind, try_catch, lift, modify, ret. simpl.
    now destruct (TlvFabricIndexList_decode _). }
  destruct (key =? "g/lkgt").
  { unfold bind, try_catch, lift, modify, ret. simpl.
    now destruct (TlvLastKnownGoodTime_decode _). }
  destruct (key =? "g/sri").
  { unfold bind, try_catch, lift, modify, ret. simpl.
    now destruct (TlvSessionResumptionIndex_decode _). }
  destruct (Js.startsWith key "g/s/"); [|reflexivity].
  unfold try_catch, bind at 1, lift.
  destruct (TlvSessionResumptionEntry_decode _) as [decoded|e];
    [|reflexivity].
  unfold bind.
  destruct (getOrCreateFabric_run (Tlv.fabricIndex decoded) st)
    as (st1 & -> & Hget & Hput).
  rewrite (mutate_run _ _ _ Hget). rewrite Hput.
  rewrite (mutate_run _ _ _ (get_put_eq _ _ _)). now rewrite put_put.
Qed.

Lemma load_entry_run kv st : load_entry kv st = (Ok tt, entry_effect kv st).
Proof.
  destruct kv as [key value]. unfold load_entry, entry_effect.
  destruct (isIgnoredKey key); [reflexivity|].
  destruct (Js.startsWith key "f/"); [apply parseFabricKey_run|].
  destruct (Js.startsWith key "g/"); [apply parseGlobalKey_run|].
  reflexivity.
Qed.

Lemma for_of_load_entry_run entries st :
  for_of entries load_entry st = (Ok tt, entries_effect entries st).
Proof.
  unfold entries_effect. revert st.
  induction entries as [|kv entries IH]; intro st; simpl; [reflexivity|].
  unfold bind. rewrite load_entry_run. apply IH.
Qed.

(** Loading a parsed file clears the state, takes over [repl-config] and
    runs the loop; it returns normally. *)
Lemma load_parsed_run file st :
  load_parsed (ParsedFile file) st =
  (Ok tt,
   entries_effect
     (match sdk_config file with Some o => o | None => JsMap.empty end)
     (with_replConfig
        (match repl_config file with
        | Some r => r
        | None => JObject JsMap.empty
        end)
        (clear st))).
Proof.
  unfold load_parsed, bind, modify, members, ret.
  apply for_of_load_entry_run.
Qed.

Lemma load_run filePath content file st :
  readFile filePath = Ok content ->
  JSON_parse content = Ok (ParsedFile file) ->
  load filePath st =
  (Ok tt,
   entries_effect
     (match sdk_config file with Some o => o | None => JsMap.empty end)
     (with_replConfig
        (match repl_config file with
        | Some r => r
        | None => JObject JsMap.empty
        end)
        (clear st))).
Proof.
  intros Hread Hparse. unfold load, bind, lift. rewrite Hread, Hparse.
  apply load_parsed_run.
Qed.

End Refinement.

(** ** Sorting *)

Lemma in_insert_sorted x l y : In y (insert_sorted x l) <-> y = x \/ In y l.
Proof.
  induction l as [|z l IH]; simpl.
  - intuition.
  - destruct (x <=? z)%N; simpl; [intuition|]. rewrite IH. intuition.
Qed.

Lemma in_sort_numeric l y : In y (sort_numeric l) <-> In y l.
Proof.
  induction l as [|x l IH]; simpl; [tauto|].
  rewrite in_insert_sorted, IH. intuition.
Qed.

Lemma insert_sorted_perm x l : Permutation (insert_sorted x l) (x :: l).
Proof.
  induction l as [|z l IH]; simpl; [reflexivity|].
  destruct (x <=? z)%N; [reflexivity|].
  rewrite IH. apply perm_swap.
Qed.

Lemma sort_numeric_perm l : Permutation (sort_numeric l) l.
Proof.
  induction l as [|x l IH]; simpl; [reflexivity|].
  rewrite insert_sorted_perm. now constructor.
Qed.

Lemma insert_sorted_le x l :
  StronglySorted N.le l -> StronglySorted N.le (insert_sorted x l).
Proof.
  induction 1 as [|z l Hl IH Hz]; simpl.
  - repeat constructor.
  - destruct (N.leb_spec x z) as [Hle|Hgt].
    + constructor; [now constructor|].
      constructor; [assumption|].
      eapply Forall_impl; [|exact Hz]. intros; lia.
    + constructor; [assumption|].
      apply Forall_forall. intros y Hy.
      apply in_insert_sorted in Hy as [->|Hy]; [lia|].
      now apply (proj1 (Forall_forall _ _) Hz).
Qed.

Lemma sort_numeric_sorted l : StronglySorted N.le (sort_numeric l).
Proof.
  induction l as [|x l IH]; simpl; [constructor|].
  now apply insert_sorted_le.
Qed.

Lemma sort_numeric_strict l :
  NoDup l -> StronglySorted N.lt (sort_numeric l).
Proof.
  intro Hnd.
  assert (Hnd' : NoDup (sort_numeric l)).
  { eapply Permutation_NoDup; [symmetry; apply sort_numeric_perm | exact Hnd]. }
  pose proof (sort_numeric_sorted l) as Hs.
  induction Hs as [|z s Hs IH Hz]; [constructor|].
  inversion Hnd' as [|? ? Hout Hnd'']; subst.
  constructor; [auto|].
  apply Forall_forall. intros y Hy.
  pose proof (proj1 (Forall_forall _ _) Hz y Hy).
  assert (y <> z) by (intros ->; contradiction).
  lia.
Qed.

(** A strictly ascending list is determined by its elements. *)
Lemma strictly_sorted_ext (l1 l2 : list N) :
  StronglySorted N.lt l1 -> StronglySorted N.lt l2 ->
  (forall x, In x l1 <-> In x l2) -> l1 = l2.
Proof.
  intro H1. revert l2.
  induction H1 as [|a l1 Hl1 IH Ha]; intros l2 H2 Hext.
  - destruct l2 as [|b l2]; [reflexivity|].
    destruct (proj2 (Hext b)). now left.
  - destruct H2 as [|b l2 Hl2 Hb].
    + destruct (proj1 (Hext a)). now left.
    + rewrite Forall_forall in Ha, Hb.
      assert (a = b).
      { destruct (proj1 (Hext a) (or_introl eq_refl)) as [->|Hin1];
          [reflexivity|].
        destruct (proj2 (Hext b) (or_introl eq_refl)) as [->|Hin2];
          [reflexivity|].
        apply Hb in Hin1. apply Ha in Hin2. lia. }
      subst b. f_equal. apply IH; [assumption|].
      intro x. split; intro Hx.
      * destruct (proj1 (Hext x) (or_intror Hx)) as [<-|]; [|assumption].
        apply Ha in Hx. lia.
      * destruct (proj2 (Hext x) (or_intror Hx)) as [<-|]; [|assumption].
        apply Hb in Hx. lia.
Qed.

(** ** How the regular expression of fabric keys matches *)

Lemma span_hex_prefix h rest :
  Js.all_hex h = true ->
  Js.span_hex (h ++ String "/" rest) = (h, String "/" rest).
Proof.
  induction h as [|c h IH]; simpl; [reflexivity|].
  intro Hh. apply andb_true_iff in Hh as [Hc Hh].
  rewrite Hc, (IH Hh). reflexivity.
Qed.

Lemma match_fabric_key_intro h sub :
  h <> EmptyString -> Js.all_hex h = true -> Js.dot_plus sub = true ->
  Js.match_fabric_key ("f/" ++ h ++ "/" ++ sub) = Some (h, sub).
Proof.
  intros Hne Hh Hsub. simpl.
  rewrite span_hex_prefix by assumption.
  destruct h as [|c h]; [contradiction|]. now rewrite Hsub.
Qed.

Lemma span_hex_spec s h t :
  Js.span_hex s = (h, t) -> s = h ++ t /\ Js.all_hex h = true.
Proof.
  revert h t. induction s as [|c s IH]; intros h t; simpl.
  - intros [= <- <-]. auto.
  - destruct (Js.is_hex c) eqn:Hc.
    + destruct (Js.span_hex s) as [h' t'].
      intros [= <- <-]. destruct (IH _ _ eq_refl) as [-> Hh].
      simpl. rewrite Hc. auto.
    + intros [= <- <-]. auto.
Qed.

(** The key matches exactly when it reads [f/<hex digits>/<sub-key>] with at
    least one digit and a non-empty sub-key free of line terminators. *)
Lemma match_fabric_key_spec key h sub :
  Js.match_fabric_key key = Some (h, sub) <->
  key = "f/" ++ h ++ "/" ++ sub /\ h <> EmptyString /\ Js.all_hex h = true /\
  Js.dot_plus sub = true.
Proof.
  split.
  - unfold Js.match_fabric_key.
    destruct key as [|c0 key]; [discriminate|].
    destruct c0 as [[] [] [] [] [] [] [] []]; try discriminate.
    destruct key as [|c1 key]; [discriminate|].
    destruct c1 as [[] [] [] [] [] [] [] []]; try discriminate.
    destruct (Js.span_hex key) as [h' t'] eqn:Hspan.
    apply span_hex_spec in Hspan as [-> Hh].
    destruct h' as [|c h']; [discriminate|].
    destruct t' as [|c2 t']; [discriminate|].
    destruct c2 as [[] [] [] [] [] [] [] []]; try discriminate.
    destruct (Js.dot_plus t') eqn:Hsub; [|discriminate].
    intros [= <- <-]. repeat split; auto. discriminate.
  - intros (-> & Hne & Hh & Hsub). now apply match_fabric_key_intro.
Qed.

(** ** Which fabrics a file creates *)

Lemma isIgnoredKey_spec key :
  isIgnoredKey key = true <->
  In key ["g/fs/c"; "g/fs/n"; "g/gdc"; "g/gcc"; "g/gfl"; "g/icdfl"].
Proof.
  unfold isIgnoredKey, IGNORED_KEY_PATTERNS. simpl.
  rewrite !orb_true_iff, !String.eqb_eq. intuition congruence.
Qed.

Lemma isIgnoredKey_fabric key :
  Js.startsWith key "f/" = true -> isIgnoredKey key = false.
Proof.
  intro Hf. rewrite (startsWith_slice _ _ Hf). reflexivity.
Qed.

Lemma fabric_slot_startsWith key slot :
  fabric_slot key = Some slot -> Js.startsWith key "f/" = true.
Proof.
  unfold fabric_slot.
  destruct (Js.match_fabric_key key) as [[h sub]|] eqn:Hm; [|discriminate].
  apply match_fabric_key_spec in Hm as (-> & _). intros _.
  apply (startsWith_append "f/").
Qed.

Section FabricsOfFile.
Context {runtime : Runtime} {schemas : TlvSchemas}.

Lemma entry_effect_fabrics kv st :
  fabrics (entry_effect kv st) =
  match owner kv with
  | Some idx =>
      JsMap.set (fabrics st) idx
        (match JsMap.get (fabrics (entry_effect kv st)) idx with
         | Some f => f
         | None => new_FabricData idx
         end)
  | None => fabrics st
  end.
Proof.
  destruct kv as [key value]. unfold entry_effect, owner.
  destruct (isIgnoredKey key); [reflexivity|].
  destruct (Js.startsWith key "f/").
  { unfold fabric_key_effect.
    destruct (fabric_slot key) as [[idx fd]|]; [|reflexivity]. simpl.
    now rewrite JsMapFacts.get_set_eq. }
  destruct (Js.startsWith key "g/"); [|reflexivity].
  unfold global_key_effect.
  destruct (key =? "g/fidx"); [reflexivity|].
  destruct (key =? "g/lkgt"); [reflexivity|].
  destruct (key =? "g/sri"); [reflexivity|]. simpl.
  destruct (Js.startsWith key "g/s/"); [|reflexivity].
  destruct (TlvSessionResumptionEntry_decode _); [|reflexivity].
  simpl. now rewrite JsMapFacts.get_set_eq.
Qed.

Lemma entry_effect_fabric_keys kv st i :
  In i (JsMap.keys (fabrics (entry_effect kv st))) <->
  owner kv = Some i \/ In i (JsMap.keys (fabrics st)).
Proof.
  rewrite entry_effect_fabrics.
  destruct (owner kv) as [idx|].
  - rewrite JsMapFacts.in_keys_set. intuition congruence.
  - intuition discriminate.
Qed.

Lemma entry_effect_fabric_keys_NoDup kv st :
  NoDup (JsMap.keys (fabrics st)) ->
  NoDup (JsMap.keys (fabrics (entry_effect kv st))).
Proof.
  intro Hnd. rewrite entry_effect_fabrics.
  destruct (owner kv); [now apply JsMapFacts.NoDup_keys_set | assumption].
Qed.

Lemma entries_effect_fabric_keys entries st i :
  In i (JsMap.keys (fabrics (entries_effect entries st))) <->
  (exists kv, In kv entries /\ owner kv = Some i) \/
  In i (JsMap.keys (fabrics st)).
Proof.
  unfold entries_effect. revert st.
  induction entries as [|kv entries IH]; intro st; simpl.
  - split; [auto | intros [(kv & [] & _)|Hin]; exact Hin].
  - rewrite IH, entry_effect_fabric_keys. split.
    + intros [(kv' & Hin & Hown)|[Hown|Hin]]; eauto.
    + intros [(kv' & [<-|Hin] & Hown)|Hin]; eauto.
Qed.

Lemma entries_effect_fabric_keys_NoDup entries st :
  NoDup (JsMap.keys (fabrics st)) ->
  NoDup (JsMap.keys (fabrics (entries_effect entries st))).
Proof.
  unfold entries_effect. revert st.
  induction entries as [|kv entries IH]; intros st Hnd; simpl; [assumption|].
  apply IH. now apply entry_effect_fabric_keys_NoDup.
Qed.

(** The fabric a well-shaped fabric key creates. *)
Lemma owner_fabric_key h sub value :
  h <> EmptyString -> Js.all_hex h = true -> Js.dot_plus sub = true ->
  owner ("f/" ++ h ++ "/" ++ sub, value) = Some (Js.parseInt16 h).
Proof.
  intros Hne Hh Hsub. unfold owner.
  rewrite isIgnoredKey_fabric by apply (startsWith_append "f/").
  rewrite (startsWith_append "f/"). unfold fabric_slot.
  now rewrite match_fabric_key_intro.
Qed.

End FabricsOfFile.

(** The digits of the pattern of fabric keys, read by the code and read by
    their place value. *)
Lemma hex_digit_hexadecimal c : Js.hex_digit c = hexadecimal_digit c.
Proof. destruct c as [[] [] [] [] [] [] [] []]; reflexivity. Qed.

Lemma parseInt16_from_hexadecimal s v acc :
  hexadecimal_value s = Some v ->
  Js.parseInt16_from acc s = (acc * 16 ^ N.of_nat (String.length s) + v)%N.
Proof.
  revert v acc. induction s as [|c s IH]; intros v acc;
    cbn [hexadecimal_value Js.parseInt16_from String.length].
  - intros [= <-]. change (16 ^ N.of_nat 0)%N with 1%N. lia.
  - rewrite hex_digit_hexadecimal.
    destruct (hexadecimal_digit c) as [d|]; [|discriminate].
    destruct (hexadecimal_value s) as [w|]; [|discriminate].
    intros [= <-]. rewrite (IH w _ eq_refl).
    rewrite Nat2N.inj_succ, N.pow_succ_r'. lia.
Qed.

Lemma hexadecimal_all_hex s v :
  hexadecimal_value s = Some v -> Js.all_hex s = true.
Proof.
  revert v. induction s as [|c s IH]; intro v; simpl; [reflexivity|].
  unfold Js.is_hex. rewrite hex_digit_hexadecimal.
  destruct (hexadecimal_digit c); [|discriminate].
  destruct (hexadecimal_value s) as [w|]; [|discriminate].
  intros _. now apply (IH w).
Qed.

(** C6. Fabric index segments are hexadecimal: segment [A] is fabric 10,
    and for every segment the pattern matches, the index the code parses is
    the number its hexadecimal digits stand for (as long as that is a safe
    integer), so that a key [f/<h>/<sub>] of a loaded file makes
    [getFabricIndices] list the hexadecimal value of [h].
    [getFabricIndices] returns the known fabric indices in ascending
    numeric order: it is sorted and a rearrangement of the keys of
    [fabrics]; after a load a safe integer is listed exactly when an entry
    of the file brings that fabric into being; and a file whose keys are all
    of the forms [f/1/*], [f/2/*], [f/3/*], [f/A/*], each form occurring,
    gives exactly [[1, 2, 3, 10]]. *)
Theorem fabric_indices_hex_sorted {runtime : Runtime} {schemas : TlvSchemas} :
  Js.parseInt16 "A" = 10%N /\
  (forall h n,
     h <> EmptyString -> hexadecimal_value h = Some n ->
     Js.safe_N n = true -> Js.parseInt16 h = n) /\
  (forall st,
     StronglySorted N.le (getFabricIndices st) /\
     Permutation (getFabricIndices st) (JsMap.keys (fabrics st))) /\
  (forall filePath content file entries st,
     readFile filePath = Ok content ->
     JSON_parse content = Ok (ParsedFile file) ->
     sdk_config file = Some entries ->
     exists st',
       load filePath st = (Ok tt, st') /\
       (forall i, Js.safe_N i = true ->
          (In i (getFabricIndices st') <->
           exists kv, In kv entries /\ owner kv = Some i)) /\
       (forall h sub value n,
          In ("f/" ++ h ++ "/" ++ sub, value) entries ->
          h <> EmptyString -> hexadecimal_value h = Some n ->
          Js.dot_plus sub = true -> Js.safe_N n = true ->
          In n (getFabricIndices st')) /\
       ((forall key value, In (key, value) entries ->
           exists h sub, In h ["1"; "2"; "3"; "A"] /\ Js.dot_plus sub = true /\
                         key = "f/" ++ h ++ "/" ++ sub) ->
        (forall h, In h ["1"; "2"; "3"; "A"] ->
           exists sub value, In ("f/" ++ h ++ "/" ++ sub, value) entries) ->
        getFabricIndices st' = [1; 2; 3; 10]%N)).
Proof.
  assert (Hhex : forall h n, hexadecimal_value h = Some n ->
                             Js.parseInt16 h = n).
  { intros h n Hn. unfold Js.parseInt16.
    rewrite (parseInt16_from_hexadecimal _ _ Hn). lia. }
  split; [reflexivity|]. split.
  { intros h n _ Hn _. now apply Hhex. }
  split.
  { intro st. split; [apply sort_numeric_sorted | apply sort_numeric_perm]. }
  intros filePath content file entries st Hread Hparse Hsdk.
  eexists. split; [apply (load_run _ _ Hread Hparse)|].
  rewrite Hsdk.
  set (st0 := with_replConfig _ (clear st)).
  assert (Hkeys : forall i,
             In i (JsMap.keys (fabrics (entries_effect entries st0))) <->
             exists kv, In kv entries /\ owner kv = Some i).
  { intro i. rewrite entries_effect_fabric_keys. simpl. tauto. }
  split.
  { intros i _. unfold getFabricIndices. now rewrite in_sort_numeric. }
  split.
  { intros h sub value n Hin Hne Hn Hsub _.
    unfold getFabricIndices. rewrite in_sort_numeric, Hkeys.
    exists ("f/" ++ h ++ "/" ++ sub, value). split; [assumption|].
    rewrite owner_fabric_key;
      [now rewrite (Hhex _ _ Hn) | assumption
       | now apply (hexadecimal_all_hex _ Hn) | assumption]. }
  intros Hshape Hall.
  apply strictly_sorted_ext.
  - apply sort_numeric_strict, entries_effect_fabric_keys_NoDup. constructor.
  - repeat (constructor; [|repeat (constructor; try lia)]). constructor.
  - intro i. unfold getFabricIndices. rewrite in_sort_numeric, Hkeys.
    split.
    + intros ([key value] & Hin & Hown).
      destruct (Hshape _ _ Hin) as (h & sub & Hh & Hsub & ->).
      simpl in Hh.
      destruct Hh as [<-|[<-|[<-|[<-|[]]]]];
        rewrite owner_fabric_key in Hown by (auto; discriminate);
        injection Hown as <-; simpl; auto.
    + intro Hi.
      assert (Hh : exists h, In h ["1"; "2"; "3"; "A"] /\ Js.parseInt16 h = i).
      { simpl in Hi. destruct Hi as [<-|[<-|[<-|[<-|[]]]]];
          [exists "1" | exists "2" | exists "3" | exists "A"];
          simpl; auto 6. }
      destruct Hh as (h & Hh & <-).
      destruct (Hall h Hh) as (sub & value & Hin).
      exists ("f/" ++ h ++ "/" ++ sub, value). split; [assumption|].
      destruct (Hshape _ _ Hin) as (h' & sub' & Hh' & Hsub' & Heq).
      assert (sub = sub') as ->.
      { simpl in Hh, Hh'.
        destruct Hh as [<-|[<-|[<-|[<-|[]]]]];
          destruct Hh' as [<-|[<-|[<-|[<-|[]]]]];
          simpl in Heq; congruence. }
      simpl in Hh.
      destruct Hh as [<-|[<-|[<-|[<-|[]]]]];
        apply owner_fabric_key; auto; discriminate.
Qed.

Lemma fabric_indices_hex_sorted_witness :
  exists st',
    load (runtime := Sample.runtime_with (Sample.file_of Sample.hex_indices))
         (schemas := Sample.schemas) "chip.json" new_ChipConfigData =
      (Ok tt, st') /\
    getFabricIndices st' = [1; 2; 3; 10]%N.
Proof.
  destruct (@fabric_indices_hex_sorted
              (Sample.runtime_with (Sample.file_of Sample.hex_indices))
              Sample.schemas) as (_ & _ & _ & Hload).
  destruct (Hload "chip.json" "<chip.json>"
                  {| sdk_config := Some Sample.hex_indices;
                     repl_config := None |}
                  Sample.hex_indices new_ChipConfigData
                  eq_refl eq_refl eq_refl)
    as (st' & Hrun & _ & _ & Hindices).
  exists st'. split; [exact Hrun|].
  apply Hindices.
  - intros key value Hin. simpl in Hin.
    destruct Hin as [[= <- <-]|[[= <- <-]|[[= <- <-]|[[= <- <-]|[]]]]];
      [exists "3" | exists "1" | exists "A" | exists "2"];
      exists "n"; simpl; auto 8.
  - intros h Hh. exists "n", "dGVzdA==". simpl in Hh.
    destruct Hh as [<-|[<-|[<-|[<-|[]]]]]; simpl; auto 8.
Defined.

(** ** What one key leaves untouched *)

Section Frames.
Context {runtime : Runtime} {schemas : TlvSchemas}.

Lemma entries_effect_app (l1 l2 : JsMap.t string string) st :
  entries_effect (l1 ++ l2)%list st = entries_effect l2 (entries_effect l1 st).
Proof. unfold entries_effect. apply fold_left_app. Qed.

Lemma entries_effect_preserves (Q : ChipConfigData -> Prop) entries st :
  (forall kv s, In kv entries -> Q s -> Q (entry_effect kv s)) ->
  Q st -> Q (entries_effect entries st).
Proof.
  unfold entries_effect. revert st.
  induction entries as [|kv entries IH]; intros st Hstep Hst; simpl;
    [assumption|].
  apply IH.
  - intros kv' s Hin. apply Hstep. now right.
  - apply Hstep; [now left | assumption].
Qed.

(** An entry of a well-formed file splits it into the entries before and
    after, none of which has its key. *)
Lemma split_at_key (entries : JsMap.t string string) key value :
  NoDup (JsMap.keys entries) -> In (key, value) entries ->
  exists l1 l2,
    entries = (l1 ++ (key, value) :: l2)%list /\
    (forall kv, In kv l1 -> fst kv <> key) /\
    (forall kv, In kv l2 -> fst kv <> key).
Proof.
  intros Hnd Hin. apply in_split in Hin as (l1 & l2 & ->).
  exists l1, l2. split; [reflexivity|].
  unfold JsMap.keys in Hnd. rewrite map_app in Hnd. simpl in Hnd.
  apply NoDup_remove_2 in Hnd.
  split; intros kv Hkv Heq; apply Hnd, in_or_app;
    [left | right]; rewrite <- Heq; now apply in_map.
Qed.

Lemma generic_entry_effect k v st :
  generic (entry_effect (k, v) st) = generic st \/
  generic (entry_effect (k, v) st) = JsMap.set (generic st) k v.
Proof.
  unfold entry_effect.
  destruct (isIgnoredKey k); [now left|].
  destruct (Js.startsWith k "f/").
  { left. unfold fabric_key_effect. now destruct (fabric_slot k) as [[]|]. }
  destruct (Js.startsWith k "g/"); [|now right].
  unfold global_key_effect.
  destruct (k =? "g/fidx"); [now left|].
  destruct (k =? "g/lkgt"); [now left|].
  destruct (k =? "g/sri"); [now left|].
  destruct (Js.startsWith k "g/s/"); [|now left].
  destruct (TlvSessionResumptionEntry_decode _); [now left | now right].
Qed.

Lemma generic_entry_effect_other k v st key :
  k <> key ->
  JsMap.get (generic (entry_effect (k, v) st)) key = JsMap.get (generic st) key.
Proof.
  intro Hne. destruct (generic_entry_effect k v st) as [-> | ->];
    [reflexivity|]. now apply JsMapFacts.get_set_ne.
Qed.

Lemma ignored_entry_effect k v st :
  ignored (entry_effect (k, v) st) =
  if isIgnoredKey k then JsMap.set (ignored st) k v else ignored st.
Proof.
  unfold entry_effect.
  destruct (isIgnoredKey k); [reflexivity|].
  destruct (Js.startsWith k "f/").
  { unfold fabric_key_effect. now destruct (fabric_slot k) as [[]|]. }
  destruct (Js.startsWith k "g/"); [|reflexivity].
  unfold global_key_effect.
  destruct (k =? "g/fidx"); [reflexivity|].
  destruct (k =? "g/lkgt"); [reflexivity|].
  destruct (k =? "g/sri"); [reflexivity|].
  destruct (Js.startsWith k "g/s/"); [|reflexivity].
  now destruct (TlvSessionResumptionEntry_decode _).
Qed.

Lemma ignored_entry_effect_other k v st key :
  k <> key ->
  JsMap.get (ignored (entry_effect (k, v) st)) key = JsMap.get (ignored st) key.
Proof.
  intro Hne. rewrite ignored_entry_effect.
  destruct (isIgnoredKey k); [|reflexivity]. now apply JsMapFacts.get_set_ne.
Qed.

(** Writing a field of a fabric leaves its resumption maps alone. *)
Lemma write_field_resumptions fd e f :
  Fabric.resumptions (write_field fd e f) = Fabric.resumptions f /\
  Fabric.resumptionsDecoded (write_field fd e f) = Fabric.resumptionsDecoded f.
Proof.
  destruct fd; simpl; auto.
  - now destruct (TlvFabricMetadata_decode _).
  - now destruct (TlvGroupKeySet_decode _).
  - now destruct (TlvSessionResumptionDetails_decode _).
Qed.

Lemma holds_resumption_put idx rid e d idx' f' st :
  holds_resumption idx rid e d st ->
  (forall f, JsMap.get (fabrics st) idx = Some f -> idx' = idx ->
     JsMap.get (Fabric.resumptions f') rid =
       JsMap.get (Fabric.resumptions f) rid /\
     JsMap.get (Fabric.resumptionsDecoded f') rid =
       JsMap.get (Fabric.resumptionsDecoded f) rid) ->
  holds_resumption idx rid e d (put_fabric idx' f' st).
Proof.
  intros (f & Hf & He & Hd) Hsame. unfold holds_resumption.
  destruct (N.eq_dec idx' idx) as [->|Hne].
  - exists f'. rewrite get_put_eq.
    destruct (Hsame f Hf eq_refl) as [-> ->]. auto.
  - exists f. rewrite get_put_ne by assumption. auto.
Qed.

Lemma holds_resumption_other idx rid e d k v st :
  k <> "g/s/" ++ rid ->
  holds_resumption idx rid e d st ->
  holds_resumption idx rid e d (entry_effect (k, v) st).
Proof.
  intros Hne Hst. unfold entry_effect.
  destruct (isIgnoredKey k); [exact Hst|].
  destruct (Js.startsWith k "f/").
  { unfold fabric_key_effect.
    destruct (fabric_slot k) as [[idx' fd]|]; [|exact Hst].
    apply holds_resumption_put; [exact Hst|].
    intros f Hf ->. unfold fabric_or_new. rewrite Hf.
    destruct (write_field_resumptions fd (decodeEntry v) f) as [-> ->]. auto. }
  destruct (Js.startsWith k "g/"); [|exact Hst].
  unfold global_key_effect.
  destruct (k =? "g/fidx"); [exact Hst|].
  destruct (k =? "g/lkgt"); [exact Hst|].
  destruct (k =? "g/sri"); [exact Hst|].
  destruct (Js.startsWith k "g/s/") eqn:Hgs; [|exact Hst].
  destruct (TlvSessionResumptionEntry_decode _) as [d'|]; [|exact Hst].
  assert (Hrid : Js.slice 4 k <> rid).
  { intros <-. apply Hne. exact (startsWith_slice _ _ Hgs). }
  apply holds_resumption_put; [exact Hst|].
  intros f Hf ->. unfold fabric_or_new. rewrite Hf. simpl.
  rewrite !JsMapFacts.get_set_ne by assumption. auto.
Qed.

Lemma isIgnoredKey_resumption rid : isIgnoredKey ("g/s/" ++ rid) = false.
Proof.
  destruct (isIgnoredKey _) eqn:Hi; [|reflexivity].
  apply isIgnoredKey_spec in Hi. simpl in Hi.
  repeat (destruct Hi as [Hi|Hi]; [discriminate Hi|]). destruct Hi.
Qed.

(** What the entry [g/s/<rid>] itself does. *)
Lemma entry_effect_resumption rid value st :
  entry_effect ("g/s/" ++ rid, value) st =
  match TlvSessionResumptionEntry_decode (raw (decodeEntry value)) with
  | Ok decoded =>
      put_fabric (Tlv.fabricIndex decoded)
        (Fabric.resumptionsDecoded_set rid decoded
           (Fabric.resumptions_set rid (decodeEntry value)
              (fabric_or_new st (Tlv.fabricIndex decoded)))) st
  | Throw _ => with_generic (JsMap.set (generic st) ("g/s/" ++ rid) value) st
  end.
Proof.
  unfold entry_effect. rewrite isIgnoredKey_resumption.
  change (Js.startsWith ("g/s/" ++ rid) "f/") with false.
  change (Js.startsWith ("g/s/" ++ rid) "g/") with true.
  unfold global_key_effect.
  change ("g/s/" ++ rid =? "g/fidx") with false.
  change ("g/s/" ++ rid =? "g/lkgt") with false.
  change ("g/s/" ++ rid =? "g/sri") with false.
  cbv iota. rewrite (startsWith_append "g/s/").
  now rewrite (slice_append "g/s/").
Qed.

End Frames.

(** A resumption entry of a well-formed list of entries, run from a state
    with empty top-level buckets. *)
Lemma resumption_entry_effect {runtime : Runtime} {schemas : TlvSchemas}
  (entries : JsMap.t string string) (st0 : ChipConfigData)
  (value resumptionId : string) :
  generic st0 = JsMap.empty /\ ignored st0 = JsMap.empty ->
  NoDup (JsMap.keys entries) ->
  In ("g/s/" ++ resumptionId, value) entries ->
  match TlvSessionResumptionEntry_decode (Buffer_from_base64 value) with
  | Ok decoded =>
      holds_resumption (Tlv.fabricIndex decoded) resumptionId
        (decodeEntry value) decoded (entries_effect entries st0) /\
      JsMap.get (generic (entries_effect entries st0))
                ("g/s/" ++ resumptionId) = None /\
      JsMap.get (ignored (entries_effect entries st0))
                ("g/s/" ++ resumptionId) = None
  | Throw _ =>
      JsMap.get (generic (entries_effect entries st0))
                ("g/s/" ++ resumptionId) = Some value
  end.
Proof.
  intros Hst0 Hnd Hin.
  destruct (split_at_key _ _ _ Hnd Hin) as (l1 & l2 & -> & Hl1 & Hl2).
  rewrite entries_effect_app.
  change (entries_effect ((?k, ?v) :: l2) ?s)
    with (entries_effect l2 (entry_effect (k, v) s)).
  set (s1 := entries_effect l1 st0).
  assert (Hgen1 : JsMap.get (generic s1) ("g/s/" ++ resumptionId) = None).
  { apply (entries_effect_preserves
             (fun s => JsMap.get (generic s) ("g/s/" ++ resumptionId) = None));
      [|now rewrite (proj1 Hst0)].
    intros [k v] s Hkv Hs. rewrite generic_entry_effect_other; auto.
    apply (Hl1 _ Hkv). }
  assert (Hign1 : JsMap.get (ignored s1) ("g/s/" ++ resumptionId) = None).
  { apply (entries_effect_preserves
             (fun s => JsMap.get (ignored s) ("g/s/" ++ resumptionId) = None));
      [|now rewrite (proj2 Hst0)].
    intros [k v] s Hkv Hs. rewrite ignored_entry_effect_other; auto.
    apply (Hl1 _ Hkv). }
  rewrite entry_effect_resumption.
  change (raw (decodeEntry value)) with (Buffer_from_base64 value).
  destruct (TlvSessionResumptionEntry_decode (Buffer_from_base64 value))
    as [decoded|err].
  - split; [|split].
    + apply (entries_effect_preserves
               (holds_resumption (Tlv.fabricIndex decoded) resumptionId
                  (decodeEntry value) decoded)).
      * intros [k v] s Hkv. apply holds_resumption_other. apply (Hl2 _ Hkv).
      * eexists. rewrite get_put_eq. split; [reflexivity|]. simpl.
        now rewrite !JsMapFacts.get_set_eq.
    + apply (entries_effect_preserves
               (fun s => JsMap.get (generic s) ("g/s/" ++ resumptionId) = None));
        [|exact Hgen1].
      intros [k v] s Hkv Hs. rewrite generic_entry_effect_other; auto.
      apply (Hl2 _ Hkv).
    + apply (entries_effect_preserves
               (fun s => JsMap.get (ignored s) ("g/s/" ++ resumptionId) = None));
        [|exact Hign1].
      intros [k v] s Hkv Hs. rewrite ignored_entry_effect_other; auto.
      apply (Hl2 _ Hkv).
  - apply (entries_effect_preserves
             (fun s => JsMap.get (generic s) ("g/s/" ++ resumptionId) =
                       Some value)).
    + intros [k v] s Hkv Hs. rewrite generic_entry_effect_other; auto.
      apply (Hl2 _ Hkv).
    + simpl. apply JsMapFacts.get_set_eq.
Qed.


(** C5. In a file that [load] reads, take an entry whose key is
    [g/s/<resumptionId>].  When its payload decodes as a session resumption
    entry naming fabric N, the loaded state has a fabric N, which holds the
    entry under [resumptionId] in [resumptions] and the decoded record in
    [resumptionsDecoded], and the key is in no top-level bucket.  When its
    payload does not decode, the generic bucket holds the key with its
    value. *)
Theorem session_resumption_ownership {runtime : Runtime} {schemas : TlvSchemas}
  (filePath content : string) (file : ChipConfigFile)
  (entries : JsMap.t string string) (st : ChipConfigData)
  (key value resumptionId : string) :
  readFile filePath = Ok content ->
  JSON_parse content = Ok (ParsedFile file) ->
  sdk_config file = Some entries ->
  well_formed file ->
  In (key, value) entries ->
  key = "g/s/" ++ resumptionId ->
  exists st',
    load filePath st = (Ok tt, st') /\
    match TlvSessionResumptionEntry_decode (Buffer_from_base64 value) with
    | Ok decoded =>
        (exists fabric,
           getFabric st' (Tlv.fabricIndex decoded) = Some fabric /\
           JsMap.get (Fabric.resumptions fabric) resumptionId =
             Some (decodeEntry value) /\
           JsMap.get (Fabric.resumptionsDecoded fabric) resumptionId =
             Some decoded) /\
        JsMap.get (generic st') key = None /\
        JsMap.get (ignored st') key = None
    | Throw _ => JsMap.get (generic st') key = Some value
    end.
Proof.
  intros Hread Hparse Hsdk Hnd Hin ->.
  unfold well_formed in Hnd. rewrite Hsdk in Hnd.
  eexists. split; [apply (load_run _ _ Hread Hparse)|].
  rewrite Hsdk.
  apply resumption_entry_effect; auto.
Qed.

Lemma session_resumption_ownership_witness :
  exists st',
    load (runtime := Sample.runtime_with
                       (Sample.file_of Sample.resumption_entries))
         (schemas := Sample.schemas) "chip.json" new_ChipConfigData =
      (Ok tt, st') /\
    (exists fabric,
       getFabric st' 1 = Some fabric /\
       JsMap.get (Fabric.resumptions fabric) "resumption1" =
         Some {| raw := Sample.decode_base64 "FSQBASQCcBg=";
                 base64 := "FSQBASQCcBg=" |} /\
       JsMap.get (Fabric.resumptionsDecoded fabric) "resumption1" =
         Some {| Tlv.fabricIndex := 1; Tlv.peerNodeId := 112 |}) /\
    JsMap.get (generic st') "g/s/resumption1" = None /\
    JsMap.get (ignored st') "g/s/resumption1" = None.
Proof.
  destruct (@session_resumption_ownership
              (Sample.runtime_with (Sample.file_of Sample.resumption_entries))
              Sample.schemas "chip.json" "<chip.json>"
              {| sdk_config := Some Sample.resumption_entries;
                 repl_config := None |}
              Sample.resumption_entries new_ChipConfigData
              "g/s/resumption1" "FSQBASQCcBg=" "resumption1"
              eq_refl eq_refl eq_refl)
    as (st' & Hrun & Hheld).
  - repeat constructor; simpl; intuition discriminate.
  - left. reflexivity.
  - reflexivity.
  - exists st'. split; [exact Hrun | exact Hheld].
Defined.

(** ** Slots *)

(** Splits on the next test or decoding result of a state transformer. *)
Ltac case_effect :=
  match goal with
  | |- context [if ?c then _ else _] => destruct c
  | |- context [match ?d with Ok _ => _ | Throw _ => _ end] => destruct d
  | |- context [match ?o with Some _ => _ | None => _ end] => destruct o
  | |- context [let (_, _) := ?p in _] => destruct p
  end.

Section Slots.
Context {runtime : Runtime} {schemas : TlvSchemas}.

(** Writing a field leaves every other field alone. *)
Lemma write_field_other fd' e f fd :
  fd' <> fd ->
  stored (write_field fd' e f) fd = stored f fd /\
  decoded_is_set (write_field fd' e f) fd = decoded_is_set f fd.
Proof.
  intro Hne.
  destruct fd', fd; simpl; try congruence;
    try destruct (TlvFabricMetadata_decode _);
    try destruct (TlvGroupKeySet_decode _);
    try destruct (TlvSessionResumptionDetails_decode _);
    simpl; auto;
    rewrite ?JsMapFacts.get_set_ne, ?JsMapFacts.has_set_ne by congruence;
    auto.
Qed.

(** Writing a field stores the entry; the decoded companion is set by a
    successful decoding and keeps its state when the decoder throws. *)
Lemma write_field_same fd e f :
  stored (write_field fd e f) fd = Some e /\
  (decode_throws fd (raw e) = true ->
   decoded_is_set (write_field fd e f) fd = decoded_is_set f fd).
Proof.
  destruct fd; simpl;
    try destruct (TlvFabricMetadata_decode _);
    try destruct (TlvGroupKeySet_decode _);
    try destruct (TlvSessionResumptionDetails_decode _);
    simpl; rewrite ?JsMapFacts.get_set_eq;
    (split; [reflexivity | intro Hthrows; try discriminate Hthrows; reflexivity]).
Qed.

Lemma slot_view_put idx fd idx' f' st :
  (idx' = idx ->
   stored f' fd = stored (fabric_or_new st idx) fd /\
   decoded_is_set f' fd = decoded_is_set (fabric_or_new st idx) fd) ->
  slot_view idx fd (put_fabric idx' f' st) = slot_view idx fd st.
Proof.
  intro Hsame. unfold slot_view, fabric_or_new at 1 2.
  destruct (N.eq_dec idx' idx) as [->|Hne].
  - rewrite get_put_eq. destruct (Hsame eq_refl) as [-> ->]. reflexivity.
  - rewrite get_put_ne by assumption. reflexivity.
Qed.

(** A key that addresses another slot leaves the slot as it is. *)
Lemma slot_view_other idx fd k v st :
  fabric_slot k <> Some (idx, fd) ->
  slot_view idx fd (entry_effect (k, v) st) = slot_view idx fd st.
Proof.
  intro Hne. unfold entry_effect.
  destruct (isIgnoredKey k); [reflexivity|].
  destruct (Js.startsWith k "f/").
  { unfold fabric_key_effect.
    destruct (fabric_slot k) as [[idx' fd']|]; [|reflexivity].
    apply slot_view_put. intros ->.
    apply write_field_other. congruence. }
  destruct (Js.startsWith k "g/"); [|reflexivity].
  unfold global_key_effect.
  destruct (k =? "g/fidx"); [reflexivity|].
  destruct (k =? "g/lkgt"); [reflexivity|].
  destruct (k =? "g/sri"); [reflexivity|].
  destruct (Js.startsWith k "g/s/"); [|reflexivity].
  destruct (TlvSessionResumptionEntry_decode _); [|reflexivity].
  apply slot_view_put. intros <-. now destruct fd.
Qed.

(** The key that addresses the slot. *)
Lemma slot_view_same idx fd k v st :
  fabric_slot k = Some (idx, fd) ->
  fst (slot_view idx fd (entry_effect (k, v) st)) = Some (decodeEntry v) /\
  (decode_throws fd (Buffer_from_base64 v) = true ->
   snd (slot_view idx fd (entry_effect (k, v) st)) =
   snd (slot_view idx fd st)).
Proof.
  intro Hslot. unfold entry_effect.
  rewrite (isIgnoredKey_fabric _ (fabric_slot_startsWith _ Hslot)).
  rewrite (fabric_slot_startsWith _ Hslot).
  unfold fabric_key_effect. rewrite Hslot.
  unfold slot_view.
  replace (fabric_or_new (put_fabric idx _ st) idx)
    with (write_field fd (decodeEntry v) (fabric_or_new st idx))
    by (unfold fabric_or_new at 2; now rewrite get_put_eq).
  simpl. apply write_field_same.
Qed.

Lemma slot_view_exists idx fd st e b :
  slot_view idx fd st = (Some e, b) ->
  exists fabric,
    getFabric st idx = Some fabric /\ stored fabric fd = Some e /\
    decoded_is_set fabric fd = b.
Proof.
  unfold slot_view, fabric_or_new, getFabric.
  destruct (JsMap.get (fabrics st) idx) as [fabric|].
  - intros [= <- <-]. eauto.
  - now destruct fd.
Qed.

(** Global keys *)

Lemma fidx_entry_effect_other k v st :
  k <> "g/fidx" ->
  fabricIndexList (globals (entry_effect (k, v) st)) =
    fabricIndexList (globals st) /\
  fabricIndexListDecoded (globals (entry_effect (k, v) st)) =
    fabricIndexListDecoded (globals st).
Proof.
  intro Hne. apply String.eqb_neq in Hne.
  unfold entry_effect, fabric_key_effect, global_key_effect. rewrite Hne.
  repeat case_effect; simpl; auto.
Qed.

Lemma lkgt_entry_effect_other k v st :
  k <> "g/lkgt" ->
  lastKnownGoodTime (globals (entry_effect (k, v) st)) =
    lastKnownGoodTime (globals st) /\
  lastKnownGoodTimeDecoded (globals (entry_effect (k, v) st)) =
    lastKnownGoodTimeDecoded (globals st).
Proof.
  intro Hne. apply String.eqb_neq in Hne.
  unfold entry_effect, fabric_key_effect, global_key_effect. rewrite Hne.
  repeat case_effect; simpl; auto.
Qed.

Lemma sri_entry_effect_other k v st :
  k <> "g/sri" ->
  resumptionIndex (sessions (entry_effect (k, v) st)) =
    resumptionIndex (sessions st) /\
  resumptionIndexDecoded (sessions (entry_effect (k, v) st)) =
    resumptionIndexDecoded (sessions st).
Proof.
  intro Hne. apply String.eqb_neq in Hne.
  unfold entry_effect, fabric_key_effect, global_key_effect. rewrite Hne.
  repeat case_effect; simpl; auto.
Qed.

(** What the three plain global keys themselves do. *)
Lemma fidx_entry_effect v st :
  fabricIndexList (globals (entry_effect ("g/fidx", v) st)) =
    Some (decodeEntry v) /\
  (forall err, TlvFabricIndexList_decode (Buffer_from_base64 v) = Throw err ->
     fabricIndexListDecoded (globals (entry_effect ("g/fidx", v) st)) =
     fabricIndexListDecoded (globals st)).
Proof.
  simpl. destruct (TlvFabricIndexList_decode _); simpl; split; auto.
  discriminate.
Qed.

Lemma lkgt_entry_effect v st :
  lastKnownGoodTime (globals (entry_effect ("g/lkgt", v) st)) =
    Some (decodeEntry v) /\
  (forall err, TlvLastKnownGoodTime_decode (Buffer_from_base64 v) = Throw err ->
     lastKnownGoodTimeDecoded (globals (entry_effect ("g/lkgt", v) st)) =
     lastKnownGoodTimeDecoded (globals st)).
Proof.
  simpl. destruct (TlvLastKnownGoodTime_decode _); simpl; split; auto.
  discriminate.
Qed.

Lemma sri_entry_effect v st :
  resumptionIndex (sessions (entry_effect ("g/sri", v) st)) =
    Some (decodeEntry v) /\
  (forall err,
     TlvSessionResumptionIndex_decode (Buffer_from_base64 v) = Throw err ->
     resumptionIndexDecoded (sessions (entry_effect ("g/sri", v) st)) =
     resumptionIndexDecoded (sessions st)).
Proof.
  simpl. destruct (TlvSessionResumptionIndex_decode _); simpl; split; auto.
  discriminate.
Qed.

End Slots.

(** ** Malformed payloads *)

(** C7, counterexample.  The file holds the one key [g/s/bad] with a payload
    that is no TLV.  The key is global and its decoding fails, yet after the
    load no entry of the state holds its raw bytes: the pair went to the
    generic bucket, which keeps the base64 string only. *)
Lemma malformed_payload_keeps_raw_counterexample :
  load (runtime := Sample.runtime_with (Sample.file_of Sample.bad_resumption))
       (schemas := Sample.schemas) "chip.json" new_ChipConfigData =
    (Ok tt,
     with_generic [("g/s/bad", "aW52YWxpZA==")] new_ChipConfigData) /\
  ~ malformed_payload_keeps_raw.
Proof.
  split; [reflexivity|].
  intro Hclaim.
  destruct (Hclaim (Sample.runtime_with (Sample.file_of Sample.bad_resumption))
                   Sample.schemas "chip.json" "<chip.json>"
                   {| sdk_config := Some Sample.bad_resumption;
                      repl_config := None |}
                   Sample.bad_resumption new_ChipConfigData
                   "g/s/bad" "aW52YWxpZA=="
                   eq_refl eq_refl eq_refl)
    as (st' & Hrun & Hstored).
  - repeat constructor. simpl. tauto.
  - left. reflexivity.
  - right. right. right. right. exists "bad". split; [reflexivity|].
    eexists. reflexivity.
  - injection Hrun as <-.
    destruct Hstored as [H|[H|[H|(idx & fabric & H & _)]]]; discriminate H.
Qed.

Section Unfiled.
Context {runtime : Runtime} {schemas : TlvSchemas}.

Lemma no_resumption_put rid idx f st :
  no_resumption rid st ->
  JsMap.get (Fabric.resumptions f) rid = None /\
  JsMap.get (Fabric.resumptionsDecoded f) rid = None ->
  no_resumption rid (put_fabric idx f st).
Proof.
  intros Hst Hf i f'. unfold getFabric.
  destruct (N.eq_dec idx i) as [<-|Hne].
  - rewrite get_put_eq. now intros [= <-].
  - rewrite get_put_ne by assumption. apply Hst.
Qed.

Lemma no_resumption_or_new rid st idx :
  no_resumption rid st ->
  JsMap.get (Fabric.resumptions (fabric_or_new st idx)) rid = None /\
  JsMap.get (Fabric.resumptionsDecoded (fabric_or_new st idx)) rid = None.
Proof.
  intro Hst. unfold fabric_or_new.
  destruct (JsMap.get (fabrics st) idx) as [f|] eqn:Hg.
  - now apply (Hst idx).
  - split; reflexivity.
Qed.

(** An entry leaves the fabrics without a resumption entry under [rid],
    unless it is the key [g/s/<rid>] with a payload that decodes. *)
Lemma no_resumption_entry_effect rid key value st :
  (key = "g/s/" ++ rid ->
   exists err,
     TlvSessionResumptionEntry_decode (Buffer_from_base64 value) = Throw err) ->
  no_resumption rid st -> no_resumption rid (entry_effect (key, value) st).
Proof.
  intros Hkey Hst. unfold entry_effect.
  destruct (isIgnoredKey key); [exact Hst|].
  destruct (Js.startsWith key "f/").
  { unfold fabric_key_effect.
    destruct (fabric_slot key) as [[idx fd]|]; [|exact Hst].
    apply no_resumption_put; [assumption|].
    destruct (write_field_resumptions fd (decodeEntry value)
                (fabric_or_new st idx)) as [-> ->].
    now apply no_resumption_or_new. }
  destruct (Js.startsWith key "g/"); [|exact Hst].
  unfold global_key_effect.
  destruct (key =? "g/fidx"); [exact Hst|].
  destruct (key =? "g/lkgt"); [exact Hst|].
  destruct (key =? "g/sri"); [exact Hst|].
  destruct (Js.startsWith key "g/s/") eqn:Hs; [|exact Hst].
  change (raw (decodeEntry value)) with (Buffer_from_base64 value).
  destruct (TlvSessionResumptionEntry_decode (Buffer_from_base64 value))
    as [decoded|e] eqn:Hd; [|exact Hst].
  assert (Hrid : Js.slice 4 key <> rid).
  { intros <-. destruct Hkey as [err Herr]; [|congruence].
    exact (startsWith_slice _ _ Hs). }
  apply no_resumption_put; [assumption|].
  destruct (no_resumption_or_new (Tlv.fabricIndex decoded) Hst) as [Hr Hrd].
  simpl. now rewrite !JsMapFacts.get_set_ne by exact Hrid.
Qed.

Lemma keys_functional (entries : JsMap.t string string) key value value' :
  NoDup (JsMap.keys entries) ->
  In (key, value) entries -> In (key, value') entries -> value' = value.
Proof.
  intros Hnd Hin Hin'.
  destruct (split_at_key _ _ _ Hnd Hin) as (l1 & l2 & -> & Hl1 & Hl2).
  apply in_app_or in Hin' as [H|[H|H]].
  - now destruct (Hl1 _ H).
  - congruence.
  - now destruct (Hl2 _ H).
Qed.

(** The entry [g/s/<rid>] of a well-formed file, with a payload that does
    not decode: after the load the key is not in the ignored bucket and no
    fabric holds a resumption entry under [rid]. *)
Lemma undecodable_resumption_unfiled (entries : JsMap.t string string)
  (st0 : ChipConfigData) rid value err :
  NoDup (JsMap.keys entries) ->
  In ("g/s/" ++ rid, value) entries ->
  TlvSessionResumptionEntry_decode (Buffer_from_base64 value) = Throw err ->
  fabrics st0 = JsMap.empty -> ignored st0 = JsMap.empty ->
  JsMap.get (ignored (entries_effect entries st0)) ("g/s/" ++ rid) = None /\
  no_resumption rid (entries_effect entries st0).
Proof.
  intros Hnd Hin Herr Hf0 Hi0. split.
  - apply (entries_effect_preserves
             (fun s => JsMap.get (ignored s) ("g/s/" ++ rid) = None));
      [|now rewrite Hi0].
    intros [k v] s _ Hs. rewrite ignored_entry_effect.
    destruct (isIgnoredKey k) eqn:Hk; [|assumption].
    rewrite JsMapFacts.get_set_ne; [assumption|].
    intros ->. now rewrite isIgnoredKey_resumption in Hk.
  - apply entries_effect_preserves.
    + intros [k v] s Hkv Hs. apply no_resumption_entry_effect; [|assumption].
      intros ->. exists err.
      now rewrite (keys_functional _ _ _ _ Hnd Hin Hkv).
    + intros idx f. unfold getFabric. rewrite Hf0. discriminate.
Qed.

End Unfiled.

(** C7, amended.  [load] of a readable, parsable file never aborts, whatever
    the payloads.  When the file is well formed: for a fabric-scoped key
    whose fabric index and key-set index are safe integers and that is the
    only key of the file addressing its slot, the loaded fabric holds the raw
    bytes and the original base64 string in that slot, and when the payload
    is malformed the decoded companion of the slot is unset; for [g/fidx],
    [g/lkgt] and [g/sri] the entry is stored and a malformed payload leaves
    the decoded field unset; for [g/s/<id>] with a malformed payload only the
    key and its base64 string are kept, in the generic bucket: the key is not
    in the ignored bucket and no fabric holds a resumption entry, raw or
    decoded, under [<id>]. *)
Theorem decode_failure_is_swallowed {runtime : Runtime} {schemas : TlvSchemas}
  (filePath content : string) (file : ChipConfigFile)
  (entries : JsMap.t string string) (st : ChipConfigData) :
  readFile filePath = Ok content ->
  JSON_parse content = Ok (ParsedFile file) ->
  sdk_config file = Some entries ->
  exists st',
    load filePath st = (Ok tt, st') /\
    (well_formed file ->
    (forall key value idx fd,
       In (key, value) entries ->
       fabric_slot key = Some (idx, fd) ->
       slot_in_range (InFabric idx fd) = true ->
       (forall key' value', In (key', value') entries ->
          fabric_slot key' = Some (idx, fd) -> key' = key) ->
       exists fabric,
         getFabric st' idx = Some fabric /\
         stored fabric fd = Some (decodeEntry value) /\
         (decode_throws fd (Buffer_from_base64 value) = true ->
          decoded_is_set fabric fd = false)) /\
    (forall value, In ("g/fidx", value) entries ->
       fabricIndexList (globals st') = Some (decodeEntry value) /\
       forall err,
         TlvFabricIndexList_decode (Buffer_from_base64 value) = Throw err ->
         fabricIndexListDecoded (globals st') = None) /\
    (forall value, In ("g/lkgt", value) entries ->
       lastKnownGoodTime (globals st') = Some (decodeEntry value) /\
       forall err,
         TlvLastKnownGoodTime_decode (Buffer_from_base64 value) = Throw err ->
         lastKnownGoodTimeDecoded (globals st') = None) /\
    (forall value, In ("g/sri", value) entries ->
       resumptionIndex (sessions st') = Some (decodeEntry value) /\
       forall err,
         TlvSessionResumptionIndex_decode (Buffer_from_base64 value) =
           Throw err ->
         resumptionIndexDecoded (sessions st') = None) /\
    (forall resumptionId value err,
       In ("g/s/" ++ resumptionId, value) entries ->
       TlvSessionResumptionEntry_decode (Buffer_from_base64 value) =
         Throw err ->
       JsMap.get (generic st') ("g/s/" ++ resumptionId) = Some value /\
       JsMap.get (ignored st') ("g/s/" ++ resumptionId) = None /\
       forall idx fabric,
         getFabric st' idx = Some fabric ->
         JsMap.get (Fabric.resumptions fabric) resumptionId = None /\
         JsMap.get (Fabric.resumptionsDecoded fabric) resumptionId = None)).
Proof.
  intros Hread Hparse Hsdk.
  eexists. split; [apply (load_run _ _ Hread Hparse)|].
  intro Hnd. unfold well_formed in Hnd. rewrite Hsdk in Hnd.
  rewrite Hsdk.
  set (st0 := with_replConfig _ (clear st)).
  split; [|split; [|split; [|split]]].
  - intros key value idx fd Hin Hslot _ Honly.
    destruct (split_at_key _ _ _ Hnd Hin) as (l1 & l2 & Heq & Hl1 & Hl2).
    assert (Hother : forall kv, In kv l1 \/ In kv l2 ->
                                fabric_slot (fst kv) <> Some (idx, fd)).
    { intros [k v] Hkv Hk. simpl in Hk.
      assert (Hne : k <> key)
        by (destruct Hkv as [Hkv|Hkv]; [apply (Hl1 _ Hkv) | apply (Hl2 _ Hkv)]).
      apply Hne. apply (Honly k v); [|assumption].
      rewrite Heq. apply in_or_app. destruct Hkv; [left | right; right]; auto. }
    rewrite Heq, entries_effect_app.
    change (entries_effect ((?k, ?v) :: l2) ?s)
      with (entries_effect l2 (entry_effect (k, v) s)).
    set (s1 := entries_effect l1 st0).
    assert (H1 : slot_view idx fd s1 = (None, false)).
    { apply (entries_effect_preserves
               (fun s => slot_view idx fd s = (None, false))).
      - intros [k v] s Hkv Hs. rewrite slot_view_other; [assumption|].
        apply (Hother (k, v)). now left.
      - now destruct fd. }
    destruct (@slot_view_same _ _ idx fd key value s1 Hslot) as [Hfst Hsnd].
    rewrite H1 in Hsnd.
    set (s2 := entry_effect (key, value) s1) in *.
    assert (H2 : slot_view idx fd (entries_effect l2 s2) = slot_view idx fd s2).
    { apply (entries_effect_preserves
               (fun s => slot_view idx fd s = slot_view idx fd s2));
        [|reflexivity].
      intros [k v] s Hkv Hs. rewrite slot_view_other; [assumption|].
      apply (Hother (k, v)). now right. }
    destruct (slot_view idx fd s2) as [e b] eqn:Hv. simpl in Hfst, Hsnd.
    subst e.
    destruct (@slot_view_exists idx fd _ _ _ H2) as (fabric & Hf & He & Hb).
    exists fabric. repeat split; auto. intro Hthrows. rewrite Hb. auto.
  - intros value Hin.
    destruct (split_at_key _ _ _ Hnd Hin) as (l1 & l2 & -> & Hl1 & Hl2).
    rewrite entries_effect_app.
    change (entries_effect ((?k, ?v) :: l2) ?s)
      with (entries_effect l2 (entry_effect (k, v) s)).
    set (s1 := entries_effect l1 st0).
    assert (H1 : fabricIndexListDecoded (globals s1) = None).
    { apply (entries_effect_preserves
               (fun s => fabricIndexListDecoded (globals s) = None));
        [|reflexivity].
      intros [k v] s Hkv Hs.
      now rewrite (proj2 (@fidx_entry_effect_other _ _ k v s (Hl1 _ Hkv))). }
    destruct (fidx_entry_effect value s1) as [He Hd].
    set (s2 := entry_effect ("g/fidx", value) s1) in *.
    assert (H2 : fabricIndexList (globals (entries_effect l2 s2)) =
                   fabricIndexList (globals s2) /\
                 fabricIndexListDecoded (globals (entries_effect l2 s2)) =
                   fabricIndexListDecoded (globals s2)).
    { apply (entries_effect_preserves
               (fun s => fabricIndexList (globals s) =
                           fabricIndexList (globals s2) /\
                         fabricIndexListDecoded (globals s) =
                           fabricIndexListDecoded (globals s2))); [|auto].
      intros [k v] s Hkv [Hs1 Hs2].
      destruct (@fidx_entry_effect_other _ _ k v s (Hl2 _ Hkv)) as [-> ->]. auto. }
    destruct H2 as [-> ->]. split; [assumption|].
    intros err Herr. now rewrite (Hd err Herr).
  - intros value Hin.
    destruct (split_at_key _ _ _ Hnd Hin) as (l1 & l2 & -> & Hl1 & Hl2).
    rewrite entries_effect_app.
    change (entries_effect ((?k, ?v) :: l2) ?s)
      with (entries_effect l2 (entry_effect (k, v) s)).
    set (s1 := entries_effect l1 st0).
    assert (H1 : lastKnownGoodTimeDecoded (globals s1) = None).
    { apply (entries_effect_preserves
               (fun s => lastKnownGoodTimeDecoded (globals s) = None));
        [|reflexivity].
      intros [k v] s Hkv Hs.
      now rewrite (proj2 (@lkgt_entry_effect_other _ _ k v s (Hl1 _ Hkv))). }
    destruct (lkgt_entry_effect value s1) as [He Hd].
    set (s2 := entry_effect ("g/lkgt", value) s1) in *.
    assert (H2 : lastKnownGoodTime (globals (entries_effect l2 s2)) =
                   lastKnownGoodTime (globals s2) /\
                 lastKnownGoodTimeDecoded (globals (entries_effect l2 s2)) =
                   lastKnownGoodTimeDecoded (globals s2)).
    { apply (entries_effect_preserves
               (fun s => lastKnownGoodTime (globals s) =
                           lastKnownGoodTime (globals s2) /\
                         lastKnownGoodTimeDecoded (globals s) =
                           lastKnownGoodTimeDecoded (globals s2))); [|auto].
      intros [k v] s Hkv [Hs1 Hs2].
      destruct (@lkgt_entry_effect_other _ _ k v s (Hl2 _ Hkv)) as [-> ->]. auto. }
    destruct H2 as [-> ->]. split; [assumption|].
    intros err Herr. now rewrite (Hd err Herr).
  - intros value Hin.
    destruct (split_at_key _ _ _ Hnd Hin) as (l1 & l2 & -> & Hl1 & Hl2).
    rewrite entries_effect_app.
    change (entries_effect ((?k, ?v) :: l2) ?s)
      with (entries_effect l2 (entry_effect (k, v) s)).
    set (s1 := entries_effect l1 st0).
    assert (H1 : resumptionIndexDecoded (sessions s1) = None).
    { apply (entries_effect_preserves
               (fun s => resumptionIndexDecoded (sessions s) = None));
        [|reflexivity].
      intros [k v] s Hkv Hs.
      now rewrite (proj2 (@sri_entry_effect_other _ _ k v s (Hl1 _ Hkv))). }
    destruct (sri_entry_effect value s1) as [He Hd].
    set (s2 := entry_effect ("g/sri", value) s1) in *.
    assert (H2 : resumptionIndex (sessions (entries_effect l2 s2)) =
                   resumptionIndex (sessions s2) /\
                 resumptionIndexDecoded (sessions (entries_effect l2 s2)) =
                   resumptionIndexDecoded (sessions s2)).
    { apply (entries_effect_preserves
               (fun s => resumptionIndex (sessions s) =
                           resumptionIndex (sessions s2) /\
                         resumptionIndexDecoded (sessions s) =
                           resumptionIndexDecoded (sessions s2))); [|auto].
      intros [k v] s Hkv [Hs1 Hs2].
      destruct (@sri_entry_effect_other _ _ k v s (Hl2 _ Hkv)) as [-> ->]. auto. }
    destruct H2 as [-> ->]. split; [assumption|].
    intros err Herr. now rewrite (Hd err Herr).
  - intros resumptionId value err Hin Herr.
    pose proof (@resumption_entry_effect _ _ entries st0 value resumptionId
                  (conj eq_refl eq_refl) Hnd Hin) as Hres.
    rewrite Herr in Hres. split; [exact Hres|].
    exact (@undecodable_resumption_unfiled _ _ entries st0 resumptionId value
             err Hnd Hin Herr eq_refl eq_refl).
Qed.

(** Why the slot must be addressed by one key only: of two keys for one
    slot the later one replaces the entry, and when its payload is malformed
    the decoded companion still is that of the earlier key. *)
Lemma aliased_slot_keeps_earlier_decoding :
  exists st' fabric,
    load (runtime := Sample.runtime_with
                       (Sample.file_of Sample.aliased_metadata))
         (schemas := Sample.schemas) "chip.json" new_ChipConfigData =
      (Ok tt, st') /\
    getFabric st' 1 = Some fabric /\
    option_map base64 (Fabric.metadata fabric) = Some "aW52YWxpZA==" /\
    Fabric.metadataDecoded fabric =
      Some {| Tlv.vendorId := 4939; Tlv.label := "" |}.
Proof.
  eexists. eexists.
  split; [vm_compute; reflexivity|].
  split; [vm_compute; reflexivity|].
  split; reflexivity.
Qed.

Lemma decode_failure_is_swallowed_witness :
  exists st' fabric,
    load (runtime := Sample.runtime_with (Sample.file_of Sample.bad_metadata))
         (schemas := Sample.schemas) "chip.json" new_ChipConfigData =
      (Ok tt, st') /\
    getFabric st' 1 = Some fabric /\
    Fabric.metadata fabric =
      Some {| raw := Sample.decode_base64 "aW52YWxpZA==";
              base64 := "aW52YWxpZA==" |} /\
    decoded_is_set fabric FMetadata = false.
Proof.
  destruct (@decode_failure_is_swallowed
              (Sample.runtime_with (Sample.file_of Sample.bad_metadata))
              Sample.schemas "chip.json" "<chip.json>"
              {| sdk_config := Some Sample.bad_metadata; repl_config := None |}
              Sample.bad_metadata new_ChipConfigData
              eq_refl eq_refl eq_refl)
    as (st' & Hrun & Hslots).
  destruct Hslots as (Hfabric & _).
  - repeat constructor. simpl. tauto.
  - destruct (Hfabric "f/1/m" "aW52YWxpZA==" 1%N FMetadata)
      as (fabric & Hget & Hstored & Hunset).
    + left. reflexivity.
    + reflexivity.
    + reflexivity.
    + intros key' value' [[= <- <-]|[]] _. reflexivity.
    + exists st', fabric. repeat split; auto.
Defined.

(** ** Where the round trip breaks *)

Section Dropped.
Context {runtime : Runtime} {schemas : TlvSchemas}.

(** Keys that start with [g/] or [f/] and that the parsers have no case
    for. *)
Lemma unrouted_key_effect key value st :
  (Js.startsWith key "g/" = true /\ isIgnoredKey key = false /\
   key <> "g/fidx" /\ key <> "g/lkgt" /\ key <> "g/sri" /\
   Js.startsWith key "g/s/" = false) \/
  (Js.startsWith key "f/" = true /\ Js.match_fabric_key key = None) ->
  entry_effect (key, value) st = st.
Proof.
  unfold entry_effect.
  intros [(Hg & Hi & H1 & H2 & H3 & Hs) | (Hf & Hm)].
  - rewrite Hi. rewrite (startsWith_slice _ _ Hg) at 1. simpl.
    rewrite Hg. unfold global_key_effect.
    apply String.eqb_neq in H1, H2, H3. now rewrite H1, H2, H3, Hs.
  - rewrite (isIgnoredKey_fabric _ Hf), Hf.
    unfold fabric_key_effect, fabric_slot. now rewrite Hm.
Qed.

End Dropped.

(** C2, the code at failing inputs.  In any file that [load] reads, a key
    that starts with [g/], is not ignored and is none of [g/fidx], [g/lkgt],
    [g/sri], [g/s/*], and a key that starts with [f/] and does not match the
    pattern of fabric keys, is absent from the generic bucket after the load.
    With the keys [g/xyz] and [f/zz/n] alone in the file, every bucket is
    empty after the load, and a save writes neither key. *)
Theorem unknown_prefixed_keys_dropped {runtime : Runtime} {schemas : TlvSchemas} :
  (forall filePath content file entries st key value,
     readFile filePath = Ok content ->
     JSON_parse content = Ok (ParsedFile file) ->
     sdk_config file = Some entries ->
     well_formed file ->
     In (key, value) entries ->
     (Js.startsWith key "g/" = true /\ isIgnoredKey key = false /\
      key <> "g/fidx" /\ key <> "g/lkgt" /\ key <> "g/sri" /\
      Js.startsWith key "g/s/" = false) \/
     (Js.startsWith key "f/" = true /\ Js.match_fabric_key key = None) ->
     exists st',
       load filePath st = (Ok tt, st') /\ JsMap.get (generic st') key = None) /\
  (forall value st,
     load_parsed (ParsedFile (Sample.unknown_keys value)) st =
       (Ok tt, new_ChipConfigData) /\
     save_sdkConfig
       (snd (load_parsed (ParsedFile (Sample.unknown_keys value)) st)) = []).
Proof.
  split; [|intros value st; split; reflexivity].
  intros filePath content file entries st key value
         Hread Hparse Hsdk Hnd Hin Hkey.
  unfold well_formed in Hnd. rewrite Hsdk in Hnd.
  eexists. split; [apply (load_run _ _ Hread Hparse)|].
  rewrite Hsdk.
  destruct (split_at_key _ _ _ Hnd Hin) as (l1 & l2 & -> & Hl1 & Hl2).
  rewrite entries_effect_app.
  change (entries_effect ((?k, ?v) :: l2) ?s)
    with (entries_effect l2 (entry_effect (k, v) s)).
  rewrite (@unrouted_key_effect _ _ key value _ Hkey).
  rewrite <- entries_effect_app.
  apply (entries_effect_preserves
           (fun s => JsMap.get (generic s) key = None)); [|reflexivity].
  intros [k v] s Hkv Hs. rewrite generic_entry_effect_other; auto.
  apply in_app_or in Hkv as [Hkv|Hkv]; [apply (Hl1 _ Hkv) | apply (Hl2 _ Hkv)].
Qed.

Lemma unknown_prefixed_keys_dropped_witness :
  exists st',
    load (runtime := Sample.runtime_with
                       (ParsedFile (Sample.unknown_keys "AA==")))
         (schemas := Sample.schemas) "chip.json" new_ChipConfigData =
      (Ok tt, st') /\
    JsMap.get (generic st') "g/xyz" = None.
Proof.
  destruct (@unknown_prefixed_keys_dropped
              (Sample.runtime_with (ParsedFile (Sample.unknown_keys "AA==")))
              Sample.schemas) as [Hdropped _].
  apply (Hdropped "chip.json" "<chip.json>" (Sample.unknown_keys "AA==")
                  [("g/xyz", "AA=="); ("f/zz/n", "AA==")] new_ChipConfigData
                  "g/xyz" "AA==" eq_refl eq_refl eq_refl).
  - repeat constructor; simpl; intuition discriminate.
  - left. reflexivity.
  - left. repeat split; discriminate.
Defined.

Lemma save_run {runtime : Runtime} {schemas : TlvSchemas} filePath st :
  save filePath st =
  (writeFile filePath (JSON_stringify (save_output st)), st).
Proof. reflexivity. Qed.

(** C1, the code at a failing input.  The file has the single key [f/A/n].
    Loading it makes fabric 10; saving writes the index in decimal, so the
    saved file has the key [f/10/n] and not [f/A/n]; loading the saved file
    reads that index as hexadecimal and makes fabric 16, and the next save
    writes [f/16/n].  The key set is not reproduced.  ([load] is
    [load_parsed] once the file is read and parsed, and [save] writes the
    text of [save_output].) *)
Theorem hex_index_round_trip {runtime : Runtime} {schemas : TlvSchemas}
  (value : string) (st : ChipConfigData) :
  fst (load_parsed (ParsedFile (Sample.hex_fabric value)) st) = Ok tt /\
  getFabricIndices
    (snd (load_parsed (ParsedFile (Sample.hex_fabric value)) st)) = [10%N] /\
  save_sdkConfig
    (snd (load_parsed (ParsedFile (Sample.hex_fabric value)) st)) =
    [("f/10/n", value)] /\
  JsMap.get
    (save_sdkConfig
       (snd (load_parsed (ParsedFile (Sample.hex_fabric value)) st)))
    "f/A/n" = None /\
  fst (load_parsed
         (ParsedFile
            (save_output
               (snd (load_parsed (ParsedFile (Sample.hex_fabric value)) st))))
         st) = Ok tt /\
  getFabricIndices
    (snd (load_parsed
            (ParsedFile
               (save_output
                  (snd (load_parsed (ParsedFile (Sample.hex_fabric value)) st))))
            st)) = [16%N] /\
  save_sdkConfig
    (snd (load_parsed
            (ParsedFile
               (save_output
                  (snd (load_parsed (ParsedFile (Sample.hex_fabric value)) st))))
            st)) = [("f/16/n", value)].
Proof. repeat split. Qed.

(** * Further properties of the converter *)

(** ** The verifier *)

Section VerdictFacts.
Context {certs : CertLib}.

Lemma verifyCertificateChain_verdict st idx :
  snd (verifyCertificateChain st idx) =
  verdict (snd (getRcac st idx)) (snd (getIcac st idx)) (snd (getNoc st idx)).
Proof.
  unfold verifyCertificateChain, verdict, traced_bind, call, traced_ret.
  destruct (getRcac st idx) as [tr [rcac|]]; [|reflexivity].
  destruct (getIcac st idx) as [ti icac], (getNoc st idx) as [tn [noc|]];
    [|reflexivity].
  simpl.
  destruct (Rcac_verify rcac); [|reflexivity].
  destruct icac as [icac|].
  - destruct (Icac_verify icac rcac); [|reflexivity].
    now destruct (Noc_verify noc rcac (Some icac)).
  - now destruct (Noc_verify noc rcac None).
Qed.

(** The calls the verifier makes, in terms of what the library answers. *)
Lemma verifyCertificateChain_calls st idx :
  fst (verifyCertificateChain st idx) =
  (fst (getRcac st idx) ++
   match snd (getRcac st idx) with
   | None => []
   | Some rcac =>
       fst (getIcac st idx) ++ fst (getNoc st idx) ++
       match snd (getNoc st idx) with
       | None => []
       | Some noc =>
           VerifyRcac ::
           match Rcac_verify rcac with
           | Throw _ => []
           | Ok _ =>
               match snd (getIcac st idx) with
               | Some icac =>
                   VerifyIcac ::
                   match Icac_verify icac rcac with
                   | Throw _ => []
                   | Ok _ => [VerifyNoc]
                   end
               | None => [VerifyNoc]
               end
           end
       end
   end)%list.
Proof.
  unfold verifyCertificateChain, traced_bind, call, traced_ret.
  destruct (getRcac st idx) as [tr [rcac|]]; [|reflexivity].
  destruct (getIcac st idx) as [ti icac], (getNoc st idx) as [tn [noc|]];
    [|cbn; rewrite ?app_nil_r; reflexivity].
  cbn [fst snd].
  destruct (Rcac_verify rcac); [|cbn; rewrite ?app_nil_r; reflexivity].
  destruct icac as [icac|].
  - destruct (Icac_verify icac rcac); [|cbn; rewrite ?app_nil_r; reflexivity].
    destruct (Noc_verify noc rcac (Some icac)); cbn; rewrite ?app_nil_r; reflexivity.
  - destruct (Noc_verify noc rcac None); cbn; rewrite ?app_nil_r; reflexivity.
Qed.

End VerdictFacts.

Lemma decode_or_undefined_trace {C} c (fromTlv : bytes -> result C) entry :
  fst (decode_or_undefined c fromTlv entry) =
  match entry with Some _ => [c] | None => [] end.
Proof.
  unfold decode_or_undefined. destruct entry as [e|]; [|reflexivity].
  simpl. now destruct (fromTlv (raw e)).
Qed.

Section GetterTraces.
Context {certs : CertLib}.

Lemma getRcac_trace st idx :
  fst (getRcac st idx) =
  match optional_chain st idx Fabric.rcac with
  | Some _ => [DecodeRcac]
  | None => []
  end.
Proof. apply decode_or_undefined_trace. Qed.

Lemma getIcac_trace st idx :
  fst (getIcac st idx) =
  match optional_chain st idx Fabric.icac with
  | Some _ => [DecodeIcac]
  | None => []
  end.
Proof. apply decode_or_undefined_trace. Qed.

Lemma getNoc_trace st idx :
  fst (getNoc st idx) =
  match optional_chain st idx Fabric.noc with
  | Some _ => [DecodeNoc]
  | None => []
  end.
Proof. apply decode_or_undefined_trace. Qed.

End GetterTraces.

(** X1. The chain is reported valid exactly when the RCAC and the NOC decode,
    the RCAC verifies, the ICAC (if its bytes are there and decode) verifies
    against the RCAC, and the NOC verifies against the RCAC and that ICAC. *)
Theorem chain_valid_iff {certs : CertLib} (st : ChipConfigData) (idx : N) :
  valid (snd (verifyCertificateChain st idx)) = true <->
  exists rcac noc,
    snd (getRcac st idx) = Some rcac /\
    snd (getNoc st idx) = Some noc /\
    Rcac_verify rcac = Ok tt /\
    (forall icac, snd (getIcac st idx) = Some icac ->
                  Icac_verify icac rcac = Ok tt) /\
    Noc_verify noc rcac (snd (getIcac st idx)) = Ok tt.
Proof.
  rewrite verifyCertificateChain_verdict. unfold verdict.
  destruct (snd (getRcac st idx)) as [rcac|];
    [|split; [discriminate | intros (? & ? & [=] & _)]].
  destruct (snd (getNoc st idx)) as [noc|];
    [|split; [discriminate | intros (? & ? & _ & [=] & _)]].
  destruct (Rcac_verify rcac) as [[]|e] eqn:Hr.
  2:{ split; [discriminate|].
      intros (r & n & [= <-] & _ & Hv & _). congruence. }
  destruct (snd (getIcac st idx)) as [icac|].
  - destruct (Icac_verify icac rcac) as [[]|e] eqn:Hi.
    2:{ split; [discriminate|].
        intros (r & n & [= <-] & _ & _ & Hv & _).
        specialize (Hv icac eq_refl). congruence. }
    destruct (Noc_verify noc rcac (Some icac)) as [[]|e] eqn:Hn.
    + split; [|reflexivity]. intros _. exists rcac, noc.
      repeat split; auto. now intros ? [= <-].
    + split; [discriminate|].
      intros (r & n & [= <-] & [= <-] & _ & _ & Hv). congruence.
  - destruct (Noc_verify noc rcac None) as [[]|e] eqn:Hn.
    + split; [|reflexivity]. intros _. exists rcac, noc.
      repeat split; auto. discriminate.
    + split; [discriminate|].
      intros (r & n & [= <-] & [= <-] & _ & _ & Hv). congruence.
Qed.

Lemma chain_valid_iff_witness :
  valid (snd (verifyCertificateChain (certs := Sample.certs)
                (Sample.state_with (Some [Byte.x01]) (Some [Byte.x01])
                                   (Some [Byte.x01])) 1)) = true.
Proof.
  apply (proj2 (@chain_valid_iff Sample.certs
                  (Sample.state_with (Some [Byte.x01]) (Some [Byte.x01])
                                     (Some [Byte.x01])) 1%N)).
  exists [Byte.x01], [Byte.x01].
  repeat split. intros icac Hicac. cbv in Hicac.
  injection Hicac as <-. reflexivity.
Defined.

(** X2. A result carries an error message exactly when it is not valid, and
    a valid result has every flag that applies set to true: [rcacValid] and
    [nocValid] always, [icacValid] when an ICAC was decoded and unset
    otherwise. *)
Theorem chain_result_shape {certs : CertLib} (st : ChipConfigData) (idx : N) :
  (valid (snd (verifyCertificateChain st idx)) = true ->
   snd (verifyCertificateChain st idx) =
     {| valid := true; rcacValid := Some true;
        icacValid := match snd (getIcac st idx) with
                     | Some _ => Some true
                     | None => None
                     end;
        nocValid := Some true; error := None |}) /\
  (valid (snd (verifyCertificateChain st idx)) = false ->
   exists message,
     error (snd (verifyCertificateChain st idx)) = Some message /\
     nocValid (snd (verifyCertificateChain st idx)) <> Some true) /\
  (error (snd (verifyCertificateChain st idx)) = None ->
   valid (snd (verifyCertificateChain st idx)) = true).
Proof.
  rewrite verifyCertificateChain_verdict. unfold verdict.
  destruct (snd (getRcac st idx)) as [rcac|];
    [|simpl; repeat split; try discriminate; eexists; split;
      [reflexivity | discriminate]].
  destruct (snd (getNoc st idx)) as [noc|];
    [|simpl; repeat split; try discriminate; eexists; split;
      [reflexivity | discriminate]].
  destruct (Rcac_verify rcac);
    [|simpl; repeat split; try discriminate; eexists; split;
      [reflexivity | discriminate]].
  destruct (snd (getIcac st idx)) as [icac|].
  - destruct (Icac_verify icac rcac);
      [|simpl; repeat split; try discriminate; eexists; split;
        [reflexivity | discriminate]].
    destruct (Noc_verify noc rcac (Some icac)); simpl;
      repeat split; try discriminate; eexists; split;
      [reflexivity | discriminate].
  - destruct (Noc_verify noc rcac None); simpl;
      repeat split; try discriminate; eexists; split;
      [reflexivity | discriminate].
Qed.

Lemma chain_result_shape_witness :
  exists message,
    error (snd (verifyCertificateChain (certs := Sample.certs)
                  (Sample.state_with (Some [Byte.x02]) None
                                     (Some [Byte.x01])) 1)) = Some message /\
    nocValid (snd (verifyCertificateChain (certs := Sample.certs)
                     (Sample.state_with (Some [Byte.x02]) None
                                        (Some [Byte.x01])) 1)) <> Some true.
Proof.
  destruct (@chain_result_shape Sample.certs
              (Sample.state_with (Some [Byte.x02]) None (Some [Byte.x01]))
              1%N) as (_ & Hinvalid & _).
  apply Hinvalid. reflexivity.
Defined.

(** X3. When the RCAC decodes and the NOC is missing or does not decode, the
    result is [{valid: false, error: "NOC not found or invalid"}] with no
    flag set, whatever the certificates would have verified to: nothing is
    verified, the library is only asked to decode. *)
Theorem verify_noc_not_found {certs : CertLib} (st : ChipConfigData) (idx : N)
  rcac :
  snd (getRcac st idx) = Some rcac ->
  snd (getNoc st idx) = None ->
  snd (verifyCertificateChain st idx) =
    {| valid := false; rcacValid := None; icacValid := None;
       nocValid := None; error := Some "NOC not found or invalid" |} /\
  forall c, In c (fst (verifyCertificateChain st idx)) ->
            c = DecodeRcac \/ c = DecodeIcac \/ c = DecodeNoc.
Proof.
  intros Hrcac Hnoc.
  rewrite verifyCertificateChain_verdict, verifyCertificateChain_calls.
  rewrite Hrcac, Hnoc. split; [reflexivity|].
  rewrite getRcac_trace, getIcac_trace, getNoc_trace.
  intros c Hc. rewrite !in_app_iff in Hc.
  destruct (optional_chain st idx Fabric.rcac),
           (optional_chain st idx Fabric.icac),
           (optional_chain st idx Fabric.noc); simpl in Hc; intuition.
Qed.

Lemma verify_noc_not_found_witness :
  snd (verifyCertificateChain (certs := Sample.certs)
         (Sample.state_with (Some [Byte.x00]) None (Some [Byte.x02])) 1) =
    {| valid := false; rcacValid := None; icacValid := None;
       nocValid := None; error := Some "NOC not found or invalid" |}.
Proof.
  apply (@verify_noc_not_found Sample.certs
           (Sample.state_with (Some [Byte.x00]) None (Some [Byte.x02])) 1%N
           [Byte.x02] eq_refl eq_refl).
Defined.

(** X4. When everything before it passes and the verification of the NOC
    fails, the result is [{valid: false, rcacValid: true, nocValid: false,
    error: "NOC verification failed: <cause>"}], with [icacValid] true when
    an ICAC was decoded and unset otherwise. *)
Theorem verify_noc_failure {certs : CertLib} (st : ChipConfigData) (idx : N)
  rcac noc err :
  snd (getRcac st idx) = Some rcac ->
  snd (getNoc st idx) = Some noc ->
  Rcac_verify rcac = Ok tt ->
  (forall icac, snd (getIcac st idx) = Some icac ->
                Icac_verify icac rcac = Ok tt) ->
  Noc_verify noc rcac (snd (getIcac st idx)) = Throw err ->
  snd (verifyCertificateChain st idx) =
    {| valid := false; rcacValid := Some true;
       icacValid := match snd (getIcac st idx) with
                    | Some _ => Some true
                    | None => None
                    end;
       nocValid := Some false;
       error := Some ("NOC verification failed: " ++ error_text err) |}.
Proof.
  intros Hrcac Hnoc Hr Hi Hn.
  rewrite verifyCertificateChain_verdict. unfold verdict.
  rewrite Hrcac, Hnoc, Hr.
  destruct (snd (getIcac st idx)) as [icac|].
  - rewrite (Hi icac eq_refl), Hn. reflexivity.
  - rewrite Hn. reflexivity.
Qed.

Lemma verify_noc_failure_witness :
  snd (verifyCertificateChain (certs := Sample.certs)
         (Sample.state_with (Some [Byte.x02]) (Some [Byte.x01])
                            (Some [Byte.x01])) 1) =
    {| valid := false; rcacValid := Some true; icacValid := Some true;
       nocValid := Some false;
       error := Some "NOC verification failed: Invalid signature" |}.
Proof.
  apply (@verify_noc_failure Sample.certs
           (Sample.state_with (Some [Byte.x02]) (Some [Byte.x01])
                              (Some [Byte.x01])) 1%N
           [Byte.x01] [Byte.x02] (JsError "Invalid signature")
           eq_refl eq_refl eq_refl).
  - intros icac Hicac. cbv in Hicac. injection Hicac as <-. reflexivity.
  - reflexivity.
Defined.

(** Proves that a literal list of calls is in the order of the algorithm. *)
Ltac in_call_order :=
  repeat match goal with
         | |- StronglySorted _ [] => constructor
         | |- StronglySorted _ (_ :: _) => constructor
         | |- Forall _ [] => constructor
         | |- Forall _ (_ :: _) => constructor
         | |- before _ _ => unfold before; simpl; lia
         end.

(** X5. The calls into the certificate library always come in the order
    decode RCAC, decode ICAC, decode NOC, verify RCAC, verify ICAC, verify
    NOC, each at most once; the RCAC is verified only if both RCAC and NOC
    decoded, and the NOC is verified only if the RCAC verified. *)
Theorem verifier_calls_in_order {certs : CertLib} (st : ChipConfigData)
  (idx : N) :
  StronglySorted before (fst (verifyCertificateChain st idx)) /\
  (In VerifyRcac (fst (verifyCertificateChain st idx)) <->
   exists rcac noc, snd (getRcac st idx) = Some rcac /\
                    snd (getNoc st idx) = Some noc) /\
  (In VerifyNoc (fst (verifyCertificateChain st idx)) ->
   rcacValid (snd (verifyCertificateChain st idx)) = Some true).
Proof.
  rewrite verifyCertificateChain_verdict, verifyCertificateChain_calls.
  unfold verdict. rewrite getRcac_trace, getIcac_trace, getNoc_trace.
  destruct (snd (getRcac st idx)) as [rcac|],
           (snd (getNoc st idx)) as [noc|],
           (snd (getIcac st idx)) as [icac|];
    destruct (optional_chain st idx Fabric.rcac),
             (optional_chain st idx Fabric.icac),
             (optional_chain st idx Fabric.noc);
    try destruct (Rcac_verify rcac);
    try destruct (Icac_verify icac rcac);
    try destruct (Noc_verify noc rcac _);
    simpl;
    (split; [in_call_order
            | split; [split; [intro Hin; try (exists rcac, noc; now split);
                              intuition (try discriminate)
                             | intros (? & ? & ? & ?); try discriminate;
                               intuition]
                     | intro Hin; try reflexivity;
                       intuition (try discriminate)]]).
Qed.

Lemma verifier_calls_in_order_witness :
  In VerifyRcac
     (fst (verifyCertificateChain (certs := Sample.certs)
             (Sample.state_with (Some [Byte.x01]) None (Some [Byte.x02])) 1)).
Proof.
  destruct (@verifier_calls_in_order Sample.certs
              (Sample.state_with (Some [Byte.x01]) None (Some [Byte.x02]))
              1%N) as (_ & Hverified & _).
  apply Hverified. exists [Byte.x02], [Byte.x01]. split; reflexivity.
Defined.

(** ** What [save] writes *)

Lemma assign_all_fold {K V} (name : K -> string) (value : V -> string)
  (m : JsMap.t K V) o :
  assign_all name value m o =
  fold_left assign (map (fun kv => (name (fst kv), value (snd kv))) m) o.
Proof.
  unfold assign_all. revert o.
  induction m as [|kv m IH]; intro o; simpl; [reflexivity|]. apply IH.
Qed.

Lemma assign_if_fold key entry o :
  assign_if key entry o = fold_left assign (emit key entry) o.
Proof. now destruct entry. Qed.

Lemma save_fabric_fold o kv :
  save_fabric o kv = fold_left assign (fabric_emitted kv) o.
Proof.
  destruct kv as [fabricIndex fabric].
  unfold save_fabric, fabric_emitted, emit_all, concat.
  rewrite !fold_left_app, !assign_all_fold, !assign_if_fold. reflexivity.
Qed.

Lemma save_fabrics_fold fs o :
  fold_left save_fabric fs o = fold_left assign (flat_map fabric_emitted fs) o.
Proof.
  revert o. induction fs as [|kv fs IH]; intro o; simpl; [reflexivity|].
  now rewrite fold_left_app, IH, save_fabric_fold.
Qed.

Lemma map_pair_id {A B} (l : list (A * B)) :
  map (fun kv => (fst kv, snd kv)) l = l.
Proof.
  induction l as [|[a b] l IH]; simpl; [reflexivity|]. now rewrite IH.
Qed.

(** [save] builds its object by making the assignments of [emitted], in
    that order, to the empty object. *)
Lemma save_sdkConfig_fold st :
  save_sdkConfig st = fold_left assign (emitted st) JsMap.empty.
Proof.
  unfold save_sdkConfig, emitted, concat.
  rewrite !fold_left_app, !assign_all_fold, !assign_if_fold,
          save_fabrics_fold, !map_pair_id.
  reflexivity.
Qed.

(** Assignment to a plain object. *)
Lemma get_object_set_eq o k v :
  k <> "__proto__" -> JsMap.get (Js.object_set o k v) k = Some v.
Proof.
  intro Hk. unfold Js.object_set. apply String.eqb_neq in Hk. rewrite Hk.
  apply JsMapFacts.get_set_eq.
Qed.

Lemma get_object_set_ne o k k' v :
  k <> k' -> JsMap.get (Js.object_set o k v) k' = JsMap.get o k'.
Proof.
  intro Hne. unfold Js.object_set. destruct (k =? "__proto__"); [reflexivity|].
  now apply JsMapFacts.get_set_ne.
Qed.

Lemma get_object_set_proto o k v :
  JsMap.get (Js.object_set o k v) "__proto__" = JsMap.get o "__proto__".
Proof.
  unfold Js.object_set. destruct (k =? "__proto__") eqn:Hk; [reflexivity|].
  apply String.eqb_neq in Hk. now apply JsMapFacts.get_set_ne.
Qed.

Lemma keys_object_set_NoDup o k v :
  NoDup (JsMap.keys o) -> NoDup (JsMap.keys (Js.object_set o k v)).
Proof.
  intro Ho. unfold Js.object_set. destruct (k =? "__proto__"); [assumption|].
  now apply JsMapFacts.NoDup_keys_set.
Qed.

(** After a run of assignments, a key holds the value assigned last; the
    name [__proto__] holds what it held before. *)
Lemma get_assigned_none l o k :
  (forall v, ~ In (k, v) l) ->
  JsMap.get (fold_left assign l o) k = JsMap.get o k.
Proof.
  revert o. induction l as [|[k' v'] l IH]; intros o Hout; simpl;
    [reflexivity|].
  rewrite IH by (intros v Hin; apply (Hout v); now right).
  unfold assign. simpl. apply get_object_set_ne.
  intros ->. apply (Hout v'). now left.
Qed.

Lemma get_assigned_proto l o :
  JsMap.get (fold_left assign l o) "__proto__" = JsMap.get o "__proto__".
Proof.
  revert o. induction l as [|[k' v'] l IH]; intro o; simpl; [reflexivity|].
  rewrite IH. apply get_object_set_proto.
Qed.

Lemma get_assigned_unique l o k v :
  k <> "__proto__" ->
  In (k, v) l -> (forall v', In (k, v') l -> v' = v) ->
  JsMap.get (fold_left assign l o) k = Some v.
Proof.
  intro Hk.
  revert o. induction l as [|[k' v'] l IH]; intros o Hin Huniq; simpl;
    [destruct Hin|].
  destruct (in_dec (fun a b : string * string =>
                      match string_dec (fst a) (fst b),
                            string_dec (snd a) (snd b) with
                      | left Hk, left Hv =>
                          left (match a, b return fst a = fst b ->
                                                  snd a = snd b -> a = b with
                                | (_, _), (_, _) =>
                                    fun H1 H2 => f_equal2 pair H1 H2
                                end Hk Hv)
                      | right Hk, _ => right (fun E => Hk (f_equal fst E))
                      | _, right Hv => right (fun E => Hv (f_equal snd E))
                      end) (k, v) l) as [Hl|Hl].
  - apply IH; [assumption|]. intros v0 Hv0. apply Huniq. now right.
  - destruct Hin as [[= -> ->]|Hin]; [|contradiction].
    rewrite get_assigned_none.
    + unfold assign. simpl. now apply get_object_set_eq.
    + intros v0 Hv0. assert (v0 = v) by (apply Huniq; now right).
      subst v0. contradiction.
Qed.

Lemma keys_assigned_NoDup l o :
  NoDup (JsMap.keys o) -> NoDup (JsMap.keys (fold_left assign l o)).
Proof.
  revert o. induction l as [|kv l IH]; intros o Ho; simpl; [assumption|].
  apply IH. unfold assign. now apply keys_object_set_NoDup.
Qed.

Lemma get_assigned l o k v :
  JsMap.get (fold_left assign l o) k = Some v ->
  (In (k, v) l /\ k <> "__proto__") \/ JsMap.get o k = Some v.
Proof.
  revert o. induction l as [|[k' v'] l IH]; intros o; simpl;
    [intro; now right|].
  intro Hget. destruct (IH _ Hget) as [[Hin Hk]|Ho];
    [left; split; [now right | assumption]|].
  unfold assign in Ho. simpl in Ho.
  destruct (string_dec k' k) as [->|Hne].
  - destruct (string_dec k "__proto__") as [->|Hk].
    + rewrite get_object_set_proto in Ho. now right.
    + rewrite get_object_set_eq in Ho by assumption. injection Ho as <-.
      left. split; [now left | assumption].
  - rewrite get_object_set_ne in Ho by assumption. now right.
Qed.

Lemma has_assigned l o k v :
  k <> "__proto__" ->
  In (k, v) l -> JsMap.has (fold_left assign l o) k = true.
Proof.
  intro Hk.
  assert (Hkeep : forall l o, JsMap.has o k = true ->
                              JsMap.has (fold_left assign l o) k = true).
  { clear l o. induction l as [|[k' v'] l IH]; intros o Ho; simpl;
      [assumption|].
    apply IH. unfold assign, JsMap.has. simpl.
    destruct (string_dec k' k) as [->|Hne].
    - now rewrite get_object_set_eq.
    - now rewrite get_object_set_ne. }
  revert o. induction l as [|kv l IH]; intros o Hin; [destruct Hin|].
  simpl. destruct Hin as [->|Hin]; [|now apply IH].
  apply Hkeep. unfold assign, JsMap.has. simpl.
  now rewrite get_object_set_eq.
Qed.

(** ** What [load] stores, place by place *)

Section Places.
Context {runtime : Runtime} {schemas : TlvSchemas}.

Lemma read_fabric_or_new st idx fd :
  option_map base64 (stored (fabric_or_new st idx) fd) =
  read st (InFabric idx fd).
Proof.
  unfold fabric_or_new. simpl.
  destruct (JsMap.get (fabrics st) idx); [reflexivity|]. now destruct fd.
Qed.

Lemma read_resumptions_or_new st idx rid :
  option_map base64
    (JsMap.get (Fabric.resumptions (fabric_or_new st idx)) rid) =
  read st (InResumptions idx rid).
Proof.
  unfold fabric_or_new. simpl.
  now destruct (JsMap.get (fabrics st) idx).
Qed.

Lemma read_put_fabric idx f st s :
  read (put_fabric idx f st) s =
  match s with
  | InFabric idx' fd =>
      if N.eq_dec idx' idx then option_map base64 (stored f fd) else read st s
  | InResumptions idx' rid =>
      if N.eq_dec idx' idx
      then option_map base64 (JsMap.get (Fabric.resumptions f) rid)
      else read st s
  | _ => read st s
  end.
Proof.
  destruct s as [idx' fd|idx' rid| | | | |]; try reflexivity;
    destruct (N.eq_dec idx' idx) as [->|Hne]; unfold read;
    try (rewrite get_put_eq; reflexivity);
    rewrite get_put_ne by congruence; reflexivity.
Qed.

(** One entry of the file changes the place it is routed to, to its own
    value, and no other place. *)
Lemma read_entry_effect kv st s :
  read (entry_effect kv st) s =
  if routed_to s (route kv) then Some (snd kv) else read st s.
Proof.
  destruct kv as [key value]. unfold entry_effect, route. cbn [snd].
  destruct (isIgnoredKey key) eqn:Hi.
  { unfold routed_to. destruct (slot_eq_dec (InIgnored key) s) as [<-|Hne].
    - simpl. apply JsMapFacts.get_set_eq.
    - destruct s; try reflexivity. simpl.
      apply JsMapFacts.get_set_ne. congruence. }
  destruct (Js.startsWith key "f/") eqn:Hf.
  { unfold fabric_key_effect.
    destruct (fabric_slot key) as [[idx fd]|]; [|reflexivity].
    rewrite read_put_fabric. unfold routed_to.
    destruct (slot_eq_dec (InFabric idx fd) s) as [<-|Hne].
    - destruct (N.eq_dec idx idx); [|congruence].
      destruct (write_field_same fd (decodeEntry value) (fabric_or_new st idx))
        as [-> _].
      reflexivity.
    - destruct s as [idx' fd'|idx' rid| | | | |]; try reflexivity.
      + destruct (N.eq_dec idx' idx) as [->|]; [|reflexivity].
        destruct (@write_field_other _ fd (decodeEntry value)
                    (fabric_or_new st idx) fd') as [-> _]; [congruence|].
        apply read_fabric_or_new.
      + destruct (N.eq_dec idx' idx) as [->|]; [|reflexivity].
        destruct (write_field_resumptions fd (decodeEntry value)
                    (fabric_or_new st idx)) as [-> _].
        apply read_resumptions_or_new. }
  destruct (Js.startsWith key "g/") eqn:Hg.
  2: { unfold routed_to. destruct (slot_eq_dec (InGeneric key) s) as [<-|Hne].
       - simpl. apply JsMapFacts.get_set_eq.
       - destruct s; try reflexivity. simpl.
         apply JsMapFacts.get_set_ne. congruence. }
  unfold global_key_effect.
  destruct (key =? "g/fidx").
  { unfold routed_to.
    destruct (TlvFabricIndexList_decode _);
      (destruct (slot_eq_dec InFabricIndexList s) as [<-|Hne];
       [reflexivity | destruct s; try reflexivity; congruence]). }
  destruct (key =? "g/lkgt").
  { unfold routed_to.
    destruct (TlvLastKnownGoodTime_decode _);
      (destruct (slot_eq_dec InLastKnownGoodTime s) as [<-|Hne];
       [reflexivity | destruct s; try reflexivity; congruence]). }
  destruct (key =? "g/sri").
  { unfold routed_to.
    destruct (TlvSessionResumptionIndex_decode _);
      (destruct (slot_eq_dec InResumptionIndex s) as [<-|Hne];
       [reflexivity | destruct s; try reflexivity; congruence]). }
  destruct (Js.startsWith key "g/s/"); [|reflexivity].
  destruct (TlvSessionResumptionEntry_decode _) as [decoded|e].
  - rewrite read_put_fabric. unfold routed_to.
    destruct (slot_eq_dec _ s) as [<-|Hne].
    + destruct (N.eq_dec _ _); [|congruence]. simpl.
      now rewrite JsMapFacts.get_set_eq.
    + destruct s as [idx' fd'|idx' rid| | | | |]; try reflexivity.
      * destruct (N.eq_dec idx' _) as [->|]; [|reflexivity].
        rewrite <- read_fabric_or_new. now destruct fd'.
      * destruct (N.eq_dec idx' _) as [->|]; [|reflexivity].
        assert (Hrid : Js.slice 4 key <> rid) by congruence.
        rewrite <- read_resumptions_or_new. simpl.
        rewrite JsMapFacts.get_set_ne by exact Hrid. reflexivity.
  - unfold routed_to. destruct (slot_eq_dec (InGeneric key) s) as [<-|Hne].
    + simpl. apply JsMapFacts.get_set_eq.
    + destruct s; try reflexivity. simpl.
      apply JsMapFacts.get_set_ne. congruence.
Qed.

Lemma read_entries_effect entries st s :
  read (entries_effect entries st) s =
  fold_left (fun acc kv => if routed_to s (route kv) then Some (snd kv) else acc)
            entries (read st s).
Proof.
  unfold entries_effect. revert st.
  induction entries as [|kv entries IH]; intro st; simpl; [reflexivity|].
  now rewrite IH, read_entry_effect.
Qed.

End Places.

(** ** Entries of a [Map] *)

Section Entries.
Context {K V : Type} `{KeyEqLaws K}.
Implicit Types (m : JsMap.t K V) (k : K) (v : V).

Lemma get_In m k v : JsMap.get m k = Some v -> In (k, v) m.
Proof.
  induction m as [|[k' v'] m IH]; simpl; [discriminate|].
  destruct (keqb_spec k' k) as [->|Hk].
  - intros [= ->]. now left.
  - intro Hg. right. auto.
Qed.

Lemma In_get m k v :
  NoDup (JsMap.keys m) -> In (k, v) m -> JsMap.get m k = Some v.
Proof.
  induction m as [|[k' v'] m IH]; simpl; [intros _ []|].
  intros Hnd [[= -> ->]|Hin].
  - now rewrite JsMapFacts.keqb_refl.
  - inversion Hnd as [|? ? Hout Hnd']; subst.
    destruct (keqb_spec k' k) as [->|Hk]; [|auto].
    exfalso. apply Hout. unfold JsMap.keys in *.
    change k with (fst (k, v)). now apply in_map.
Qed.

Lemma In_set m k v k' v' :
  In (k', v') (JsMap.set m k v) -> (k' = k /\ v' = v) \/ In (k', v') m.
Proof.
  induction m as [|[k0 v0] m IH]; simpl.
  - intros [[= <- <-]|[]]. now left.
  - destruct (keqb_spec k0 k) as [->|Hk]; simpl.
    + intros [[= <- <-]|Hin]; [now left | right; now right].
    + intros [E|Hin]; [right; now left|].
      destruct (IH Hin) as [?|?]; [now left | right; now right].
Qed.

End Entries.

(** ** The assignments of [save] and the places of the state *)

Lemma in_emit key entry k v :
  In (k, v) (emit key entry) <->
  k = key /\ option_map base64 entry = Some v.
Proof.
  destruct entry as [e|]; simpl.
  - split.
    + intros [[= <- <-]|[]]. now split.
    + intros [-> [= <-]]. now left.
  - split; [intros [] | intros [_ [=]]].
Qed.

Lemma in_emit_all {K} `{KeyEqLaws K} (name : K -> string)
  (m : JsMap.t K DecodedEntry) k v :
  NoDup (JsMap.keys m) ->
  In (k, v) (emit_all name m) <->
  exists key, k = name key /\ option_map base64 (JsMap.get m key) = Some v.
Proof.
  intro Hnd. unfold emit_all. rewrite in_map_iff. split.
  - intros [[key e] [[= <- <-] Hin]]. exists key. split; [reflexivity|].
    simpl. now rewrite (In_get _ _ _ Hnd Hin).
  - intros [key [-> Hv]].
    destruct (JsMap.get m key) as [e|] eqn:Hg; [|discriminate].
    injection Hv as <-. exists (key, e). split; [reflexivity|].
    now apply get_In.
Qed.

Lemma in_fabric_emitted idx fabric k v :
  maps_of_fabric fabric ->
  In (k, v) (fabric_emitted (idx, fabric)) <->
  (exists fd, k = saved_key (InFabric idx fd) /\
              option_map base64 (stored fabric fd) = Some v) \/
  (exists rid, k = saved_key (InResumptions idx rid) /\
               option_map base64 (JsMap.get (Fabric.resumptions fabric) rid)
               = Some v).
Proof.
  intros (Hk & Hs & Hr & Ho).
  unfold fabric_emitted, concat.
  rewrite !in_app_iff, !in_emit,
    (in_emit_all _ _ _ _ Hk), (in_emit_all _ _ _ _ Hs),
    (in_emit_all _ _ _ _ Hr), (in_emit_all _ _ _ _ Ho).
  split.
  - intro Hin. repeat (destruct Hin as [Hin|Hin]).
    + destruct Hin as [-> Hv]. left. now exists FNoc.
    + destruct Hin as [-> Hv]. left. now exists FIcac.
    + destruct Hin as [-> Hv]. left. now exists FRcac.
    + destruct Hin as [-> Hv]. left. now exists FMetadata.
    + destruct Hin as [i [-> Hv]]. left. now exists (FKey i).
    + destruct Hin as [n [-> Hv]]. left. now exists (FSession n).
    + destruct Hin as [rid [-> Hv]]. right. now exists rid.
    + destruct Hin as [sub [-> Hv]]. left. now exists (FOther sub).
    + destruct Hin.
  - intros [[fd [-> Hv]]|[rid [-> Hv]]].
    + destruct fd as [| | | |i|n|sub].
      * left. now split.
      * right; left. now split.
      * do 2 right; left. now split.
      * do 3 right; left. now split.
      * do 4 right; left. now exists i.
      * do 5 right; left. now exists n.
      * do 7 right; left. now exists sub.
    + do 6 right; left. now exists rid.
Qed.

(** [save] assigns [v] to [k] exactly when some place of the state holds
    [v] and is written under [k]. *)
Lemma in_emitted st k v :
  maps_of_state st ->
  In (k, v) (emitted st) <->
  exists s, saved_key s = k /\ read st s = Some v.
Proof.
  intros (Hf & Hfs & Hi & Hg).
  unfold emitted, concat.
  rewrite !in_app_iff, !in_emit, in_flat_map.
  split.
  - intro Hem. repeat (destruct Hem as [Hem|Hem]).
    + destruct Hem as [-> Hv]. now exists InFabricIndexList.
    + destruct Hem as [-> Hv]. now exists InLastKnownGoodTime.
    + destruct Hem as [-> Hv]. now exists InResumptionIndex.
    + destruct Hem as [[idx fabric] [Hin Hkv]].
      apply (in_fabric_emitted idx k v (Hfs _ _ Hin)) in Hkv.
      apply (In_get _ _ _ Hf) in Hin.
      destruct Hkv as [[fd [-> Hv]]|[rid [-> Hv]]].
      * exists (InFabric idx fd). split; [reflexivity|]. simpl.
        now rewrite Hin.
      * exists (InResumptions idx rid). split; [reflexivity|]. simpl.
        now rewrite Hin.
    + exists (InIgnored k). split; [reflexivity|]. now apply In_get.
    + exists (InGeneric k). split; [reflexivity|]. now apply In_get.
    + destruct Hem.
  - intros [s [<- Hv]].
    destruct s as [idx fd|idx rid| | | |key|key]; simpl in Hv.
    + do 3 right; left.
      destruct (JsMap.get (fabrics st) idx) as [fabric|] eqn:Hget;
        [|discriminate].
      apply get_In in Hget. exists (idx, fabric). split; [assumption|].
      apply (in_fabric_emitted idx _ v (Hfs _ _ Hget)).
      left. now exists fd.
    + do 3 right; left.
      destruct (JsMap.get (fabrics st) idx) as [fabric|] eqn:Hget;
        [|discriminate].
      apply get_In in Hget. exists (idx, fabric). split; [assumption|].
      apply (in_fabric_emitted idx _ v (Hfs _ _ Hget)).
      right. now exists rid.
    + left. now split.
    + right; left. now split.
    + do 2 right; left. now split.
    + do 4 right; left. now apply get_In.
    + do 5 right; left. now apply get_In.
Qed.

(** ** The maps of a loaded state have distinct keys *)

Section MapsOfState.
Context {runtime : Runtime} {schemas : TlvSchemas}.

Lemma maps_of_fabric_new idx : maps_of_fabric (new_FabricData idx).
Proof. repeat split; constructor. Qed.

Lemma maps_of_fabric_write_field fd e f :
  maps_of_fabric f -> maps_of_fabric (write_field fd e f).
Proof.
  intros (Hk & Hs & Hr & Ho).
  destruct fd; simpl;
    try destruct (TlvFabricMetadata_decode _);
    try destruct (TlvGroupKeySet_decode _);
    try destruct (TlvSessionResumptionDetails_decode _);
    repeat split; simpl; try assumption;
    now apply JsMapFacts.NoDup_keys_set.
Qed.

Lemma maps_of_fabric_or_new st idx :
  maps_of_state st -> maps_of_fabric (fabric_or_new st idx).
Proof.
  intros (_ & Hfs & _). unfold fabric_or_new.
  destruct (JsMap.get (fabrics st) idx) as [f|] eqn:Hg.
  - apply (Hfs idx). now apply get_In.
  - apply maps_of_fabric_new.
Qed.

Lemma maps_of_state_put idx f st :
  maps_of_state st -> maps_of_fabric f -> maps_of_state (put_fabric idx f st).
Proof.
  intros (Hf & Hfs & Hi & Hg) Hm.
  split; [|split; [|split]]; try assumption.
  - simpl. now apply JsMapFacts.NoDup_keys_set.
  - intros i f' Hin. simpl in Hin.
    apply In_set in Hin as [[_ ->]|Hin]; [exact Hm | exact (Hfs _ _ Hin)].
Qed.

Lemma maps_of_state_entry_effect kv st :
  maps_of_state st -> maps_of_state (entry_effect kv st).
Proof.
  intro Hst. destruct kv as [key value]. unfold entry_effect.
  destruct (isIgnoredKey key).
  { destruct Hst as (Hf & Hfs & Hi & Hg).
    split; [|split; [|split]]; try assumption.
    simpl. now apply JsMapFacts.NoDup_keys_set. }
  destruct (Js.startsWith key "f/").
  { unfold fabric_key_effect.
    destruct (fabric_slot key) as [[idx fd]|]; [|assumption].
    apply maps_of_state_put; [assumption|].
    apply maps_of_fabric_write_field. now apply maps_of_fabric_or_new. }
  destruct (Js.startsWith key "g/").
  2: { destruct Hst as (Hf & Hfs & Hi & Hg).
       split; [|split; [|split]]; try assumption.
       simpl. now apply JsMapFacts.NoDup_keys_set. }
  unfold global_key_effect.
  destruct (key =? "g/fidx"); [exact Hst|].
  destruct (key =? "g/lkgt"); [exact Hst|].
  destruct (key =? "g/sri"); [exact Hst|].
  destruct (Js.startsWith key "g/s/"); [|assumption].
  destruct (TlvSessionResumptionEntry_decode _) as [decoded|e].
  - apply maps_of_state_put; [assumption|].
    destruct (maps_of_fabric_or_new (Tlv.fabricIndex decoded) Hst)
      as (Hk & Hs & Hr & Ho).
    repeat split; simpl; try assumption.
    now apply JsMapFacts.NoDup_keys_set.
  - destruct Hst as (Hf & Hfs & Hi & Hg).
    split; [|split; [|split]]; try assumption.
    simpl. now apply JsMapFacts.NoDup_keys_set.
Qed.

Lemma loaded_effect file st :
  loaded file st =
  entries_effect
    (match sdk_config file with Some o => o | None => JsMap.empty end)
    (with_replConfig
       (match repl_config file with
        | Some r => r
        | None => JObject JsMap.empty
        end)
       (clear st)).
Proof. unfold loaded. now rewrite load_parsed_run. Qed.

Lemma maps_of_state_loaded file st : maps_of_state (loaded file st).
Proof.
  rewrite loaded_effect. apply entries_effect_preserves.
  - intros kv s _. apply maps_of_state_entry_effect.
  - split; [constructor|]. split; [intros idx fabric []|].
    split; constructor.
Qed.

Lemma read_loaded file st s :
  read (loaded file st) s =
  last_routed s
    (match sdk_config file with Some o => o | None => JsMap.empty end).
Proof.
  rewrite loaded_effect, read_entries_effect. unfold last_routed.
  now destruct s.
Qed.

End MapsOfState.

(** ** Loading, place by place *)

Section LoadPlaces.
Context {runtime : Runtime} {schemas : TlvSchemas}.

Lemma load_loaded filePath content file st :
  readFile filePath = Ok content ->
  JSON_parse content = Ok (ParsedFile file) ->
  load filePath st = (Ok tt, loaded file st).
Proof.
  intros Hread Hparse. rewrite loaded_effect.
  now apply (@load_run _ _ filePath content).
Qed.

Lemma fold_routed_Some s l acc v :
  fold_left (fun acc kv => if routed_to s (route kv) then Some (snd kv) else acc)
            l acc = Some v ->
  acc = Some v \/ exists k, In (k, v) l /\ route (k, v) = Some s.
Proof.
  revert acc. induction l as [|[k' v'] l IH]; intros acc; cbn [fold_left];
    [intro; now left|].
  intro Hfold. destruct (IH _ Hfold) as [Hacc|(k & Hin & Hr)].
  - unfold routed_to in Hacc.
    destruct (route (k', v')) as [s'|] eqn:Hr; [|left; exact Hacc].
    destruct (slot_eq_dec s' s) as [->|]; [|left; exact Hacc].
    cbn [snd] in Hacc. injection Hacc as <-. right. exists k'. split; [now left | assumption].
  - right. exists k. split; [now right | assumption].
Qed.

Lemma last_routed_Some s l v :
  last_routed s l = Some v -> exists k, In (k, v) l /\ route (k, v) = Some s.
Proof.
  intro Hl. destruct (fold_routed_Some _ _ _ Hl) as [?|?];
    [discriminate | assumption].
Qed.

Lemma fold_routed_keeps s l acc :
  acc <> None ->
  fold_left (fun acc kv => if routed_to s (route kv) then Some (snd kv) else acc)
            l acc <> None.
Proof.
  revert acc. induction l as [|kv l IH]; intros acc Hacc; cbn [fold_left];
    [assumption|].
  apply IH. now destruct (routed_to s (route kv)).
Qed.

Lemma last_routed_not_None s l k v :
  In (k, v) l -> route (k, v) = Some s -> last_routed s l <> None.
Proof.
  unfold last_routed. generalize (@None string) at 1.
  induction l as [|kv l IH]; intros acc Hin Hr; [destruct Hin|].
  cbn [fold_left]. destruct Hin as [->|Hin].
  - apply fold_routed_keeps. rewrite Hr. unfold routed_to.
    now destruct (slot_eq_dec s s).
  - now apply IH.
Qed.

Lemma canonical_route kv :
  canonical kv = true <->
  exists s, route kv = Some s /\ slot_in_range s = true /\
            saved_key s = fst kv /\ fst kv <> "__proto__".
Proof.
  unfold canonical. destruct (route kv) as [s|].
  - rewrite !andb_true_iff, negb_true_iff, String.eqb_eq, String.eqb_neq.
    split.
    + intros [[Hr Hk] Hp]. now exists s.
    + intros (s' & [= <-] & Hr & Hk & Hp). now repeat split.
  - split; [discriminate | intros (s & [=] & _)].
Qed.

(** In a file with distinct keys whose entries all come back under their
    own key, the entries routed to a place are one at most. *)
Lemma last_routed_canonical s l k v :
  NoDup (JsMap.keys l) ->
  (forall kv, In kv l -> canonical kv = true) ->
  In (k, v) l -> route (k, v) = Some s -> last_routed s l = Some v.
Proof.
  intros Hnd Hcan Hin Hr.
  destruct (last_routed s l) as [v'|] eqn:Hl;
    [|now destruct (last_routed_not_None _ _ _ Hin Hr)].
  destruct (last_routed_Some _ _ Hl) as (k' & Hin' & Hr').
  destruct (proj1 (canonical_route _) (Hcan _ Hin)) as (s1 & Hs1 & _ & Hc & _).
  destruct (proj1 (canonical_route _) (Hcan _ Hin'))
    as (s2 & Hs2 & _ & Hc' & _).
  cbn [fst] in Hc, Hc'.
  assert (k' = k) as -> by congruence.
  apply (In_get _ _ _ Hnd) in Hin, Hin'. congruence.
Qed.

Lemma last_routed_canonical_iff s l v :
  NoDup (JsMap.keys l) ->
  (forall kv, In kv l -> canonical kv = true) ->
  last_routed s l = Some v <->
  exists k, In (k, v) l /\ route (k, v) = Some s.
Proof.
  intros Hnd Hcan. split; [apply last_routed_Some|].
  intros (k & Hin & Hr). now apply (last_routed_canonical _ _ _ Hnd Hcan Hin).
Qed.

Lemma replConfig_entry_effect kv st :
  replConfig (entry_effect kv st) = replConfig st.
Proof.
  destruct kv as [key value]. unfold entry_effect.
  destruct (isIgnoredKey key); [reflexivity|].
  destruct (Js.startsWith key "f/").
  { unfold fabric_key_effect. now destruct (fabric_slot key) as [[]|]. }
  destruct (Js.startsWith key "g/"); [|reflexivity].
  unfold global_key_effect.
  destruct (key =? "g/fidx"); [reflexivity|].
  destruct (key =? "g/lkgt"); [reflexivity|].
  destruct (key =? "g/sri"); [reflexivity|].
  destruct (Js.startsWith key "g/s/"); [|reflexivity].
  now destruct (TlvSessionResumptionEntry_decode _).
Qed.

Lemma replConfig_loaded file st :
  replConfig (loaded file st) =
  match repl_config file with
  | Some r => r
  | None => JObject JsMap.empty
  end.
Proof.
  rewrite loaded_effect.
  apply (entries_effect_preserves
           (fun s => replConfig s =
                     match repl_config file with
                     | Some r => r
                     | None => JObject JsMap.empty
                     end)).
  - intros kv s _ <-. apply replConfig_entry_effect.
  - reflexivity.
Qed.

(** After a load every place that holds a value has the numbers of an
    entry of the file. *)
Lemma places_in_range_loaded file st :
  (forall kv,
     In kv (match sdk_config file with Some o => o | None => JsMap.empty end) ->
     entry_in_range kv = true) ->
  places_in_range (loaded file st).
Proof.
  intros Hrange s v Hread. rewrite read_loaded in Hread.
  destruct (last_routed_Some _ _ Hread) as (k & Hin & Hr).
  specialize (Hrange _ Hin). unfold entry_in_range in Hrange.
  now rewrite Hr in Hrange.
Qed.

(** The saved object has the entries of a file of canonical keys. *)
Lemma in_emitted_loaded file st l k v :
  sdk_config file = Some l ->
  NoDup (JsMap.keys l) ->
  (forall kv, In kv l -> canonical kv = true) ->
  In (k, v) (emitted (loaded file st)) <-> In (k, v) l.
Proof.
  intros Hsdk Hnd Hcan.
  rewrite (in_emitted _ _ (maps_of_state_loaded file st)).
  split.
  - intros (s & <- & Hread). rewrite read_loaded, Hsdk in Hread.
    destruct (last_routed_Some _ _ Hread) as (k & Hin & Hr).
    destruct (proj1 (canonical_route _) (Hcan _ Hin))
      as (s' & Hs' & _ & Hc & _).
    cbn [fst] in Hc. assert (s' = s) as -> by congruence. now rewrite Hc.
  - intro Hin.
    destruct (proj1 (canonical_route _) (Hcan _ Hin)) as (s & Hr & _ & Hc & _).
    cbn [fst] in Hc. exists s. split; [assumption|].
    rewrite read_loaded, Hsdk.
    now apply (last_routed_canonical _ _ _ Hnd Hcan Hin).
Qed.

Lemma get_saved_loaded file st l k :
  sdk_config file = Some l ->
  NoDup (JsMap.keys l) ->
  (forall kv, In kv l -> canonical kv = true) ->
  JsMap.get (save_sdkConfig (loaded file st)) k = JsMap.get l k.
Proof.
  intros Hsdk Hnd Hcan. rewrite save_sdkConfig_fold.
  destruct (JsMap.get l k) as [v|] eqn:Hget.
  - apply get_assigned_unique.
    + apply get_In in Hget.
      now destruct (proj1 (canonical_route _) (Hcan _ Hget))
        as (_ & _ & _ & _ & Hp).
    + apply (in_emitted_loaded _ _ _ _ Hsdk Hnd Hcan). now apply get_In.
    + intros v' Hin'. apply (in_emitted_loaded _ _ _ _ Hsdk Hnd Hcan) in Hin'.
      apply (In_get _ _ _ Hnd) in Hin'. congruence.
  - rewrite get_assigned_none; [reflexivity|].
    intros v Hin. apply (in_emitted_loaded _ _ _ _ Hsdk Hnd Hcan) in Hin.
    apply (In_get _ _ _ Hnd) in Hin. congruence.
Qed.

(** Two objects with distinct keys and the same value under every key have
    the same entries. *)
Lemma same_entries (l l' : JsMap.t string string) k v :
  NoDup (JsMap.keys l) -> NoDup (JsMap.keys l') ->
  (forall k, JsMap.get l' k = JsMap.get l k) ->
  In (k, v) l' <-> In (k, v) l.
Proof.
  intros Hnd Hnd' Hget. split; intro Hin.
  - apply get_In. rewrite <- Hget. now apply In_get.
  - apply get_In. rewrite Hget. now apply In_get.
Qed.

(** Loading a file that holds what [save] built of a loaded canonical
    file. *)
Lemma read_reloaded file st l savedFile l' st2 s :
  sdk_config file = Some l ->
  NoDup (JsMap.keys l) ->
  (forall kv, In kv l -> canonical kv = true) ->
  sdk_config savedFile = Some l' ->
  NoDup (JsMap.keys l') ->
  (forall k, JsMap.get l' k = JsMap.get (save_sdkConfig (loaded file st)) k) ->
  read (loaded savedFile st2) s = read (loaded file st) s.
Proof.
  intros Hsdk Hnd Hcan Hsdk' Hnd' Hsaved.
  rewrite !read_loaded, Hsdk, Hsdk'.
  assert (Hsame : forall k v, In (k, v) l' <-> In (k, v) l).
  { intros k v. apply same_entries; try assumption.
    intro k'. rewrite Hsaved. now apply get_saved_loaded. }
  assert (Hcan' : forall kv, In kv l' -> canonical kv = true).
  { intros [k v] Hin. apply Hcan. now apply Hsame. }
  destruct (last_routed s l) as [v|] eqn:Hl.
  - apply (@last_routed_canonical_iff _ _ _ Hnd Hcan) in Hl
      as (k & Hin & Hr).
    apply (@last_routed_canonical_iff _ _ _ Hnd' Hcan').
    exists k. split; [now apply Hsame | assumption].
  - destruct (last_routed s l') as [v|] eqn:Hl'; [|reflexivity].
    apply (@last_routed_canonical_iff _ _ _ Hnd' Hcan') in Hl'
      as (k & Hin & Hr).
    assert (Hsome : last_routed s l = Some v).
    { apply (@last_routed_canonical_iff _ _ _ Hnd Hcan).
      exists k. split; [now apply Hsame | assumption]. }
    congruence.
Qed.

End LoadPlaces.

(** ** Loading and saving, place by place *)

(** X6. What [load] leaves in the model is a function of the file alone:
    after a successful load every place (a field of a fabric, a resumption
    entry of a fabric, one of the three globals, an ignored or a generic
    key) whose numbers are safe integers holds the value of the last entry
    of the file that is routed to it, and holds nothing when no entry is
    routed to it, whatever the model held before.  (A number that is no
    safe integer is never rounded to one, so the entries routed to such a
    place are those of the code whatever else the file holds.) *)
Theorem load_stores_last_routed {runtime : Runtime} {schemas : TlvSchemas}
  (filePath content : string) (file : ChipConfigFile) (st : ChipConfigData)
  (s : slot) :
  readFile filePath = Ok content ->
  JSON_parse content = Ok (ParsedFile file) ->
  slot_in_range s = true ->
  exists st',
    load filePath st = (Ok tt, st') /\
    read st' s =
    last_routed s
      (match sdk_config file with Some o => o | None => JsMap.empty end).
Proof.
  intros Hread Hparse _. exists (loaded file st). split.
  - now apply (@load_loaded _ _ filePath content).
  - apply read_loaded.
Qed.

Lemma load_stores_last_routed_witness :
  exists st',
    load (runtime := Sample.runtime_with
                       (ParsedFile TestData.round_trip_file))
         (schemas := Sample.schemas) "chip.json"
         (Sample.state_with (Some [Byte.x01]) None (Some [Byte.x01])) =
      (Ok tt, st') /\
    read st' (InFabric 1 FMetadata) = Some "TWV0YWRhdGE=".
Proof.
  destruct (@load_stores_last_routed
              (Sample.runtime_with (ParsedFile TestData.round_trip_file))
              Sample.schemas "chip.json" "<chip.json>"
              TestData.round_trip_file
              (Sample.state_with (Some [Byte.x01]) None (Some [Byte.x01]))
              (InFabric 1 FMetadata) eq_refl eq_refl eq_refl)
    as (st' & Hrun & Hread).
  exists st'. split; [exact Hrun | exact Hread].
Defined.

(** X7. [save] writes the places of the model and nothing else, and leaves
    out one name only.  For a model whose maps have distinct keys and whose
    places hold values under safe integers only: a key of the object [save]
    builds has a value only if some place of the model holds that value and
    is written under that key; every place that holds a value has its key
    in the object, unless that key is [__proto__]; and the object never has
    the key [__proto__]. *)
Theorem save_writes_the_places (st : ChipConfigData) :
  maps_of_state st ->
  places_in_range st ->
  (forall k v, JsMap.get (save_sdkConfig st) k = Some v ->
     exists s, saved_key s = k /\ read st s = Some v) /\
  (forall s v, read st s = Some v -> saved_key s <> "__proto__" ->
     JsMap.has (save_sdkConfig st) (saved_key s) = true) /\
  JsMap.get (save_sdkConfig st) "__proto__" = None.
Proof.
  intros Hst _. rewrite save_sdkConfig_fold. split; [|split].
  - intros k v Hget. apply get_assigned in Hget as [[Hin _]|Hempty];
      [|discriminate].
    now apply (in_emitted _ _ Hst).
  - intros s v Hread Hp. apply (has_assigned _ _ v Hp).
    apply (in_emitted _ _ Hst). now exists s.
  - apply get_assigned_proto.
Qed.

Lemma save_writes_the_places_witness :
  JsMap.has
    (save_sdkConfig
       (Sample.state_with (Some [Byte.x01]) None (Some [Byte.x01])))
    "f/1/r" = true.
Proof.
  assert (Hst : maps_of_state
                  (Sample.state_with (Some [Byte.x01]) None (Some [Byte.x01]))).
  { split; [|split; [|split]].
    - repeat constructor. intros [].
    - intros idx fabric [[= <- <-]|[]]. repeat split; constructor.
    - constructor.
    - constructor. }
  assert (Hrange : places_in_range
                     (Sample.state_with (Some [Byte.x01]) None
                                        (Some [Byte.x01]))).
  { intros [idx fd|idx rid| | | |key|key] v; simpl; try discriminate.
    - destruct (N.eq_dec idx 1) as [->|Hne];
        [destruct fd; try discriminate; reflexivity|].
      destruct idx as [|[p|p|]]; try discriminate; congruence.
    - destruct idx as [|[p|p|]]; discriminate. }
  destruct (@save_writes_the_places _ Hst Hrange) as (_ & Hhas & _).
  apply (Hhas (InFabric 1 FRcac) ""%string eq_refl). discriminate.
Defined.

(** X8. A file survives [load] and [save] when its keys are distinct and
    each entry is canonical, that is, its numbers are safe integers, [load]
    stores it in a place that [save] writes under the key the entry came
    with, and that key is not [__proto__]: the object [save] builds then
    has, for every key, the value the file has. *)
Theorem save_load_round_trip {runtime : Runtime} {schemas : TlvSchemas}
  (filePath content : string) (file : ChipConfigFile)
  (entries : JsMap.t string string) (st : ChipConfigData) :
  readFile filePath = Ok content ->
  JSON_parse content = Ok (ParsedFile file) ->
  sdk_config file = Some entries ->
  well_formed file ->
  (forall kv, In kv entries -> canonical kv = true) ->
  exists st',
    load filePath st = (Ok tt, st') /\
    forall k, JsMap.get (save_sdkConfig st') k = JsMap.get entries k.
Proof.
  intros Hread Hparse Hsdk Hwf Hcan. unfold well_formed in Hwf.
  rewrite Hsdk in Hwf.
  exists (loaded file st). split.
  - now apply (@load_loaded _ _ filePath content).
  - intro k. now apply get_saved_loaded.
Qed.

Lemma save_load_round_trip_witness :
  exists st',
    load (runtime := Sample.runtime_with
                       (ParsedFile TestData.round_trip_file))
         (schemas := Sample.schemas) "chip.json" new_ChipConfigData =
      (Ok tt, st') /\
    forall k,
      JsMap.get (save_sdkConfig st') k = JsMap.get TestData.round_trip k.
Proof.
  apply (@save_load_round_trip
           (Sample.runtime_with (ParsedFile TestData.round_trip_file))
           Sample.schemas "chip.json" "<chip.json>"
           TestData.round_trip_file TestData.round_trip new_ChipConfigData
           eq_refl eq_refl eq_refl).
  - repeat (constructor; [simpl; intuition discriminate|]). constructor.
  - intros kv Hin. simpl in Hin.
    repeat (destruct Hin as [<-|Hin]; [vm_compute; reflexivity|]).
    destruct Hin.
Defined.

(** X9. Load, save, load.  Take a file with distinct keys and canonical
    entries only, load it, and let [save] build its object.  Loading a file
    that parses to an object holding, under every key, what that object
    holds gives the same model again, place by place. *)
Theorem reload_keeps_places {runtime : Runtime} {schemas : TlvSchemas}
  (filePath content : string) (file : ChipConfigFile)
  (entries : JsMap.t string string) (st : ChipConfigData)
  (savedPath savedContent : string) (savedFile : ChipConfigFile)
  (savedEntries : JsMap.t string string) (st2 : ChipConfigData) (s : slot) :
  readFile filePath = Ok content ->
  JSON_parse content = Ok (ParsedFile file) ->
  sdk_config file = Some entries ->
  well_formed file ->
  (forall kv, In kv entries -> canonical kv = true) ->
  readFile savedPath = Ok savedContent ->
  JSON_parse savedContent = Ok (ParsedFile savedFile) ->
  sdk_config savedFile = Some savedEntries ->
  well_formed savedFile ->
  (forall k, JsMap.get savedEntries k =
             JsMap.get (save_sdkConfig (snd (load filePath st))) k) ->
  fst (load savedPath st2) = Ok tt /\
  read (snd (load savedPath st2)) s = read (snd (load filePath st)) s.
Proof.
  intros Hread Hparse Hsdk Hwf Hcan Hread' Hparse' Hsdk' Hwf' Hsaved.
  unfold well_formed in Hwf, Hwf'. rewrite Hsdk in Hwf. rewrite Hsdk' in Hwf'.
  rewrite (@load_loaded _ _ filePath content file st Hread Hparse) in *.
  rewrite (@load_loaded _ _ savedPath savedContent savedFile st2
             Hread' Hparse').
  cbn [fst snd] in *. split; [reflexivity|].
  eapply read_reloaded; eassumption.
Qed.

Lemma reload_keeps_places_witness :
  read
    (snd (load (runtime := two_files (ParsedFile TestData.round_trip_file)
                                     (ParsedFile SavedData.saved_file))
               (schemas := Sample.schemas) "saved.json" new_ChipConfigData))
    (InResumptions 1 "resumption1") =
  Some "FSQBASQCcBg="%string.
Proof.
  destruct (@reload_keeps_places
              (two_files (ParsedFile TestData.round_trip_file)
                         (ParsedFile SavedData.saved_file))
              Sample.schemas
              "chip.json" "<chip.json>" TestData.round_trip_file
              TestData.round_trip new_ChipConfigData
              "saved.json" "<saved.json>" SavedData.saved_file
              (save_sdkConfig
                 (snd (load_parsed (runtime := Sample.runtime)
                         (schemas := Sample.schemas)
                         (ParsedFile TestData.round_trip_file)
                         new_ChipConfigData)))
              new_ChipConfigData (InResumptions 1 "resumption1")
              eq_refl eq_refl eq_refl) as [_ Hsame].
  - repeat (constructor; [simpl; intuition discriminate|]). constructor.
  - intros kv Hin. simpl in Hin.
    repeat (destruct Hin as [<-|Hin]; [vm_compute; reflexivity|]).
    destruct Hin.
  - reflexivity.
  - reflexivity.
  - reflexivity.
  - vm_compute.
    repeat (constructor; [simpl; intuition discriminate|]). constructor.
  - intro k. vm_compute. reflexivity.
  - rewrite Hsame. vm_compute. reflexivity.
Defined.

(** X10. What becomes of [repl-config].  [load] keeps the member as it is,
    whatever JSON value it is, and an empty object when the file has none
    (or [null]).  [save] writes it back exactly when [Object.keys] finds a
    key on it: an object or an array with a member, a string with a
    character.  So loading a file whose [repl-config] member is what [save]
    wrote gives the original value when that has a key, and the empty
    object otherwise: a number, a boolean, an empty string or an empty array
    does not come back. *)
Theorem replConfig_round_trip {runtime : Runtime} {schemas : TlvSchemas}
  (filePath content : string) (file : ChipConfigFile) (st : ChipConfigData)
  (savedPath savedContent : string) (savedFile : ChipConfigFile)
  (st2 : ChipConfigData) :
  readFile filePath = Ok content ->
  JSON_parse content = Ok (ParsedFile file) ->
  readFile savedPath = Ok savedContent ->
  JSON_parse savedContent = Ok (ParsedFile savedFile) ->
  repl_config savedFile = repl_config (save_output (snd (load filePath st))) ->
  let kept :=
    match repl_config file with
    | Some value => value
    | None => JObject JsMap.empty
    end in
  replConfig (snd (load filePath st)) = kept /\
  repl_config (save_output (snd (load filePath st))) =
    (if (0 <? Object_keys_length kept)%nat then Some kept else None) /\
  replConfig (snd (load savedPath st2)) =
    (if (0 <? Object_keys_length kept)%nat then kept else JObject JsMap.empty).
Proof.
  intros Hread Hparse Hread' Hparse' Hsaved kept.
  rewrite (@load_loaded _ _ filePath content file st Hread Hparse) in *.
  rewrite (@load_loaded _ _ savedPath savedContent savedFile st2
             Hread' Hparse').
  cbn [fst snd] in *.
  rewrite !replConfig_loaded, Hsaved. cbn [repl_config save_output].
  rewrite replConfig_loaded. fold kept.
  split; [reflexivity|]. split; [reflexivity|].
  now destruct (0 <? Object_keys_length kept)%nat.
Qed.

Lemma replConfig_round_trip_witness :
  replConfig
    (snd (load (runtime := two_files
                             (ParsedFile {| sdk_config := None;
                                            repl_config := Some (JNumber "5") |})
                             (ParsedFile {| sdk_config := Some [];
                                            repl_config := None |}))
               (schemas := Sample.schemas) "saved.json" new_ChipConfigData)) =
  JObject JsMap.empty.
Proof.
  destruct (@replConfig_round_trip
              (two_files
                 (ParsedFile {| sdk_config := None;
                                repl_config := Some (JNumber "5") |})
                 (ParsedFile {| sdk_config := Some [];
                                repl_config := None |}))
              Sample.schemas
              "chip.json" "<chip.json>"
              {| sdk_config := None; repl_config := Some (JNumber "5") |}
              new_ChipConfigData
              "saved.json" "<saved.json>"
              {| sdk_config := Some []; repl_config := None |}
              new_ChipConfigData eq_refl eq_refl eq_refl eq_refl eq_refl)
    as (_ & _ & Hreloaded).
  exact Hreloaded.
Defined.

(** X11. A file whose text is the JSON [null] is the one input on which
    [load] fails after it has touched the model: it throws when it reads
    the first member, and by then the fabrics, globals, session index and
    the two buckets have been cleared, so every place is empty; only
    [replConfig] is what it was. *)
Theorem load_null_clears {runtime : Runtime} {schemas : TlvSchemas}
  (filePath content : string) (st : ChipConfigData) :
  readFile filePath = Ok content ->
  JSON_parse content = Ok ParsedNull ->
  exists err st',
    load filePath st = (Throw err, st') /\
    (forall s, read st' s = None) /\
    getFabricIndices st' = [] /\
    replConfig st' = replConfig st.
Proof.
  intros Hread Hparse.
  exists (JsError "Cannot read properties of null"), (clear st).
  split; [|split; [|split]].
  - unfold load, bind, lift. rewrite Hread, Hparse. reflexivity.
  - now intros [].
  - reflexivity.
  - reflexivity.
Qed.

Lemma load_null_clears_witness :
  exists err st',
    load (runtime := Sample.runtime) (schemas := Sample.schemas) "chip.json"
         (Sample.state_with (Some [Byte.x01]) None (Some [Byte.x01])) =
      (Throw err, st') /\
    getFabricIndices st' = [].
Proof.
  destruct (@load_null_clears Sample.runtime Sample.schemas
              "chip.json" "<chip.json>"
              (Sample.state_with (Some [Byte.x01]) None (Some [Byte.x01]))
              eq_refl eq_refl)
    as (err & st' & Hrun & Hempty & Hidx & Hrepl).
  exists err, st'. split; [exact Hrun | exact Hidx].
Defined.
(** ** Decimal digits read as hexadecimal *)

Lemma parseInt16_from_digits acc d :
  Js.parseInt16_from acc (NilEmpty.string_of_uint d) = uint_in 16 acc d.
Proof.
  revert acc. induction d; intro acc; simpl; try apply IHd; try reflexivity;
    rewrite <- IHd; f_equal; lia.
Qed.

Lemma parseInt16_digits d :
  Js.parseInt16 (NilZero.string_of_uint d) = uint_in 16 0 d.
Proof.
  unfold Js.parseInt16.
  destruct d; try apply parseInt16_from_digits. reflexivity.
Qed.

Lemma of_uint_acc_in d acc :
  Npos (Pos.of_uint_acc d acc) = uint_in 10 (Npos acc) d.
Proof.
  revert acc. induction d; intro acc; cbn [Pos.of_uint_acc uint_in];
    try reflexivity; rewrite IHd; f_equal; lia.
Qed.

Lemma of_uint_in d : N.of_uint d = uint_in 10 0 d.
Proof.
  unfold N.of_uint.
  induction d; simpl; try reflexivity; try assumption;
    now rewrite of_uint_acc_in.
Qed.

Lemma to_uint_in n : uint_in 10 0 (N.to_uint n) = n.
Proof. rewrite <- of_uint_in. apply DecimalN.Unsigned.of_to. Qed.

Lemma uint_in_le a b d :
  (a <= b)%N -> (uint_in 10 a d <= uint_in 16 b d)%N.
Proof.
  revert a b. induction d; intros a b Hab; cbn [uint_in]; try assumption;
    apply IHd; lia.
Qed.

Lemma uint_in_lt a b d :
  (a < b)%N -> (uint_in 10 a d < uint_in 16 b d)%N.
Proof.
  revert a b. induction d; intros a b Hab; cbn [uint_in]; try assumption;
    apply IHd; lia.
Qed.

Lemma uint_in_grows a d :
  (a < 10)%N -> (10 <= uint_in 10 a d)%N ->
  (uint_in 10 a d < uint_in 16 a d)%N.
Proof.
  revert a. induction d; intros a Ha Hd; cbn [uint_in] in *; try lia;
    (destruct (N.eq_dec a 0) as [->|Hpos];
     [apply IHd; [lia | exact Hd] | apply uint_in_lt; lia]).
Qed.

(** The decimal text of a number, read back as hexadecimal, is the number
    below ten and more than the number from ten on. *)
Lemma parseInt16_N_toString n :
  ((n < 10)%N -> Js.parseInt16 (Js.N_toString n) = n) /\
  ((10 <= n)%N -> (n < Js.parseInt16 (Js.N_toString n))%N).
Proof.
  unfold Js.N_toString. rewrite parseInt16_digits. split; intro Hn.
  - destruct n as [|p]; [reflexivity|].
    do 4 (destruct p as [p|p|]; try reflexivity; try lia).
  - pose proof (to_uint_in n) as Hdec.
    rewrite <- Hdec at 1. apply uint_in_grows; [lia|]. now rewrite Hdec.
Qed.

Lemma all_hex_digits d : Js.all_hex (NilEmpty.string_of_uint d) = true.
Proof. induction d; simpl; auto. Qed.

Lemma all_hex_N_toString n : Js.all_hex (Js.N_toString n) = true.
Proof.
  unfold Js.N_toString, NilZero.string_of_uint.
  destruct (N.to_uint n); try reflexivity; apply all_hex_digits.
Qed.

Lemma N_toString_nonempty n : Js.N_toString n <> EmptyString.
Proof.
  unfold Js.N_toString, NilZero.string_of_uint.
  destruct (N.to_uint n); discriminate.
Qed.

Lemma all_dot_digits d : Js.all_dot (NilEmpty.string_of_uint d) = true.
Proof. induction d; simpl; auto. Qed.

Lemma all_dot_jsnum_toString x : Js.all_dot (Js.jsnum_toString x) = true.
Proof.
  destruct x as [|z]; [reflexivity|].
  unfold Js.jsnum_toString, NilZero.string_of_int, NilZero.string_of_uint.
  destruct (Z.to_int z) as [d|d]; destruct d; try reflexivity;
    apply all_dot_digits.
Qed.

Lemma digits10_Some a d :
  Js.digits10 (Some a) (NilEmpty.string_of_uint d) = Some (uint_in 10 a d).
Proof.
  revert a. induction d; intro a;
    cbn [NilEmpty.string_of_uint Js.digits10 uint_in]; try reflexivity;
    cbn; rewrite IHd; do 2 f_equal; lia.
Qed.

Lemma parseInt10_digits d :
  d <> Decimal.Nil ->
  Js.parseInt10 (NilEmpty.string_of_uint d) = Int (Z.of_N (uint_in 10 0 d)) /\
  Js.parseInt10 (String "-" (NilEmpty.string_of_uint d)) =
    Int (- Z.of_N (uint_in 10 0 d)).
Proof.
  intro Hd. unfold Js.parseInt10.
  destruct d; try contradiction;
    cbn [NilEmpty.string_of_uint Js.skip_white_space];
    cbn -[Js.digits10 uint_in Z.of_N];
    cbn [Js.digits10]; cbn -[Js.digits10 uint_in Z.of_N];
    rewrite digits10_Some; cbn [uint_in]; split; reflexivity.
Qed.

(** A key index survives being written by [save] and parsed by [load]. *)
Lemma parseInt10_jsnum_toString x : Js.parseInt10 (Js.jsnum_toString x) = x.
Proof.
  destruct x as [|z]; [reflexivity|].
  unfold Js.jsnum_toString, NilZero.string_of_int, NilZero.string_of_uint.
  destruct z as [|p|p]; [reflexivity| |]; cbn [Z.to_int].
  - pose proof (DecimalPos.Unsigned.to_uint_nonnil p) as Hnn.
    pose proof (to_uint_in (Npos p)) as Hv. cbn [N.to_uint] in Hv.
    destruct (parseInt10_digits Hnn) as [Hpos _]. rewrite Hv in Hpos.
    destruct (Pos.to_uint p); try contradiction; exact Hpos.
  - pose proof (DecimalPos.Unsigned.to_uint_nonnil p) as Hnn.
    pose proof (to_uint_in (Npos p)) as Hv. cbn [N.to_uint] in Hv.
    destruct (parseInt10_digits Hnn) as [_ Hneg]. rewrite Hv in Hneg.
    destruct (Pos.to_uint p); try contradiction; exact Hneg.
Qed.

Lemma field_of_key_index t : field_of ("k/" ++ t) = FKey (Js.parseInt10 t).
Proof. unfold field_of. cbn. now destruct t. Qed.

(** The name [save] gives a field is read by [load] as the same field. *)
Lemma field_of_field_name sub :
  field_of (field_name (field_of sub)) = field_of sub.
Proof.
  unfold field_of at 2 3.
  destruct (sub =? "n") eqn:Hn; [reflexivity|].
  destruct (sub =? "i") eqn:Hi; [reflexivity|].
  destruct (sub =? "r") eqn:Hr; [reflexivity|].
  destruct (sub =? "m") eqn:Hm; [reflexivity|].
  destruct (Js.startsWith sub "k/") eqn:Hk.
  { cbn [field_name]. rewrite field_of_key_index.
    now rewrite parseInt10_jsnum_toString. }
  destruct (Js.startsWith sub "s/") eqn:Hs.
  { cbn [field_name].
    replace ("s/" ++ Js.slice 2 sub) with sub
      by exact (startsWith_slice _ _ Hs).
    unfold field_of. now rewrite Hn, Hi, Hr, Hm, Hk, Hs. }
  cbn [field_name]. unfold field_of. now rewrite Hn, Hi, Hr, Hm, Hk, Hs.
Qed.

Lemma dot_plus_field_name sub :
  Js.dot_plus sub = true -> Js.dot_plus (field_name (field_of sub)) = true.
Proof.
  intro Hsub. unfold field_of.
  destruct (sub =? "n"); [reflexivity|].
  destruct (sub =? "i"); [reflexivity|].
  destruct (sub =? "r"); [reflexivity|].
  destruct (sub =? "m"); [reflexivity|].
  destruct (Js.startsWith sub "k/").
  { cbn [field_name]. cbn. apply all_dot_jsnum_toString. }
  destruct (Js.startsWith sub "s/") eqn:Hs.
  { cbn [field_name].
    replace ("s/" ++ Js.slice 2 sub) with sub
      by exact (startsWith_slice _ _ Hs).
    exact Hsub. }
  exact Hsub.
Qed.

Lemma slash_split a a' b b' :
  Js.all_hex a = true -> Js.all_hex a' = true ->
  a ++ "/" ++ b = a' ++ "/" ++ b' -> a = a' /\ b = b'.
Proof.
  revert a'. induction a as [|c a IH]; intros [|c' a'] Ha Ha' E.
  - injection E as ->. now split.
  - injection E as <- _. discriminate Ha'.
  - injection E as -> _. discriminate Ha.
  - injection E as -> E. simpl in Ha, Ha'.
    apply andb_true_iff in Ha as [_ Ha]. apply andb_true_iff in Ha' as [_ Ha'].
    destruct (IH _ Ha Ha' E) as [-> ->]. now split.
Qed.

Lemma N_toString_digit n :
  (n < 10)%N ->
  exists d, Js.N_toString n = String d "" /\ Js.dec_digit d <> None.
Proof.
  intro Hn. destruct n as [|p].
  - exists "0"%char. now split.
  - do 4 (destruct p as [p|p|]; try lia;
          try (eexists; split; [reflexivity | discriminate])).
Qed.

Lemma digit_toString d :
  Js.dec_digit d <> None ->
  Js.N_toString (Js.parseInt16 (String d "")) = String d "" /\
  Js.all_hex (String d "") = true.
Proof.
  destruct d as [[] [] [] [] [] [] [] []]; intro Hd;
    try (exfalso; apply Hd; reflexivity); split; reflexivity.
Qed.

Section Reloading.
Context {runtime : Runtime} {schemas : TlvSchemas}.

Lemma route_fabric_key h sub value :
  h <> EmptyString -> Js.all_hex h = true -> Js.dot_plus sub = true ->
  route ("f/" ++ h ++ "/" ++ sub, value) =
  Some (InFabric (Js.parseInt16 h) (field_of sub)).
Proof.
  intros Hne Hh Hsub. unfold route.
  rewrite isIgnoredKey_fabric by apply (startsWith_append "f/").
  rewrite (startsWith_append "f/"). unfold fabric_slot.
  now rewrite match_fabric_key_intro.
Qed.

Lemma route_resumption rid value :
  route ("g/s/" ++ rid, value) =
  match TlvSessionResumptionEntry_decode (raw (decodeEntry value)) with
  | Ok decoded => Some (InResumptions (Tlv.fabricIndex decoded) rid)
  | Throw _ => Some (InGeneric ("g/s/" ++ rid))
  end.
Proof.
  unfold route. rewrite isIgnoredKey_resumption.
  rewrite (startsWith_append "g/s/" rid).
  cbn -[TlvSessionResumptionEntry_decode decodeEntry].
  now destruct (TlvSessionResumptionEntry_decode _).
Qed.

End Reloading.

(** X12. What becomes of a fabric when the file [save] writes is loaded
    again.  [save] writes the index of a fabric in decimal and [load] reads
    the index of a key in hexadecimal: the key written for a field of
    fabric [idx] is routed by [load] to the same field of the fabric whose
    index is the decimal text of [idx] read as hexadecimal.  That is [idx]
    itself exactly for the indices below ten, and a larger index for every
    other.  (For an index below 2^32 and a key-set index that is a safe
    integer, so that every number involved is one the code computes
    exactly.) *)
Theorem saved_fabric_key_reloads {runtime : Runtime} {schemas : TlvSchemas}
  (idx : N) (sub value : string) :
  (idx < 2 ^ 32)%N ->
  field_in_range (field_of sub) = true ->
  Js.dot_plus sub = true ->
  route (saved_key (InFabric idx (field_of sub)), value) =
    Some (InFabric (Js.parseInt16 (Js.N_toString idx)) (field_of sub)) /\
  (Js.parseInt16 (Js.N_toString idx) = idx <-> (idx < 10)%N) /\
  ((10 <= idx)%N -> (idx < Js.parseInt16 (Js.N_toString idx))%N).
Proof.
  intros _ _ Hsub. split; [|split].
  - cbn [saved_key].
    rewrite route_fabric_key.
    + now rewrite field_of_field_name.
    + apply N_toString_nonempty.
    + apply all_hex_N_toString.
    + now apply dot_plus_field_name.
  - destruct (parseInt16_N_toString idx) as [Hlow Hhigh]. split.
    + intro Hfix. destruct (N.ltb_spec idx 10) as [Hlt|Hge]; [assumption|].
      specialize (Hhigh Hge). lia.
    + exact Hlow.
  - apply parseInt16_N_toString.
Qed.

Lemma saved_fabric_key_reloads_witness :
  route (runtime := Sample.runtime) (schemas := Sample.schemas)
    (saved_key (InFabric 10 (field_of "k/0")), "SVBL") =
  Some (InFabric 16 (FKey (Int 0))).
Proof.
  destruct (@saved_fabric_key_reloads Sample.runtime Sample.schemas
              10 "k/0" "SVBL" eq_refl eq_refl eq_refl) as [Hroute _].
  exact Hroute.
Defined.

(** X13. The canonical entries, by their keys.  Among the entries whose
    numbers are safe integers, [load] stores an entry in a place that [save]
    writes back under the same key exactly when its key is not [__proto__]
    and is an ignored key, or has neither the prefix [f/] nor the prefix
    [g/], or is one of [g/fidx], [g/lkgt], [g/sri], or has the prefix
    [g/s/], or is [f/<d>/<sub>] with one decimal digit [d] and a sub-key
    that [save] spells as the file does.  Every other such key is dropped
    or renamed by a load followed by a save; among them are all keys of
    fabrics whose index is not one decimal digit. *)
Theorem canonical_keys {runtime : Runtime} {schemas : TlvSchemas}
  (key value : string) :
  entry_in_range (key, value) = true ->
  (canonical (key, value) = true <->
   key <> "__proto__" /\
   (isIgnoredKey key = true \/
    (Js.startsWith key "f/" = false /\ Js.startsWith key "g/" = false) \/
    In key ["g/fidx"; "g/lkgt"; "g/sri"] \/
    Js.startsWith key "g/s/" = true \/
    exists d sub,
      key = "f/" ++ String d "" ++ "/" ++ sub /\ Js.dec_digit d <> None /\
      Js.dot_plus sub = true /\ field_name (field_of sub) = sub)).
Proof.
  intro Hrange. rewrite canonical_route. cbn [fst].
  unfold entry_in_range in Hrange.
  split.
  - intros (s & Hroute & _ & Hc & Hp). split; [assumption|].
    revert Hroute. unfold route.
    destruct (isIgnoredKey key) eqn:Hi; [now left|].
    destruct (Js.startsWith key "f/") eqn:Hf.
    { intro Hroute. do 4 right.
      unfold fabric_slot in Hroute.
      destruct (Js.match_fabric_key key) as [[h sub]|] eqn:Hm;
        [|discriminate].
      injection Hroute as <-.
      apply match_fabric_key_spec in Hm as (-> & Hne & Hh & Hsub).
      cbn [saved_key] in Hc. injection Hc as Hc.
      apply slash_split in Hc as [Hidx Hname];
        [|apply all_hex_N_toString | assumption].
      destruct (parseInt16_N_toString (Js.parseInt16 h)) as [_ Hhigh].
      assert (Hlt : (Js.parseInt16 h < 10)%N).
      { destruct (N.ltb_spec (Js.parseInt16 h) 10) as [Hlt|Hge];
          [assumption|].
        specialize (Hhigh Hge). rewrite Hidx in Hhigh. lia. }
      destruct (@N_toString_digit _ Hlt) as (d & Hd & Hdigit).
      exists d, sub. rewrite <- Hd, Hidx. now repeat split. }
    destruct (Js.startsWith key "g/") eqn:Hg; [|intros _; right; now left].
    destruct (key =? "g/fidx") eqn:E1.
    { apply String.eqb_eq in E1. intros _. do 2 right; left. subst.
      now left. }
    destruct (key =? "g/lkgt") eqn:E2.
    { apply String.eqb_eq in E2. intros _. do 2 right; left. subst.
      right; now left. }
    destruct (key =? "g/sri") eqn:E3.
    { apply String.eqb_eq in E3. intros _. do 2 right; left. subst.
      do 2 right; now left. }
    destruct (Js.startsWith key "g/s/") eqn:Hs; [|discriminate].
    intros _. do 3 right; now left.
  - intros [Hp [Hi|[[Hf Hg]|[Hin|[Hs|(d & sub & -> & Hd & Hsub & Hname)]]]]].
    + exists (InIgnored key). unfold route. rewrite Hi. now repeat split.
    + unfold route in *.
      destruct (isIgnoredKey key) eqn:Hi;
        [exists (InIgnored key); now repeat split|].
      rewrite Hf, Hg. exists (InGeneric key). now repeat split.
    + destruct Hin as [<-|[<-|[<-|[]]]];
        [exists InFabricIndexList | exists InLastKnownGoodTime
         | exists InResumptionIndex]; now repeat split.
    + rewrite (startsWith_slice _ _ Hs) in Hrange |- *.
      cbn [String.length] in Hrange |- *.
      rewrite route_resumption in Hrange |- *.
      destruct (TlvSessionResumptionEntry_decode _) as [decoded|e];
        eexists; (split; [reflexivity|]); now repeat split.
    + destruct (@digit_toString d Hd) as [Hstr Hhex].
      rewrite route_fabric_key in Hrange |- *
        by (assumption || discriminate).
      eexists. split; [reflexivity|]. split; [assumption|].
      split; [|assumption]. cbn [saved_key]. now rewrite Hstr, Hname.
Qed.

Lemma canonical_keys_witness :
  canonical (runtime := Sample.runtime) (schemas := Sample.schemas)
    ("f/1/k/0", "SVBL") = true /\
  canonical (runtime := Sample.runtime) (schemas := Sample.schemas)
    ("f/A/n", "dGVzdA==") = false.
Proof.
  split.
  - apply (proj2 (@canonical_keys Sample.runtime Sample.schemas
                    "f/1/k/0" "SVBL" eq_refl)).
    split; [discriminate|]. do 4 right. exists "1"%char, "k/0".
    repeat split; try reflexivity; discriminate.
  - reflexivity.
Defined.

(** ** The table of fabrics after a load *)

Section FabricTable.
Context {runtime : Runtime} {schemas : TlvSchemas}.

Lemma index_write_field fd e f :
  Fabric.index (write_field fd e f) = Fabric.index f.
Proof.
  destruct fd; simpl; try reflexivity.
  - now destruct (TlvFabricMetadata_decode _).
  - now destruct (TlvGroupKeySet_decode _).
  - now destruct (TlvSessionResumptionDetails_decode _).
Qed.

Lemma index_entry_effect kv st :
  (forall i f, JsMap.get (fabrics st) i = Some f -> Fabric.index f = i) ->
  forall i f, JsMap.get (fabrics (entry_effect kv st)) i = Some f ->
              Fabric.index f = i.
Proof.
  intros Hst.
  assert (Hnew : forall idx, Fabric.index (fabric_or_new st idx) = idx).
  { intro idx. unfold fabric_or_new.
    destruct (JsMap.get (fabrics st) idx) as [f|] eqn:Hg; [|reflexivity].
    now apply Hst. }
  assert (Hput : forall idx f',
             Fabric.index f' = idx ->
             forall i f, JsMap.get (fabrics (put_fabric idx f' st)) i = Some f ->
                         Fabric.index f = i).
  { intros idx f' Hf' i f. destruct (N.eq_dec idx i) as [<-|Hne].
    - rewrite get_put_eq. now intros [= <-].
    - rewrite get_put_ne by assumption. apply Hst. }
  destruct kv as [key value]. unfold entry_effect.
  destruct (isIgnoredKey key); [exact Hst|].
  destruct (Js.startsWith key "f/").
  { unfold fabric_key_effect.
    destruct (fabric_slot key) as [[idx fd]|]; [|exact Hst].
    apply Hput. now rewrite index_write_field. }
  destruct (Js.startsWith key "g/"); [|exact Hst].
  unfold global_key_effect.
  destruct (key =? "g/fidx"); [exact Hst|].
  destruct (key =? "g/lkgt"); [exact Hst|].
  destruct (key =? "g/sri"); [exact Hst|].
  destruct (Js.startsWith key "g/s/"); [|exact Hst].
  destruct (TlvSessionResumptionEntry_decode _) as [decoded|e]; [|exact Hst].
  apply Hput. apply Hnew.
Qed.

Lemma index_loaded file st i f :
  JsMap.get (fabrics (loaded file st)) i = Some f -> Fabric.index f = i.
Proof.
  revert i f. rewrite loaded_effect.
  apply (entries_effect_preserves
           (fun s => forall i f, JsMap.get (fabrics s) i = Some f ->
                                 Fabric.index f = i)).
  - intros kv s _. apply index_entry_effect.
  - intros i f [=].
Qed.

End FabricTable.

(** X14. The table of fabrics after the load of a file whose fabric
    indices are safe integers.  Every fabric carries in its [index] member
    the index it is filed under; an index is listed by [getFabricIndices]
    exactly when [getFabric] finds a fabric for it, and that is exactly when
    an entry of the file brings the fabric into being; and the list is
    strictly ascending, so no index is listed twice. *)
Theorem loaded_fabric_table {runtime : Runtime} {schemas : TlvSchemas}
  (filePath content : string) (file : ChipConfigFile) (st : ChipConfigData) :
  readFile filePath = Ok content ->
  JSON_parse content = Ok (ParsedFile file) ->
  (forall kv i,
     In kv (match sdk_config file with
            | Some o => o
            | None => JsMap.empty
            end) ->
     owner kv = Some i -> Js.safe_N i = true) ->
  exists st',
    load filePath st = (Ok tt, st') /\
    (forall i f, getFabric st' i = Some f -> Fabric.index f = i) /\
    (forall i, In i (getFabricIndices st') <-> getFabric st' i <> None) /\
    (forall i, getFabric st' i <> None <->
       exists kv,
         In kv (match sdk_config file with
                | Some o => o
                | None => JsMap.empty
                end) /\
         owner kv = Some i) /\
    StronglySorted N.lt (getFabricIndices st').
Proof.
  intros Hread Hparse _. exists (loaded file st).
  assert (Hkeys : forall i, In i (JsMap.keys (fabrics (loaded file st))) <->
                            getFabric (loaded file st) i <> None).
  { intro i. unfold getFabric.
    pose proof (JsMapFacts.get_None_keys (fabrics (loaded file st)) i) as Hn.
    destruct (JsMap.get (fabrics (loaded file st)) i) as [f|].
    - split; [discriminate|]. intros _.
      destruct (in_dec N.eq_dec i (JsMap.keys (fabrics (loaded file st))))
        as [Hin|Hout]; [assumption|].
      apply Hn in Hout. discriminate.
    - split; [|congruence]. intro Hin. now apply Hn in Hin. }
  split; [|split; [|split; [|split]]].
  - now apply (@load_loaded _ _ filePath content).
  - intros i f. apply index_loaded.
  - intro i. unfold getFabricIndices. rewrite in_sort_numeric. apply Hkeys.
  - intro i. rewrite <- Hkeys, loaded_effect, entries_effect_fabric_keys.
    simpl. tauto.
  - unfold getFabricIndices. apply sort_numeric_strict.
    destruct (maps_of_state_loaded file st) as [Hnd _]. exact Hnd.
Qed.

Lemma loaded_fabric_table_witness :
  exists st',
    load (runtime := Sample.runtime_with (Sample.file_of Sample.hex_indices))
         (schemas := Sample.schemas) "chip.json" new_ChipConfigData =
      (Ok tt, st') /\
    StronglySorted N.lt (getFabricIndices st').
Proof.
  destruct (@loaded_fabric_table
              (Sample.runtime_with (Sample.file_of Sample.hex_indices))
              Sample.schemas "chip.json" "<chip.json>"
              {| sdk_config := Some Sample.hex_indices; repl_config := None |}
              new_ChipConfigData eq_refl eq_refl)
    as (st' & Hrun & _ & _ & _ & Hsorted).
  - intros kv i Hin. simpl in Hin.
    repeat (destruct Hin as [<-|Hin]; [intros [= <-]; reflexivity|]).
    destruct Hin.
  - exists st'. split; [exact Hrun | exact Hsorted].
Defined.

(** ** The fabric configuration *)

Lemma find_first {A} (p : A -> bool) l x :
  find p l = Some x ->
  exists before after,
    l = (before ++ x :: after)%list /\ p x = true /\
    forall y, In y before -> p y = false.
Proof.
  induction l as [|a l IH]; simpl; [discriminate|].
  destruct (p a) eqn:Hp.
  - intros [= <-]. exists [], l. repeat split; [assumption|]. intros y [].
  - intro Hfind. destruct (IH Hfind) as (before & after & -> & Hx & Hb).
    exists (a :: before), after. repeat split; [assumption|].
    intros y [<-|Hin]; [assumption | now apply Hb].
Qed.

(** X15. The identity protection key that [getFabricConfig] returns is the
    key of the first entry of key set 0 whose key has 16 bytes: every entry
    before it in the decoded key set has a key of another length. *)
Theorem getFabricConfig_first_ipk {certs : CertLib}
  (st : ChipConfigData) (idx : N) (cfg : FabricConfig.FabricConfigData) :
  getFabricConfig st idx = Some cfg ->
  exists fabric ks before ipk after,
    getFabric st idx = Some fabric /\
    JsMap.get (Fabric.keysDecoded fabric) (Int 0) = Some ks /\
    Tlv.keys ks = (before ++ ipk :: after)%list /\
    (forall k, In k before -> length (Tlv.key k) <> 16%nat) /\
    length (Tlv.key ipk) = 16%nat /\
    FabricConfig.identityProtectionKey cfg = Tlv.key ipk.
Proof.
  unfold getFabricConfig, getFabric. intro Hcfg.
  destruct (JsMap.get (fabrics st) idx) as [fabric|]; [|discriminate].
  destruct (snd (getRcac st idx)) as [rcac|]; [|discriminate].
  destruct (snd (getNoc st idx)) as [noc|]; [|discriminate].
  destruct (Fabric.rcac fabric) as [rcacE|]; [|discriminate].
  destruct (Fabric.noc fabric) as [nocE|]; [|discriminate].
  destruct (Noc_subject_nodeId noc) as [nodeId|]; [|discriminate].
  destruct (Noc_subject_fabricId noc) as [fabricId|]; [|discriminate].
  destruct (Rcac_subject_rcacId rcac) as [rcacId|]; [|discriminate].
  destruct (Fabric.metadataDecoded fabric) as [md|]; [|discriminate].
  destruct (JsMap.get (Fabric.keysDecoded fabric) (Int 0)) as [ks|] eqn:Hks;
    [|discriminate].
  destruct (length (Tlv.keys ks) =? 0)%nat; [discriminate|].
  destruct (find_ipk (Tlv.keys ks)) as [ipk|] eqn:Hfind; [|discriminate].
  injection Hcfg as <-.
  destruct (find_first _ _ Hfind) as (before & after & Hkeys & Hipk & Hbefore).
  exists fabric, ks, before, ipk, after.
  split; [reflexivity|]. split; [exact Hks|]. split; [assumption|].
  split; [|split; [|reflexivity]].
  - intros k Hin. apply Hbefore in Hin. now apply Nat.eqb_neq in Hin.
  - now apply Nat.eqb_eq in Hipk.
Qed.

Lemma getFabricConfig_first_ipk_witness :
  exists cfg,
    getFabricConfig (certs := Sample.certs)
      (configured_state
         [ {| Tlv.key := repeat Byte.x01 4 |};
           {| Tlv.key := repeat Byte.x02 16 |};
           {| Tlv.key := repeat Byte.x03 16 |} ]) 1 = Some cfg /\
    exists fabric ks before ipk after,
      getFabric
        (configured_state
           [ {| Tlv.key := repeat Byte.x01 4 |};
             {| Tlv.key := repeat Byte.x02 16 |};
             {| Tlv.key := repeat Byte.x03 16 |} ]) 1 = Some fabric /\
      JsMap.get (Fabric.keysDecoded fabric) (Int 0) = Some ks /\
      Tlv.keys ks = (before ++ ipk :: after)%list /\
      (forall k, In k before -> length (Tlv.key k) <> 16%nat) /\
      length (Tlv.key ipk) = 16%nat /\
      FabricConfig.identityProtectionKey cfg = Tlv.key ipk.
Proof.
  eexists. split; [reflexivity|].
  apply (@getFabricConfig_first_ipk Sample.certs
           (configured_state
              [ {| Tlv.key := repeat Byte.x01 4 |};
                {| Tlv.key := repeat Byte.x02 16 |};
                {| Tlv.key := repeat Byte.x03 16 |} ]) 1%N).
  reflexivity.
Defined.

(** X16. [getFabricConfig] and [verifyCertificateChain] read the same
    certificates but [getFabricConfig] verifies nothing.  When it returns a
    configuration, the RCAC and the NOC of the fabric decode, so the
    verifier does not stop at a missing certificate: it calls the
    verification of the RCAC and reports its outcome in [rcacValid].  The
    chain may still be invalid. *)
Theorem config_implies_chain_checked {certs : CertLib}
  (st : ChipConfigData) (idx : N) (cfg : FabricConfig.FabricConfigData) :
  getFabricConfig st idx = Some cfg ->
  rcacValid (snd (verifyCertificateChain st idx)) <> None /\
  In VerifyRcac (fst (verifyCertificateChain st idx)) /\
  error (snd (verifyCertificateChain st idx)) <>
    Some "RCAC not found or invalid" /\
  error (snd (verifyCertificateChain st idx)) <>
    Some "NOC not found or invalid".
Proof.
  unfold getFabricConfig. intro Hcfg.
  rewrite verifyCertificateChain_verdict, verifyCertificateChain_calls.
  destruct (JsMap.get (fabrics st) idx) as [fabric|]; [|discriminate].
  destruct (snd (getRcac st idx)) as [rcac|]; [|discriminate].
  destruct (snd (getNoc st idx)) as [noc|]; [|discriminate].
  clear Hcfg. unfold verdict.
  destruct (Rcac_verify rcac) as [[]|e].
  - split; [|split; [|split]].
    + destruct (snd (getIcac st idx)) as [icac|];
        [destruct (Icac_verify icac rcac)|];
        try destruct (Noc_verify noc rcac _); discriminate.
    + rewrite !in_app_iff. do 3 right. now left.
    + destruct (snd (getIcac st idx)) as [icac|];
        [destruct (Icac_verify icac rcac)|];
        try destruct (Noc_verify noc rcac _); discriminate.
    + destruct (snd (getIcac st idx)) as [icac|];
        [destruct (Icac_verify icac rcac)|];
        try destruct (Noc_verify noc rcac _); discriminate.
  - split; [|split; [|split]]; try discriminate.
    rewrite !in_app_iff. do 3 right. now left.
Qed.

Lemma config_implies_chain_checked_witness :
  exists cfg,
    getFabricConfig (certs := Sample.certs)
      (configured_state [ {| Tlv.key := repeat Byte.x02 16 |} ]) 1 =
      Some cfg /\
    rcacValid
      (snd (verifyCertificateChain (certs := Sample.certs)
              (configured_state [ {| Tlv.key := repeat Byte.x02 16 |} ]) 1))
      <> None /\
    valid
      (snd (verifyCertificateChain (certs := Sample.certs)
              (configured_state [ {| Tlv.key := repeat Byte.x02 16 |} ]) 1))
      = false.
Proof.
  eexists. split; [reflexivity|].
  destruct (@config_implies_chain_checked Sample.certs
              (configured_state [ {| Tlv.key := repeat Byte.x02 16 |} ]) 1%N
              _ eq_refl) as [Hchecked _].
  split; [exact Hchecked | reflexivity].
Defined.
(** ** Invariants of a loaded model *)

Section LoadedInvariants.
Context {runtime : Runtime} {schemas : TlvSchemas}.

Lemma fabric_backed_new idx : fabric_backed (new_FabricData idx).
Proof.
  split.
  - intros fd. destruct fd; discriminate.
  - intros rid. discriminate.
Qed.

Lemma fabric_backed_write_field fd e f :
  fabric_backed f -> fabric_backed (write_field fd e f).
Proof.
  intros [Hf Hr]. split.
  - intros fd' Hset. destruct (field_eq_dec fd fd') as [<-|Hne].
    + destruct (write_field_same fd e f) as [-> _]. discriminate.
    + destruct (@write_field_other _ fd e f fd' Hne) as [Hs Hd].
      rewrite Hs. apply Hf. now rewrite <- Hd.
  - intros rid. destruct (write_field_resumptions fd e f) as [-> ->].
    apply Hr.
Qed.

Lemma fabric_backed_resumption rid e d f :
  fabric_backed f ->
  fabric_backed (Fabric.resumptionsDecoded_set rid d
                   (Fabric.resumptions_set rid e f)).
Proof.
  intros [Hf Hr]. split.
  - intros fd Hset. destruct fd; simpl in *; try discriminate.
    + now apply (Hf FMetadata).
    + now apply (Hf (FKey keyIndex)).
    + now apply (Hf (FSession nodeHex)).
  - intros rid'. simpl. destruct (string_dec rid rid') as [<-|Hne].
    + intros _. apply JsMapFacts.has_set_eq.
    + rewrite !JsMapFacts.has_set_ne by assumption. apply Hr.
Qed.

Lemma fabric_backed_or_new st idx :
  decoded_backed st -> fabric_backed (fabric_or_new st idx).
Proof.
  intros [Hfs _]. unfold fabric_or_new.
  destruct (JsMap.get (fabrics st) idx) as [f|] eqn:Hg.
  - now apply (Hfs idx).
  - apply fabric_backed_new.
Qed.

Lemma decoded_backed_put idx f st :
  decoded_backed st -> fabric_backed f -> decoded_backed (put_fabric idx f st).
Proof.
  intros (Hfs & Hg) Hf. split; [|exact Hg].
  intros i f'. unfold getFabric. destruct (N.eq_dec idx i) as [<-|Hne].
  - rewrite get_put_eq. now intros [= <-].
  - rewrite get_put_ne by assumption. apply Hfs.
Qed.

Lemma decoded_backed_entry_effect kv st :
  decoded_backed st -> decoded_backed (entry_effect kv st).
Proof.
  intro Hst. destruct kv as [key value]. unfold entry_effect.
  destruct (isIgnoredKey key); [exact Hst|].
  destruct (Js.startsWith key "f/").
  { unfold fabric_key_effect.
    destruct (fabric_slot key) as [[idx fd]|]; [|exact Hst].
    apply decoded_backed_put; [assumption|].
    apply fabric_backed_write_field. now apply fabric_backed_or_new. }
  destruct (Js.startsWith key "g/"); [|exact Hst].
  unfold global_key_effect.
  destruct Hst as (Hfs & H1 & H2 & H3).
  destruct (key =? "g/fidx").
  { split; [exact Hfs|]. split; [|split; [|exact H3]].
    - destruct (TlvFabricIndexList_decode _); discriminate.
    - destruct (TlvFabricIndexList_decode _); exact H2. }
  destruct (key =? "g/lkgt").
  { split; [exact Hfs|]. split; [|split; [|exact H3]].
    - destruct (TlvLastKnownGoodTime_decode _); exact H1.
    - destruct (TlvLastKnownGoodTime_decode _); discriminate. }
  destruct (key =? "g/sri").
  { split; [exact Hfs|]. split; [exact H1|]. split; [exact H2|].
    destruct (TlvSessionResumptionIndex_decode _); discriminate. }
  assert (Hst : decoded_backed st)
    by exact (conj Hfs (conj H1 (conj H2 H3))).
  destruct (Js.startsWith key "g/s/"); [|exact Hst].
  destruct (TlvSessionResumptionEntry_decode _) as [decoded|e]; [|exact Hst].
  apply decoded_backed_put; [assumption|].
  apply fabric_backed_resumption. now apply fabric_backed_or_new.
Qed.

Lemma decoded_backed_loaded file st : decoded_backed (loaded file st).
Proof.
  rewrite loaded_effect. apply entries_effect_preserves.
  - intros kv s _. apply decoded_backed_entry_effect.
  - split; [intros i f [=]|].
    repeat split; intro H; exfalso; apply H; reflexivity.
Qed.

Lemma resumptions_owned_put idx f st :
  resumptions_owned st ->
  (forall rid decoded,
     JsMap.get (Fabric.resumptionsDecoded f) rid = Some decoded ->
     Tlv.fabricIndex decoded = idx) ->
  resumptions_owned (put_fabric idx f st).
Proof.
  intros Hst Hf i f' rid decoded. unfold getFabric.
  destruct (N.eq_dec idx i) as [<-|Hne].
  - rewrite get_put_eq. intros [= <-]. apply Hf.
  - rewrite get_put_ne by assumption. apply Hst.
Qed.

Lemma resumptions_owned_or_new st idx rid decoded :
  resumptions_owned st ->
  JsMap.get (Fabric.resumptionsDecoded (fabric_or_new st idx)) rid =
    Some decoded ->
  Tlv.fabricIndex decoded = idx.
Proof.
  intros Hst. unfold fabric_or_new.
  destruct (JsMap.get (fabrics st) idx) as [f|] eqn:Hg; [|discriminate].
  now apply (Hst idx f).
Qed.

Lemma resumptions_owned_entry_effect kv st :
  resumptions_owned st -> resumptions_owned (entry_effect kv st).
Proof.
  intro Hst. destruct kv as [key value]. unfold entry_effect.
  destruct (isIgnoredKey key); [exact Hst|].
  destruct (Js.startsWith key "f/").
  { unfold fabric_key_effect.
    destruct (fabric_slot key) as [[idx fd]|]; [|exact Hst].
    apply resumptions_owned_put; [assumption|].
    intros rid decoded.
    destruct (write_field_resumptions fd (decodeEntry value)
                (fabric_or_new st idx)) as [_ ->].
    now apply resumptions_owned_or_new. }
  destruct (Js.startsWith key "g/"); [|exact Hst].
  unfold global_key_effect.
  destruct (key =? "g/fidx"); [exact Hst|].
  destruct (key =? "g/lkgt"); [exact Hst|].
  destruct (key =? "g/sri"); [exact Hst|].
  destruct (Js.startsWith key "g/s/"); [|exact Hst].
  destruct (TlvSessionResumptionEntry_decode _) as [decoded|e]; [|exact Hst].
  apply resumptions_owned_put; [assumption|].
  intros rid d. simpl.
  destruct (string_dec (Js.slice 4 key) rid) as [<-|Hne].
  - rewrite JsMapFacts.get_set_eq. now intros [= <-].
  - rewrite JsMapFacts.get_set_ne by assumption.
    now apply resumptions_owned_or_new.
Qed.

Lemma resumptions_owned_loaded file st : resumptions_owned (loaded file st).
Proof.
  rewrite loaded_effect. apply entries_effect_preserves.
  - intros kv s _. apply resumptions_owned_entry_effect.
  - intros i f rid decoded [=].
Qed.

End LoadedInvariants.

(** X17. A successful [load] forgets the model it finds: loading the same
    file into two models, whatever they hold, gives the same result and the
    same model, decoded values included. *)
Theorem load_forgets_previous_model {runtime : Runtime} {schemas : TlvSchemas}
  (filePath content : string) (file : ChipConfigFile)
  (st1 st2 : ChipConfigData) :
  readFile filePath = Ok content ->
  JSON_parse content = Ok (ParsedFile file) ->
  load filePath st1 = load filePath st2.
Proof.
  intros Hread Hparse.
  rewrite (@load_loaded _ _ filePath content file st1 Hread Hparse),
          (@load_loaded _ _ filePath content file st2 Hread Hparse).
  now rewrite !loaded_effect.
Qed.

Lemma load_forgets_previous_model_witness :
  load (runtime := Sample.runtime_with (ParsedFile TestData.round_trip_file))
       (schemas := Sample.schemas) "chip.json"
       (Sample.state_with (Some [Byte.x01]) None (Some [Byte.x01])) =
  load (runtime := Sample.runtime_with (ParsedFile TestData.round_trip_file))
       (schemas := Sample.schemas) "chip.json" new_ChipConfigData.
Proof.
  exact (@load_forgets_previous_model
           (Sample.runtime_with (ParsedFile TestData.round_trip_file))
           Sample.schemas "chip.json" "<chip.json>" TestData.round_trip_file
           (Sample.state_with (Some [Byte.x01]) None (Some [Byte.x01]))
           new_ChipConfigData eq_refl eq_refl).
Defined.

(** X18. After a [load] every decoded value stands beside its raw entry.
    In every fabric, decoded metadata, a decoded key set or decoded session
    details are present only where the raw entry of the same field is, and
    a decoded resumption entry only where the raw resumption entry is; and
    a decoded fabric index list, last known good time or resumption index
    only where its raw entry is. *)
Theorem loaded_decoded_has_raw {runtime : Runtime} {schemas : TlvSchemas}
  (filePath content : string) (file : ChipConfigFile) (st : ChipConfigData) :
  readFile filePath = Ok content ->
  JSON_parse content = Ok (ParsedFile file) ->
  exists st', load filePath st = (Ok tt, st') /\ decoded_backed st'.
Proof.
  intros Hread Hparse. exists (loaded file st). split.
  - now apply (@load_loaded _ _ filePath content).
  - apply decoded_backed_loaded.
Qed.

Lemma loaded_decoded_has_raw_witness :
  exists st',
    load (runtime := Sample.runtime_with (ParsedFile TestData.round_trip_file))
         (schemas := Sample.schemas) "chip.json" new_ChipConfigData =
      (Ok tt, st') /\
    decoded_backed st'.
Proof.
  exact (@loaded_decoded_has_raw
           (Sample.runtime_with (ParsedFile TestData.round_trip_file))
           Sample.schemas "chip.json" "<chip.json>" TestData.round_trip_file
           new_ChipConfigData eq_refl eq_refl).
Defined.

(** X19. After a [load] no decoded resumption entry is filed under a
    foreign fabric: an entry found in [resumptionsDecoded] of fabric [i]
    names fabric [i] in its payload. *)
Theorem loaded_resumptions_owned {runtime : Runtime} {schemas : TlvSchemas}
  (filePath content : string) (file : ChipConfigFile) (st : ChipConfigData) :
  readFile filePath = Ok content ->
  JSON_parse content = Ok (ParsedFile file) ->
  exists st',
    load filePath st = (Ok tt, st') /\
    forall i fabric rid decoded,
      getFabric st' i = Some fabric ->
      JsMap.get (Fabric.resumptionsDecoded fabric) rid = Some decoded ->
      Tlv.fabricIndex decoded = i.
Proof.
  intros Hread Hparse. exists (loaded file st). split.
  - now apply (@load_loaded _ _ filePath content).
  - apply resumptions_owned_loaded.
Qed.

Lemma loaded_resumptions_owned_witness :
  exists st',
    load (runtime := Sample.runtime_with
                       (Sample.file_of Sample.resumption_entries))
         (schemas := Sample.schemas) "chip.json" new_ChipConfigData =
      (Ok tt, st') /\
    forall i fabric rid decoded,
      getFabric st' i = Some fabric ->
      JsMap.get (Fabric.resumptionsDecoded fabric) rid = Some decoded ->
      Tlv.fabricIndex decoded = i.
Proof.
  exact (@loaded_resumptions_owned
           (Sample.runtime_with (Sample.file_of Sample.resumption_entries))
           Sample.schemas "chip.json" "<chip.json>"
           {| sdk_config := Some Sample.resumption_entries;
              repl_config := None |}
           new_ChipConfigData eq_refl eq_refl).
Defined.
(** X20. A load followed by a save never alters a value, and loses a
    stored one under one name only.  For a file whose numbers are safe
    integers: every value of the object [save] builds is, byte for byte, the
    value of an entry of the file, written under the key of the place that
    entry was routed to; for every entry of the file that [load] routes to a
    place, the key of that place is in the object, unless that key is
    [__proto__], which the object never has.  (The key may differ from the
    entry's own, and entries that [load] routes nowhere are not written.) *)
Theorem saved_values_come_from_file {runtime : Runtime} {schemas : TlvSchemas}
  (filePath content : string) (file : ChipConfigFile)
  (entries : JsMap.t string string) (st : ChipConfigData) :
  readFile filePath = Ok content ->
  JSON_parse content = Ok (ParsedFile file) ->
  sdk_config file = Some entries ->
  (forall kv, In kv entries -> entry_in_range kv = true) ->
  exists st',
    load filePath st = (Ok tt, st') /\
    (forall k v, JsMap.get (save_sdkConfig st') k = Some v ->
       exists k0 s,
         In (k0, v) entries /\ route (k0, v) = Some s /\ saved_key s = k) /\
    (forall k0 v s, In (k0, v) entries -> route (k0, v) = Some s ->
       saved_key s <> "__proto__" ->
       JsMap.has (save_sdkConfig st') (saved_key s) = true) /\
    JsMap.get (save_sdkConfig st') "__proto__" = None.
Proof.
  intros Hread Hparse Hsdk _. exists (loaded file st).
  pose proof (maps_of_state_loaded file st) as Hmaps.
  split; [|split; [|split]].
  - now apply (@load_loaded _ _ filePath content).
  - intros k v Hget. rewrite save_sdkConfig_fold in Hget.
    apply get_assigned in Hget as [[Hin _]|Hempty]; [|discriminate].
    apply (in_emitted _ _ Hmaps) in Hin as (s & <- & Hs).
    rewrite read_loaded, Hsdk in Hs.
    destruct (last_routed_Some _ _ Hs) as (k0 & Hin & Hr).
    now exists k0, s.
  - intros k0 v s Hin Hr Hp.
    pose proof (last_routed_not_None _ _ _ Hin Hr) as Hsome.
    destruct (last_routed s entries) as [v'|] eqn:Hl; [|contradiction].
    rewrite save_sdkConfig_fold. apply (has_assigned _ _ v' Hp).
    apply (in_emitted _ _ Hmaps). exists s. split; [reflexivity|].
    now rewrite read_loaded, Hsdk.
  - rewrite save_sdkConfig_fold. apply get_assigned_proto.
Qed.

Lemma saved_values_come_from_file_witness :
  exists st',
    load (runtime := Sample.runtime_with (Sample.file_of Sample.hex_indices))
         (schemas := Sample.schemas) "chip.json" new_ChipConfigData =
      (Ok tt, st') /\
    JsMap.has (save_sdkConfig st') "f/10/n" = true.
Proof.
  destruct (@saved_values_come_from_file
              (Sample.runtime_with (Sample.file_of Sample.hex_indices))
              Sample.schemas "chip.json" "<chip.json>"
              {| sdk_config := Some Sample.hex_indices; repl_config := None |}
              Sample.hex_indices new_ChipConfigData eq_refl eq_refl eq_refl)
    as (st' & Hrun & _ & Hkept & _).
  - intros kv Hin. simpl in Hin.
    repeat (destruct Hin as [<-|Hin]; [reflexivity|]). destruct Hin.
  - exists st'. split; [exact Hrun|].
    apply (Hkept "f/A/n" "dGVzdA==" (InFabric 10 FNoc)).
    + do 2 right. now left.
    + reflexivity.
    + discriminate.
Defined.
